(** * The deduplicating article store and the GridFS media store

    A shallow embedding of [mongodb_manager.py] (class [MongoDBManager]),
    of [TwitterMongoManager.upload_media_file] and of
    [MediaUploader.upload_file_to_gridfs].

    The MongoDB server is modelled as an in-memory [Database] inside a
    [World]; Python exceptions are modelled by a state-and-exception monad
    in which a raised exception keeps the mutations done so far, exactly as
    a Python [try]/[except] sees them.  Storage failures (time-outs, lost
    connections) come from a fault schedule carried by the [World]: every
    call to the server consumes one entry of it. *)

From Stdlib Require Import ZArith String List Lia.
From stdpp Require Import base option list strings gmap sorting.

Local Open Scope string_scope.
Local Open Scope list_scope.
Local Open Scope nat_scope.

(** ** Data model *)

Definition ObjectId := nat.
Definition Timestamp := nat.

(** An article dictionary: the keys the store reads, and the rest of the
    payload.  [None] stands for an absent key; the values are strings, as
    the scrapers and the JSON exports produce them, and an article carries
    no ['_id'] of its own: the driver assigns one on insert. *)
Record Article := {
  url : option string;
  website_name : option string;
  scraped_at : option Timestamp;
  payload : list (string * string)
}.

(** A document of the articles collection: the article with its [_id]. *)
Record ArticleDoc := {
  article_id : ObjectId;
  article_doc : Article
}.

(** A document of the seen_urls collection. *)
Record SeenEntry := {
  seen_url : string;
  first_seen : Timestamp;
  last_seen : Timestamp;
  seen_source : option string;
  seen_count : Z
}.

(** [sources.<name>] inside the stats document. *)
Record SourceCounters := {
  source_articles : option Z;
  source_duplicates : option Z
}.

(** The stats document; every field may be missing, since an upsert on an
    empty collection creates only the fields it touches. *)
Record StatsDoc := {
  total_articles : option Z;
  total_duplicates : option Z;
  total_scraper_runs : option Z;
  last_updated : option Timestamp;
  sources : option (gmap string SourceCounters)
}.

(** A document of the scraper_runs collection. *)
Record Run := {
  run_id : ObjectId;
  started_at : Timestamp;
  ended_at : option Timestamp;
  status : string;
  run_source : option string;
  articles_scraped : Z;
  duplicates_found : Z;
  errors : Z
}.

(** The keyword arguments the uploads give to [GridFS.put]. *)
Record PutKwargs := {
  filename : string;
  content_type : string;
  upload_date : Timestamp;
  media_type : string;
  tweet_id : option string;
  original_filename : option string;
  original_path : option string;
  file_size : option Z
}.

(** A GridFS file: its [_id], the stored bytes, the [md5] field of the
    file document, which the driver fills in or leaves out, the
    [uploadDate] the driver writes when it closes the file, and the
    keyword arguments of the [put] that made it.  The [upload_date]
    keyword is a field of its own beside the driver's [uploadDate]: the
    attribute [upload_date] of a file read back is the driver's. *)
Record GridOut := {
  file_id : ObjectId;
  md5 : option string;
  uploadDate : Timestamp;
  file_data : list Byte.byte;
  file_kwargs : PutKwargs
}.

Record Database := {
  articles_collection : list ArticleDoc;
  seen_urls_collection : list SeenEntry;
  stats_collection : option StatsDoc;
  scraper_runs_collection : list Run;
  gridfs : list GridOut
}.

(** [self.stats] of [MediaUploader]. *)
Record UploaderStats := {
  files_found : Z;
  files_uploaded : Z;
  files_skipped : Z;
  files_failed : Z;
  total_size_uploaded : Z;
  duplicates_detected : Z
}.

(** Everything an operation can read or change: the database, the clock
    behind [datetime.now()], the generator of fresh [ObjectId]s, the fault
    schedule of the server, the local files and the uploader's counters. *)
Record World := {
  db : Database;
  clock : Timestamp;
  next_oid : ObjectId;
  faults : list (option string);
  disk : gmap string (list Byte.byte);
  uploader_stats : UploaderStats
}.

Definition set_db (f : Database → Database) (w : World) : World :=
  {| db := f (db w); clock := clock w; next_oid := next_oid w;
     faults := faults w; disk := disk w; uploader_stats := uploader_stats w |}.

Definition set_articles (f : list ArticleDoc → list ArticleDoc) (d : Database) : Database :=
  {| articles_collection := f (articles_collection d);
     seen_urls_collection := seen_urls_collection d;
     stats_collection := stats_collection d;
     scraper_runs_collection := scraper_runs_collection d;
     gridfs := gridfs d |}.

Definition set_seen_urls (f : list SeenEntry → list SeenEntry) (d : Database) : Database :=
  {| articles_collection := articles_collection d;
     seen_urls_collection := f (seen_urls_collection d);
     stats_collection := stats_collection d;
     scraper_runs_collection := scraper_runs_collection d;
     gridfs := gridfs d |}.

Definition set_stats (f : option StatsDoc → option StatsDoc) (d : Database) : Database :=
  {| articles_collection := articles_collection d;
     seen_urls_collection := seen_urls_collection d;
     stats_collection := f (stats_collection d);
     scraper_runs_collection := scraper_runs_collection d;
     gridfs := gridfs d |}.

Definition set_scraper_runs (f : list Run → list Run) (d : Database) : Database :=
  {| articles_collection := articles_collection d;
     seen_urls_collection := seen_urls_collection d;
     stats_collection := stats_collection d;
     scraper_runs_collection := f (scraper_runs_collection d);
     gridfs := gridfs d |}.

Definition set_gridfs (f : list GridOut → list GridOut) (d : Database) : Database :=
  {| articles_collection := articles_collection d;
     seen_urls_collection := seen_urls_collection d;
     stats_collection := stats_collection d;
     scraper_runs_collection := scraper_runs_collection d;
     gridfs := f (gridfs d) |}.

Definition set_uploader_stats (f : UploaderStats → UploaderStats) (w : World) : World :=
  {| db := db w; clock := clock w; next_oid := next_oid w;
     faults := faults w; disk := disk w; uploader_stats := f (uploader_stats w) |}.

(** ** Exceptions and the monad of operations *)

Inductive exn :=
| DuplicateKeyError (msg : string)
| PyMongoError (msg : string)
| FileNotFoundError (path : string).

(** [str(e)] *)
Definition exn_str (e : exn) : string :=
  match e with
  | DuplicateKeyError msg => msg
  | PyMongoError msg => msg
  | FileNotFoundError path => "No such file or directory: " +:+ path
  end.

Inductive Result (A : Type) :=
| Ok (a : A)
| Raise (e : exn).
Arguments Ok {A} a.
Arguments Raise {A} e.

Definition M (A : Type) : Type := World → Result A * World.

Definition ret {A} (a : A) : M A := λ w, (Ok a, w).

Definition raise {A} (e : exn) : M A := λ w, (Raise e, w).

Definition bind {A B} (m : M A) (k : A → M B) : M B :=
  λ w, match m w with
       | (Ok a, w1) => k a w1
       | (Raise e, w1) => (Raise e, w1)
       end.

(** [try: m except Exception as e: h e] *)
Definition try_catch {A} (m : M A) (h : exn → M A) : M A :=
  λ w, match m w with
       | (Ok a, w1) => (Ok a, w1)
       | (Raise e, w1) => h e w1
       end.

Definition get : M World := λ w, (Ok w, w).

Definition modify (f : World → World) : M unit := λ w, (Ok tt, f w).

Declare Scope store_scope.
Delimit Scope store_scope with store.
Notation "x <- m ;; k" := (bind m (λ x, k))
  (at level 100, m at next level, right associativity) : store_scope.
Notation "m ;; k" := (bind m (λ _, k))
  (at level 100, right associativity) : store_scope.
Local Open Scope store_scope.

(** [datetime.now()]: successive readings are strictly increasing. *)
Definition now : M Timestamp :=
  λ w, (Ok (clock w),
        {| db := db w; clock := S (clock w); next_oid := next_oid w;
           faults := faults w; disk := disk w; uploader_stats := uploader_stats w |}).

(** A fresh [ObjectId], as the driver generates one for each insert. *)
Definition fresh_oid : M ObjectId :=
  λ w, (Ok (next_oid w),
        {| db := db w; clock := clock w; next_oid := S (next_oid w);
           faults := faults w; disk := disk w; uploader_stats := uploader_stats w |}).

(** One round trip to the server.  It consumes the next entry of the fault
    schedule; [Some msg] makes the call raise, and an exhausted schedule
    means the server answers from then on. *)
Definition server_call : M unit :=
  λ w, match faults w with
       | [] => (Ok tt, w)
       | o :: rest =>
           let w1 := {| db := db w; clock := clock w; next_oid := next_oid w;
                        faults := rest; disk := disk w;
                        uploader_stats := uploader_stats w |} in
           match o with
           | None => (Ok tt, w1)
           | Some msg => (Raise (PyMongoError msg), w1)
           end
       end.

(** Python truthiness of an optional string: [None] and [""] are falsy. *)
Definition truthy (o : option string) : bool :=
  match o with
  | Some (String _ _) => true
  | _ => false
  end.

(** ** Collection primitives *)

Fixpoint update_first {A} (p : A → bool) (f : A → A) (l : list A) : list A :=
  match l with
  | [] => []
  | x :: rest => if p x then f x :: rest else x :: update_first p f rest
  end.

Definition has_url (u : option string) (d : ArticleDoc) : bool :=
  bool_decide (url (article_doc d) = u).

Definition seen_has_url (u : string) (e : SeenEntry) : bool :=
  bool_decide (seen_url e = u).

(** [seen_urls_collection.count_documents({'url': url}, limit=1)] *)
Definition seen_count_documents_url (u : string) : M nat :=
  server_call ;;
  w <- get ;;
  ret (if existsb (seen_has_url u) (seen_urls_collection (db w)) then 1 else 0).

(** [articles_collection.insert_one(article)]: the unique index on [url]
    makes the server refuse a second document with the same url. *)
Definition articles_insert_one (a : Article) : M ObjectId :=
  server_call ;;
  w <- get ;;
  if existsb (has_url (url a)) (articles_collection (db w))
  then raise (DuplicateKeyError "E11000 duplicate key error collection: articles index: url_1")
  else
    oid <- fresh_oid ;;
    modify (set_db (set_articles
      (λ l, (l ++ [{| article_id := oid; article_doc := a |}])%list))) ;;
    ret oid.

(** [seen_urls_collection.insert_one(seen_entry)], unique index on [url]. *)
Definition seen_urls_insert_one (e : SeenEntry) : M unit :=
  server_call ;;
  w <- get ;;
  if existsb (seen_has_url (seen_url e)) (seen_urls_collection (db w))
  then raise (DuplicateKeyError "E11000 duplicate key error collection: seen_urls index: url_1")
  else modify (set_db (set_seen_urls (λ l, (l ++ [e])%list))).

(** [seen_urls_collection.update_one({'url': url}, ...)], no upsert: the
    first matching entry is changed, a miss changes nothing. *)
Definition seen_urls_update_one (u : string) (f : SeenEntry → SeenEntry) : M unit :=
  server_call ;;
  modify (set_db (set_seen_urls (update_first (seen_has_url u) f))).

(** [articles_collection.count_documents({})] *)
Definition articles_count_documents : M nat :=
  server_call ;;
  w <- get ;;
  ret (length (articles_collection (db w))).

Definition seen_urls_count_documents : M nat :=
  server_call ;;
  w <- get ;;
  ret (length (seen_urls_collection (db w))).

Definition scraper_runs_count_documents : M nat :=
  server_call ;;
  w <- get ;;
  ret (length (scraper_runs_collection (db w))).

(** *** Update documents of the stats collection *)

Inductive StatsField :=
| f_total_articles
| f_total_duplicates
| f_total_scraper_runs
| f_source_articles (source : string)
| f_source_duplicates (source : string).

(** [{'$inc': {...}, '$set': {'last_updated': ...}}] *)
Record StatsUpdate := {
  upd_inc : list (StatsField * Z);
  upd_set_last_updated : option Timestamp
}.

(** [$inc] on a missing field creates it with the increment. *)
Definition inc_field (o : option Z) (n : Z) : option Z :=
  Some (default 0%Z o + n)%Z.

Definition empty_source : SourceCounters :=
  {| source_articles := None; source_duplicates := None |}.

(** The names that are one component of an update path.  The server
    splits a path such as [sources.<name>.articles] at every dot, reads a
    component that starts with a dollar sign as an operator and refuses a
    null character, so only for a name without them is the path the one
    field [<name>] below [sources]. *)
Fixpoint has_char (c : Ascii.ascii) (s : string) : bool :=
  match s with
  | EmptyString => false
  | String c0 rest => Ascii.eqb c0 c || has_char c rest
  end.

Definition starts_with_char (c : Ascii.ascii) (s : string) : bool :=
  match s with
  | EmptyString => false
  | String c0 _ => Ascii.eqb c0 c
  end.

Definition plain_key (s : string) : bool :=
  negb (has_char (Ascii.ascii_of_nat 46) s)
  && negb (starts_with_char (Ascii.ascii_of_nat 36) s)
  && negb (has_char (Ascii.ascii_of_nat 0) s).

(** [$inc] on [sources.<s>.<field>], for a name [s] that is one component
    of the path ([plain_key s]): the entry of [s] below [sources], and
    [sources] itself, are created when missing.  The statements about the
    counters of one source carry [plain_key] as a hypothesis. *)
Definition inc_source (f : SourceCounters → SourceCounters) (s : string)
    (o : option (gmap string SourceCounters)) : option (gmap string SourceCounters) :=
  let m := default ∅ o in
  Some (<[s := f (default empty_source (m !! s))]> m).

Definition apply_inc (d : StatsDoc) (fn : StatsField * Z) : StatsDoc :=
  let n := fn.2 in
  match fn.1 with
  | f_total_articles =>
      {| total_articles := inc_field (total_articles d) n;
         total_duplicates := total_duplicates d;
         total_scraper_runs := total_scraper_runs d;
         last_updated := last_updated d; sources := sources d |}
  | f_total_duplicates =>
      {| total_articles := total_articles d;
         total_duplicates := inc_field (total_duplicates d) n;
         total_scraper_runs := total_scraper_runs d;
         last_updated := last_updated d; sources := sources d |}
  | f_total_scraper_runs =>
      {| total_articles := total_articles d;
         total_duplicates := total_duplicates d;
         total_scraper_runs := inc_field (total_scraper_runs d) n;
         last_updated := last_updated d; sources := sources d |}
  | f_source_articles s =>
      {| total_articles := total_articles d;
         total_duplicates := total_duplicates d;
         total_scraper_runs := total_scraper_runs d;
         last_updated := last_updated d;
         sources := inc_source (λ c, {| source_articles := inc_field (source_articles c) n;
                                        source_duplicates := source_duplicates c |})
                               s (sources d) |}
  | f_source_duplicates s =>
      {| total_articles := total_articles d;
         total_duplicates := total_duplicates d;
         total_scraper_runs := total_scraper_runs d;
         last_updated := last_updated d;
         sources := inc_source (λ c, {| source_articles := source_articles c;
                                        source_duplicates := inc_field (source_duplicates c) n |})
                               s (sources d) |}
  end.

Definition apply_stats_update (u : StatsUpdate) (d : StatsDoc) : StatsDoc :=
  let d1 := fold_left apply_inc (upd_inc u) d in
  match upd_set_last_updated u with
  | Some t =>
      {| total_articles := total_articles d1;
         total_duplicates := total_duplicates d1;
         total_scraper_runs := total_scraper_runs d1;
         last_updated := Some t; sources := sources d1 |}
  | None => d1
  end.

Definition empty_stats_doc : StatsDoc :=
  {| total_articles := None; total_duplicates := None;
     total_scraper_runs := None; last_updated := None; sources := None |}.

(** [stats_collection.update_one({}, update_dict, upsert=True)] *)
Definition stats_update_one_upsert (u : StatsUpdate) : M unit :=
  server_call ;;
  modify (set_db (set_stats
    (λ o, Some (apply_stats_update u (default empty_stats_doc o))))).

(** [stats_collection.find_one({}, {'_id': 0})] *)
Definition stats_find_one : M (option StatsDoc) :=
  server_call ;;
  w <- get ;;
  ret (stats_collection (db w)).

(** ** [MongoDBManager] *)

(** The initial stats document of [_initialize_stats]. *)
Definition initial_stats (t : Timestamp) : StatsDoc :=
  {| total_articles := Some 0%Z; total_duplicates := Some 0%Z;
     total_scraper_runs := Some 0%Z; last_updated := Some t;
     sources := Some ∅ |}.

Definition _initialize_stats : M unit :=
  server_call ;;
  w <- get ;;
  match stats_collection (db w) with
  | None =>
      t <- now ;;
      server_call ;;
      modify (set_db (set_stats (λ _, Some (initial_stats t))))
  | Some _ => ret tt
  end.

Definition is_duplicate (u : string) : M bool :=
  n <- seen_count_documents_url u ;;
  ret (0 <? n)%nat.

Definition _update_stats (added duplicates : Z) (source : option string) : M unit :=
  try_catch
    (t <- now ;;
     let inc0 : list (StatsField * Z) := [] in
     let inc1 := if (0 <? added)%Z then (inc0 ++ [(f_total_articles, added)])%list else inc0 in
     let inc2 := if (0 <? duplicates)%Z
                 then (inc1 ++ [(f_total_duplicates, duplicates)])%list else inc1 in
     let inc3 := if truthy source && (0 <? added)%Z
                 then (inc2 ++ [(f_source_articles (default "" source), added)])%list
                 else inc2 in
     let inc4 := if truthy source && (0 <? duplicates)%Z
                 then (inc3 ++ [(f_source_duplicates (default "" source), duplicates)])%list
                 else inc3 in
     stats_update_one_upsert {| upd_inc := inc4; upd_set_last_updated := Some t |})
    (λ _, ret tt).

Definition _add_to_seen_urls (u : string) (source : option string) : M unit :=
  try_catch
    (t1 <- now ;;
     t2 <- now ;;
     seen_urls_insert_one
       {| seen_url := u; first_seen := t1; last_seen := t2;
          seen_source := source; seen_count := 1 |})
    (λ _, ret tt).

Definition touch (t : Timestamp) (e : SeenEntry) : SeenEntry :=
  {| seen_url := seen_url e; first_seen := first_seen e; last_seen := t;
     seen_source := seen_source e; seen_count := (seen_count e + 1)%Z |}.

(** The [source] argument is received and not used: the call below is
    [self._update_stats(duplicates=1)]. *)
Definition _track_duplicate (u : string) (source : option string) : M unit :=
  try_catch
    (t <- now ;;
     seen_urls_update_one u (touch t) ;;
     _update_stats 0 1 None)
    (λ _, ret tt).

(** The dictionary [add_article] returns, by its ['status']. *)
Inductive Outcome :=
| success (u : string) (total : nat) (mongodb_id : ObjectId)
| duplicate (u : string)
| error (reason : string).

Definition with_scraped_at (a : Article) (t : Timestamp) : Article :=
  {| url := url a; website_name := website_name a;
     scraped_at := Some t; payload := payload a |}.

Definition add_article (article : Article) : M Outcome :=
  let url_ := url article in
  if negb (truthy url_) then ret (error "missing_url")
  else
    let u := default "" url_ in
    try_catch
      (n <- seen_count_documents_url u ;;
       if (0 <? n)%nat then
         _track_duplicate u (website_name article) ;;
         ret (duplicate u)
       else
         article1 <- match scraped_at article with
                     | None => t <- now ;; ret (with_scraped_at article t)
                     | Some _ => ret article
                     end ;;
         oid <- articles_insert_one article1 ;;
         _add_to_seen_urls u (website_name article1) ;;
         _update_stats 1 0 (website_name article1) ;;
         total <- articles_count_documents ;;
         ret (success u total oid))
      (λ e, match e with
            | DuplicateKeyError _ =>
                _track_duplicate u (website_name article) ;;
                ret (duplicate u)
            | _ => ret (error (exn_str e))
            end).

(** The dictionary [add_articles_batch] returns; its ['errors'] key is
    [batch_errors] here, [errors] being the counter of a run. *)
Record BatchSummary := {
  total : nat;
  added : nat;
  duplicates : nat;
  batch_errors : nat;
  duplicate_urls : list string
}.

(** One turn of the [for] loop of [add_articles_batch]. *)
Definition tally (results : BatchSummary) (result : Outcome) : BatchSummary :=
  match result with
  | success _ _ _ =>
      {| total := total results; added := added results + 1;
         duplicates := duplicates results; batch_errors := batch_errors results;
         duplicate_urls := duplicate_urls results |}
  | duplicate u =>
      {| total := total results; added := added results;
         duplicates := duplicates results + 1; batch_errors := batch_errors results;
         duplicate_urls := (duplicate_urls results ++ [u])%list |}
  | error _ =>
      {| total := total results; added := added results;
         duplicates := duplicates results; batch_errors := batch_errors results + 1;
         duplicate_urls := duplicate_urls results |}
  end.

Fixpoint add_articles_loop (articles : list Article) (results : BatchSummary)
    : M BatchSummary :=
  match articles with
  | [] => ret results
  | article :: rest =>
      result <- add_article article ;;
      add_articles_loop rest (tally results result)
  end.

Definition add_articles_batch (articles : list Article) : M BatchSummary :=
  add_articles_loop articles
    {| total := length articles; added := 0; duplicates := 0;
       batch_errors := 0; duplicate_urls := [] |}.

(** The dictionary [get_database_stats] returns.  The storage size, the
    engine name and the connection string come from the server and the
    configuration file and are left out. *)
Record DatabaseStats := {
  stats_total_articles : nat;
  stats_total_seen_urls : nat;
  stats_total_duplicates : Z;
  stats_total_scraper_runs : nat;
  stats_last_updated : option Timestamp;
  stats_sources : gmap string SourceCounters
}.

(** [articles_collection.find_one({}, {'scraped_at': 1},
    sort=[('scraped_at', -1)])]: a document with the greatest
    [scraped_at]; a missing field sorts lowest. *)
Definition newer (d best : ArticleDoc) : bool :=
  match scraped_at (article_doc d), scraped_at (article_doc best) with
  | Some t, Some t' => (t' <? t)%nat
  | Some _, None => true
  | None, _ => false
  end.

Definition articles_find_last : M (option ArticleDoc) :=
  server_call ;;
  w <- get ;;
  ret (fold_left (λ best d, match best with
                            | None => Some d
                            | Some b => if newer d b then Some d else Some b
                            end)
                 (articles_collection (db w)) None).

(** [self.db.command('dbStats')] *)
Definition db_command_dbStats : M unit := server_call.

Definition get_database_stats : M DatabaseStats :=
  found <- stats_find_one ;;
  stats_doc <- match found with
               | Some d => ret d
               | None =>
                   n <- articles_count_documents ;;
                   t <- now ;;
                   ret {| total_articles := Some (Z.of_nat n);
                          total_duplicates := Some 0%Z;
                          total_scraper_runs := None;
                          last_updated := Some t; sources := None |}
               end ;;
  total_articles_ <- articles_count_documents ;;
  total_seen_urls <- seen_urls_count_documents ;;
  total_scraper_runs_ <- scraper_runs_count_documents ;;
  last_article <- articles_find_last ;;
  let last_updated_ := last_article ≫= (λ d, scraped_at (article_doc d)) in
  db_command_dbStats ;;
  ret {| stats_total_articles := total_articles_;
         stats_total_seen_urls := total_seen_urls;
         stats_total_duplicates := default 0%Z (total_duplicates stats_doc);
         stats_total_scraper_runs := total_scraper_runs_;
         stats_last_updated := last_updated_;
         stats_sources := default ∅ (sources stats_doc) |}.

(** *** Scraper runs *)

Definition start_scraper_run (source : option string) : M ObjectId :=
  t <- now ;;
  server_call ;;
  oid <- fresh_oid ;;
  modify (set_db (set_scraper_runs (λ l,
    (l ++ [{| run_id := oid; started_at := t; ended_at := None;
              status := "running"; run_source := source;
              articles_scraped := 0; duplicates_found := 0; errors := 0 |}])%list))) ;;
  stats_update_one_upsert
    {| upd_inc := [(f_total_scraper_runs, 1%Z)]; upd_set_last_updated := None |} ;;
  ret oid.

Inductive RunField := f_articles_scraped | f_duplicates_found | f_errors.

(** [{'$inc': {...}, '$set': {'status': ..., 'ended_at': ...}}] *)
Record RunUpdate := {
  run_inc : list (RunField * Z);
  run_set_status : option string;
  run_set_ended_at : option Timestamp
}.

Definition apply_run_inc (r : Run) (fn : RunField * Z) : Run :=
  let n := fn.2 in
  match fn.1 with
  | f_articles_scraped =>
      {| run_id := run_id r; started_at := started_at r; ended_at := ended_at r;
         status := status r; run_source := run_source r;
         articles_scraped := (articles_scraped r + n)%Z;
         duplicates_found := duplicates_found r; errors := errors r |}
  | f_duplicates_found =>
      {| run_id := run_id r; started_at := started_at r; ended_at := ended_at r;
         status := status r; run_source := run_source r;
         articles_scraped := articles_scraped r;
         duplicates_found := (duplicates_found r + n)%Z; errors := errors r |}
  | f_errors =>
      {| run_id := run_id r; started_at := started_at r; ended_at := ended_at r;
         status := status r; run_source := run_source r;
         articles_scraped := articles_scraped r;
         duplicates_found := duplicates_found r; errors := (errors r + n)%Z |}
  end.

Definition apply_run_update (u : RunUpdate) (r : Run) : Run :=
  let r1 := fold_left apply_run_inc (run_inc u) r in
  {| run_id := run_id r1; started_at := started_at r1;
     ended_at := match run_set_ended_at u with
                 | Some t => Some t
                 | None => ended_at r1
                 end;
     status := default (status r1) (run_set_status u);
     run_source := run_source r1;
     articles_scraped := articles_scraped r1;
     duplicates_found := duplicates_found r1; errors := errors r1 |}.

Definition has_run_id (rid : ObjectId) (r : Run) : bool :=
  bool_decide (run_id r = rid).

(** [scraper_runs_collection.update_one({'_id': ObjectId(run_id)}, ...)].
    The filter holds no condition on [status] or [ended_at]. *)
Definition scraper_runs_update_one (rid : ObjectId) (u : RunUpdate) : M unit :=
  server_call ;;
  modify (set_db (set_scraper_runs (update_first (has_run_id rid) (apply_run_update u)))).

(** Run ids are the [ObjectId]s themselves; the string form and the
    [ObjectId(run_id)] parse of a malformed string are left out.  An
    [update_dict] whose ['$inc'] is empty is taken as the server takes it
    from version 5.0 on: it changes nothing. *)
Definition update_scraper_run (rid : ObjectId) (articles duplicates_ errors_ : Z)
    (status_ : option string) : M unit :=
  let inc0 : list (RunField * Z) := [] in
  let inc1 := if (0 <? articles)%Z
              then (inc0 ++ [(f_articles_scraped, articles)])%list else inc0 in
  let inc2 := if (0 <? duplicates_)%Z
              then (inc1 ++ [(f_duplicates_found, duplicates_)])%list else inc1 in
  let inc3 := if (0 <? errors_)%Z
              then (inc2 ++ [(f_errors, errors_)])%list else inc2 in
  scraper_runs_update_one rid
    {| run_inc := inc3;
       run_set_status := if truthy status_ then status_ else None;
       run_set_ended_at := None |}.

Definition end_scraper_run (rid : ObjectId) (status_ : string) : M unit :=
  t <- now ;;
  scraper_runs_update_one rid
    {| run_inc := []; run_set_status := Some status_; run_set_ended_at := Some t |}.

Definition find_run (rid : ObjectId) (w : World) : option Run :=
  find (has_run_id rid) (scraper_runs_collection (db w)).

(** ** The GridFS media store *)

(** What an upload returns: the id of a GridFS file, or the string
    ["dry_run_id"] of a dry run. *)
Inductive BlobRef :=
| GridId (oid : ObjectId)
| DryRunId.

(** A dictionary of [scan_media_files]. *)
Record MediaInfo := {
  mi_file_path : string;
  mi_relative_path : string;
  mi_filename : string;
  mi_size : Z;
  mi_extension : string
}.

Definition slash : Ascii.ascii := Ascii.ascii_of_nat 47.

Fixpoint has_slash (s : string) : bool :=
  match s with
  | EmptyString => false
  | String c rest => Ascii.eqb c slash || has_slash rest
  end.

(** [os.path.basename]: what follows the last slash. *)
Fixpoint basename (p : string) : string :=
  match p with
  | EmptyString => EmptyString
  | String c rest =>
      if has_slash rest then basename rest
      else if Ascii.eqb c slash then rest else p
  end.

(** [os.path.exists(file_path)] *)
Definition os_path_exists (p : string) : M bool :=
  λ w, (Ok (bool_decide (is_Some (disk w !! p))), w).

(** [open(file_path, 'rb').read()] *)
Definition read_file (p : string) : M (list Byte.byte) :=
  λ w, match disk w !! p with
       | Some content => (Ok content, w)
       | None => (Raise (FileNotFoundError p), w)
       end.

Definition has_md5 (h : string) (f : GridOut) : bool := bool_decide (md5 f = Some h).

(** [self.gridfs.find_one({"md5": file_hash})] *)
Definition gridfs_find_one_md5 (h : string) : M (option GridOut) :=
  server_call ;;
  w <- get ;;
  ret (find (has_md5 h) (gridfs (db w))).

Definition video_extensions : list string :=
  [".mp4"; ".mov"; ".avi"; ".mkv"; ".webm"; ".flv"; ".wmv"].

Definition bump_skipped (s : UploaderStats) : UploaderStats :=
  {| files_found := files_found s; files_uploaded := files_uploaded s;
     files_skipped := (files_skipped s + 1)%Z; files_failed := files_failed s;
     total_size_uploaded := total_size_uploaded s;
     duplicates_detected := (duplicates_detected s + 1)%Z |}.

Definition bump_uploaded (size : Z) (s : UploaderStats) : UploaderStats :=
  {| files_found := files_found s; files_uploaded := (files_uploaded s + 1)%Z;
     files_skipped := files_skipped s; files_failed := files_failed s;
     total_size_uploaded := (total_size_uploaded s + size)%Z;
     duplicates_detected := duplicates_detected s |}.

Definition bump_failed (s : UploaderStats) : UploaderStats :=
  {| files_found := files_found s; files_uploaded := files_uploaded s;
     files_skipped := files_skipped s; files_failed := (files_failed s + 1)%Z;
     total_size_uploaded := total_size_uploaded s;
     duplicates_detected := duplicates_detected s |}.

(** The number of GridFS files whose [md5] field is [h]. *)
Definition count_md5 (h : string) (w : World) : nat :=
  length (filter (λ f, md5 f = Some h) (gridfs (db w))).

Section Media.

(** [hashlib.md5(content).hexdigest()] and [mimetypes.guess_type(path)[0]]
    are library functions; the development holds for any two functions
    in their place.  [gridfs_md5] is what the GridFS driver writes in the
    [md5] field of a file document for the bytes it stores: the uploads
    pass no [md5] keyword, the field is the driver's own, and [None]
    stands for a driver that writes none. *)
Variable hashlib_md5 : list Byte.byte → string.
Variable gridfs_md5 : list Byte.byte → option string.
Variable guess_type : string → option string.

(** [self.gridfs.put(content, **kwargs)]: the driver reads the clock for
    the [uploadDate] of the file it stores. *)
Definition gridfs_put (content : list Byte.byte) (kwargs : PutKwargs) : M ObjectId :=
  server_call ;;
  oid <- fresh_oid ;;
  closed_at <- now ;;
  modify (set_db (set_gridfs (λ l,
    l ++ [{| file_id := oid; md5 := gridfs_md5 content; uploadDate := closed_at;
             file_data := content; file_kwargs := kwargs |}]))) ;;
  ret oid.

Definition guess_content_type (file_path : string) : string :=
  let content_type_ := guess_type file_path in
  if truthy content_type_ then default "" content_type_
  else "application/octet-stream".

(** [TwitterMongoManager.upload_media_file] *)
Definition upload_media_file (file_path tweet_id_ media_type_ : string)
    : M (option BlobRef) :=
  try_catch
    (found <- os_path_exists file_path ;;
     if negb found then ret None
     else
       let filename_ := basename file_path in
       let gridfs_filename := tweet_id_ +:+ "_" +:+ filename_ in
       content <- read_file file_path ;;
       let file_hash := hashlib_md5 content in
       existing_file <- gridfs_find_one_md5 file_hash ;;
       match existing_file with
       | Some f => ret (Some (GridId (file_id f)))
       | None =>
           let content_type_ := guess_content_type file_path in
           t <- now ;;
           oid <- gridfs_put content
                    {| filename := gridfs_filename; content_type := content_type_;
                       upload_date := t; media_type := media_type_;
                       tweet_id := Some tweet_id_;
                       original_filename := Some filename_;
                       original_path := None; file_size := None |} ;;
           ret (Some (GridId oid))
       end)
    (λ _, ret None).

(** [MediaUploader.upload_file_to_gridfs], for an uploader whose
    [dry_run] attribute is [dry_run]. *)
Definition upload_file_to_gridfs (dry_run : bool) (media_info : MediaInfo)
    : M (option BlobRef) :=
  try_catch
    (let file_path := mi_file_path media_info in
     if dry_run then ret (Some DryRunId)
     else
       content <- read_file file_path ;;
       let file_hash := hashlib_md5 content in
       existing_file <- gridfs_find_one_md5 file_hash ;;
       match existing_file with
       | Some f =>
           modify (set_uploader_stats bump_skipped) ;;
           ret (Some (GridId (file_id f)))
       | None =>
           let content_type_ := guess_content_type file_path in
           t <- now ;;
           f <- read_file file_path ;;
           oid <- gridfs_put f
                    {| filename := mi_filename media_info;
                       content_type := content_type_;
                       upload_date := t;
                       media_type :=
                         if existsb (String.eqb (mi_extension media_info))
                              video_extensions
                         then "video" else "photo";
                       tweet_id := None; original_filename := None;
                       original_path := Some (mi_relative_path media_info);
                       file_size := Some (mi_size media_info) |} ;;
           modify (set_uploader_stats (bump_uploaded (mi_size media_info))) ;;
           ret (Some (GridId oid))
       end)
    (λ _, modify (set_uploader_stats bump_failed) ;; ret None).

End Media.

(** ** [MongoDBManager]: the queries *)

(** [get_all_articles]: [list(articles_collection.find({}, {'_id': 0}))] *)
Definition get_all_articles : M (list Article) :=
  server_call ;;
  w <- get ;;
  ret (article_doc <$> articles_collection (db w)).

(** The sort key of [sort('scraped_at', -1)]: a missing field sorts
    below every value. *)
Definition stamp (a : Article) : nat :=
  match scraped_at a with
  | Some t => S t
  | None => 0
  end.

(** [a] may come before [b] in the descending order. *)
Definition newest_first (a b : Article) : Prop := stamp b ≤ stamp a.

#[global] Instance newest_first_dec : RelDecision newest_first :=
  λ a b, decide (stamp b ≤ stamp a).

(** [get_all_articles_sorted]: the server's sort is modelled by a merge
    sort; the order it gives to articles of equal [scraped_at] is one of
    those the server may give. *)
Definition get_all_articles_sorted : M (list Article) :=
  server_call ;;
  w <- get ;;
  ret (merge_sort newest_first (article_doc <$> articles_collection (db w))).

(** [get_article_by_id]:
    [articles_collection.find_one({'url': article_id}, {'_id': 0})] *)
Definition get_article_by_id (article_id : string) : M (option Article) :=
  server_call ;;
  w <- get ;;
  ret (article_doc <$> find (has_url (Some article_id)) (articles_collection (db w))).

(** [get_seen_urls] *)
Definition get_seen_urls : M (list SeenEntry) :=
  server_call ;;
  w <- get ;;
  ret (seen_urls_collection (db w)).

(** [get_duplicates]:
    [seen_urls_collection.find({'seen_count': {'$gt': 1}}, {'_id': 0})] *)
Definition get_duplicates : M (list SeenEntry) :=
  server_call ;;
  w <- get ;;
  ret (List.filter (λ e, (1 <? seen_count e)%Z) (seen_urls_collection (db w))).

Definition started_first (r1 r2 : Run) : Prop := started_at r2 ≤ started_at r1.

#[global] Instance started_first_dec : RelDecision started_first :=
  λ r1 r2, decide (started_at r2 ≤ started_at r1).

(** [get_scraper_runs]: [find({}, {'_id': 0}).sort('started_at', -1)
    .limit(limit)].  A limit of 0 is no limit.  The projection drops the
    ['_id'] of the runs returned; [run_id] is kept here to tell them
    apart. *)
Definition get_scraper_runs (limit : nat) : M (list Run) :=
  server_call ;;
  w <- get ;;
  let sorted := merge_sort started_first (scraper_runs_collection (db w)) in
  ret (match limit with
       | 0 => sorted
       | _ => take limit sorted
       end).

(** ** Reading media back, and the media of a tweet *)

(** The dictionary [get_media_file] returns. *)
Record MediaFile := {
  mf_content : list Byte.byte;
  mf_filename : string;
  mf_content_type : string;
  mf_length : nat;
  mf_upload_date : Timestamp
}.

(** [self.gridfs.get(ObjectId(gridfs_id))]: [NoFile] when no file has the
    id, and [InvalidId] for a string that is no [ObjectId], as
    ["dry_run_id"] is; both are errors of the driver. *)
Definition gridfs_get (ref : BlobRef) : M GridOut :=
  match ref with
  | DryRunId => raise (PyMongoError "dry_run_id is not a valid ObjectId")
  | GridId oid =>
      server_call ;;
      w <- get ;;
      match find (λ f, bool_decide (file_id f = oid)) (gridfs (db w)) with
      | Some f => ret f
      | None => raise (PyMongoError "no file in gridfs collection")
      end
  end.

(** [TwitterMongoManager.get_media_file] *)
Definition get_media_file (gridfs_id : BlobRef) : M (option MediaFile) :=
  try_catch
    (file_obj <- gridfs_get gridfs_id ;;
     ret (Some {| mf_content := file_data file_obj;
                  mf_filename := filename (file_kwargs file_obj);
                  mf_content_type := content_type (file_kwargs file_obj);
                  mf_length := length (file_data file_obj);
                  mf_upload_date := uploadDate file_obj |}))
    (λ _, ret None).

(** An entry of ['media_files'] of a tweet: its ['file'], ['type'] and
    ['size'] keys. *)
Record MediaRef := {
  mr_file : option string;
  mr_type : option string;
  mr_size : option Z
}.

(** An entry of ['media_files_gridfs']. *)
Record StoredMedia := {
  sm_gridfs_id : BlobRef;
  sm_type : string;
  sm_original_filename : string;
  sm_size : Z
}.

(** A tweet dictionary: the keys the manager reads or writes, and the
    rest of the payload.  Ids are strings; an absent ['media_files'] is
    the empty list. *)
Record Tweet := {
  tw_tweet_id : option string;
  tw_id : option string;
  tw_has_media : bool;
  tw_media_files : list MediaRef;
  tw_media_files_gridfs : option (list StoredMedia);
  tw_has_media_gridfs : option bool;
  tw_username : option string;
  tw_original_author : option string;
  tw_keyword : option string;
  tw_scraped_at : option Timestamp;
  tw_payload : list (string * string)
}.

Definition set_media_gridfs (stored_media : list StoredMedia) (t : Tweet) : Tweet :=
  {| tw_tweet_id := tw_tweet_id t; tw_id := tw_id t; tw_has_media := tw_has_media t;
     tw_media_files := tw_media_files t;
     tw_media_files_gridfs := Some stored_media;
     tw_has_media_gridfs := Some (0 <? length stored_media);
     tw_username := tw_username t; tw_original_author := tw_original_author t;
     tw_keyword := tw_keyword t; tw_scraped_at := tw_scraped_at t;
     tw_payload := tw_payload t |}.

Section TweetMedia.

Variable hashlib_md5 : list Byte.byte → string.
Variable gridfs_md5 : list Byte.byte → option string.
Variable guess_type : string → option string.

(** One turn of the loop of [store_media_for_tweet]. *)
Definition store_one_media (tweet_id_ : string) (media_file : MediaRef)
    (stored_media : list StoredMedia) : M (list StoredMedia) :=
  let local_path := default "" (mr_file media_file) in
  if truthy (mr_file media_file) then
    gridfs_id <- upload_media_file hashlib_md5 gridfs_md5 guess_type
                   local_path tweet_id_ (default "photo" (mr_type media_file)) ;;
    match gridfs_id with
    | Some ref =>
        ret (stored_media ++ [{| sm_gridfs_id := ref;
                                 sm_type := default "photo" (mr_type media_file);
                                 sm_original_filename := basename local_path;
                                 sm_size := default 0%Z (mr_size media_file) |}])
    | None => ret stored_media
    end
  else ret stored_media.

Fixpoint store_media_loop (tweet_id_ : string) (media_files : list MediaRef)
    (stored_media : list StoredMedia) : M (list StoredMedia) :=
  match media_files with
  | [] => ret stored_media
  | media_file :: rest =>
      stored_media1 <- store_one_media tweet_id_ media_file stored_media ;;
      store_media_loop tweet_id_ rest stored_media1
  end.

(** [TwitterMongoManager.store_media_for_tweet] *)
Definition store_media_for_tweet (tweet : Tweet) : M Tweet :=
  if negb (truthy (tw_tweet_id tweet)) then ret tweet
  else
    stored_media <- store_media_loop (default "" (tw_tweet_id tweet))
                      (tw_media_files tweet) [] ;;
    ret (set_media_gridfs stored_media tweet).

End TweetMedia.

(** ** [TwitterMongoManager]: tweets, users and their statistics *)

(** A document of the tweets collection. *)
Record TweetDoc := {
  tweet_doc_id : ObjectId;
  tweet_doc : Tweet
}.

(** A document of the twitter_users collection. *)
Record UserDoc := {
  user_name : string;
  display_name : string;
  added_at : Timestamp;
  user_total_tweets : Z;
  last_scraped : option Timestamp
}.

(** The twitter_stats document, every key optional: ['users'] and
    ['keywords'] map a name to its ['tweets'] counter. *)
Record TwitterStats := {
  total_tweets : option Z;
  total_users : option Z;
  total_keywords_searches : option Z;
  stats_last_updated_at : option Timestamp;
  user_tweets : option (gmap string Z);
  keyword_tweets : option (gmap string Z)
}.

(** The world of a [TwitterMongoManager]: its three collections beside the
    world of the article store and of GridFS. *)
Record TwitterWorld := {
  tweets_collection : list TweetDoc;
  twitter_users_collection : list UserDoc;
  twitter_stats_collection : option TwitterStats;
  base : World
}.

Definition set_base (f : World → World) (tw : TwitterWorld) : TwitterWorld :=
  {| tweets_collection := tweets_collection tw;
     twitter_users_collection := twitter_users_collection tw;
     twitter_stats_collection := twitter_stats_collection tw;
     base := f (base tw) |}.

Definition set_tweets (f : list TweetDoc → list TweetDoc) (tw : TwitterWorld)
    : TwitterWorld :=
  {| tweets_collection := f (tweets_collection tw);
     twitter_users_collection := twitter_users_collection tw;
     twitter_stats_collection := twitter_stats_collection tw;
     base := base tw |}.

Definition set_twitter_users (f : list UserDoc → list UserDoc) (tw : TwitterWorld)
    : TwitterWorld :=
  {| tweets_collection := tweets_collection tw;
     twitter_users_collection := f (twitter_users_collection tw);
     twitter_stats_collection := twitter_stats_collection tw;
     base := base tw |}.

Definition set_twitter_stats (f : option TwitterStats → option TwitterStats)
    (tw : TwitterWorld) : TwitterWorld :=
  {| tweets_collection := tweets_collection tw;
     twitter_users_collection := twitter_users_collection tw;
     twitter_stats_collection := f (twitter_stats_collection tw);
     base := base tw |}.

(** The monad of the operations of the twitter manager. *)
Definition T (A : Type) : Type := TwitterWorld → Result A * TwitterWorld.

Definition tret {A} (a : A) : T A := λ tw, (Ok a, tw).

Definition traise {A} (e : exn) : T A := λ tw, (Raise e, tw).

Definition tbind {A B} (m : T A) (k : A → T B) : T B :=
  λ tw, match m tw with
        | (Ok a, tw1) => k a tw1
        | (Raise e, tw1) => (Raise e, tw1)
        end.

Definition ttry {A} (m : T A) (h : exn → T A) : T A :=
  λ tw, match m tw with
        | (Ok a, tw1) => (Ok a, tw1)
        | (Raise e, tw1) => h e tw1
        end.

(** An operation of the base world, run inside the twitter world. *)
Definition lift {A} (m : M A) : T A :=
  λ tw, let (r, w1) := m (base tw) in (r, set_base (λ _, w1) tw).

Definition tget : T TwitterWorld := λ tw, (Ok tw, tw).

Definition tmodify (f : TwitterWorld → TwitterWorld) : T unit := λ tw, (Ok tt, f tw).

Declare Scope twitter_scope.
Delimit Scope twitter_scope with twitter.
Notation "x <- m ;; k" := (tbind m (λ x, k))
  (at level 100, m at next level, right associativity) : twitter_scope.
Notation "m ;; k" := (tbind m (λ _, k))
  (at level 100, right associativity) : twitter_scope.
Local Open Scope twitter_scope.

(** Python's [a or b] on optional strings. *)
Definition py_or (a b : option string) : option string :=
  if truthy a then a else b.

Definition has_tweet_id (i : option string) (d : TweetDoc) : bool :=
  bool_decide (tw_tweet_id (tweet_doc d) = i).

(** [tweets_collection.insert_one(tweet)], unique index on [tweet_id]. *)
Definition tweets_insert_one (t : Tweet) : T ObjectId :=
  lift server_call ;;
  tw <- tget ;;
  if existsb (has_tweet_id (tw_tweet_id t)) (tweets_collection tw)
  then traise (DuplicateKeyError "E11000 duplicate key error collection: tweets index: tweet_id_1")
  else
    oid <- lift fresh_oid ;;
    tmodify (set_tweets (λ l, l ++ [{| tweet_doc_id := oid; tweet_doc := t |}])) ;;
    tret oid.

Definition tweets_count_documents : T nat :=
  lift server_call ;;
  tw <- tget ;;
  tret (length (tweets_collection tw)).

Definition twitter_users_count_documents : T nat :=
  lift server_call ;;
  tw <- tget ;;
  tret (length (twitter_users_collection tw)).

Definition empty_twitter_stats : TwitterStats :=
  {| total_tweets := None; total_users := None; total_keywords_searches := None;
     stats_last_updated_at := None; user_tweets := None; keyword_tweets := None |}.

(** [$inc] of [<field>.<k>.tweets], for a name [k] that is one component
    of the path ([plain_key k]): the field and the entry are created when
    absent.  The statements about the counters of the twitter statistics
    carry [plain_key] as a hypothesis. *)
Definition inc_key (k : string) (n : Z) (o : option (gmap string Z))
    : option (gmap string Z) :=
  let m := default ∅ o in
  Some (<[k := (default 0%Z (m !! k) + n)%Z]> m).

(** The update document of the twitter [_update_stats]. *)
Definition tweet_stats_update (tweets : Z) (username keyword : option string)
    (t : Timestamp) (d : TwitterStats) : TwitterStats :=
  {| total_tweets := if (0 <? tweets)%Z then inc_field (total_tweets d) tweets
                     else total_tweets d;
     total_users := total_users d;
     total_keywords_searches :=
       if truthy keyword then inc_field (total_keywords_searches d) 1
       else total_keywords_searches d;
     stats_last_updated_at := Some t;
     user_tweets := if truthy username
                    then inc_key (default "" username) tweets (user_tweets d)
                    else user_tweets d;
     keyword_tweets := if truthy keyword
                       then inc_key (default "" keyword) tweets (keyword_tweets d)
                       else keyword_tweets d |}.

(** [twitter_stats_collection.update_one({}, update_dict, upsert=True)] *)
Definition twitter_stats_upsert (f : TwitterStats → TwitterStats) : T unit :=
  lift server_call ;;
  tmodify (set_twitter_stats (λ o, Some (f (default empty_twitter_stats o)))).

(** [TwitterMongoManager._update_stats] *)
Definition twitter_update_stats (tweets : Z) (username keyword : option string) : T unit :=
  ttry
    (t <- lift now ;;
     twitter_stats_upsert (tweet_stats_update tweets username keyword t))
    (λ _, tret tt).

(** The dictionary [add_tweet] returns. *)
Inductive TweetOutcome :=
| tweet_success (tweet_id_ : string) (total : nat) (media_files_stored : nat)
    (mongodb_id : ObjectId)
| tweet_duplicate (tweet_id_ : string)
| tweet_error (reason : string).

Definition with_id_and_stamp (t : Tweet) (tweet_id_ : option string)
    (stamp_ : option Timestamp) : Tweet :=
  {| tw_tweet_id := tweet_id_; tw_id := tw_id t; tw_has_media := tw_has_media t;
     tw_media_files := tw_media_files t;
     tw_media_files_gridfs := tw_media_files_gridfs t;
     tw_has_media_gridfs := tw_has_media_gridfs t;
     tw_username := tw_username t; tw_original_author := tw_original_author t;
     tw_keyword := tw_keyword t; tw_scraped_at := stamp_;
     tw_payload := tw_payload t |}.

Section TwitterManager.

Variable hashlib_md5 : list Byte.byte → string.
Variable gridfs_md5 : list Byte.byte → option string.
Variable guess_type : string → option string.

(** [TwitterMongoManager.add_tweet] *)
Definition add_tweet (tweet : Tweet) : T TweetOutcome :=
  let tweet_id_ := py_or (tw_tweet_id tweet) (tw_id tweet) in
  if negb (truthy tweet_id_) then tret (tweet_error "missing_id")
  else
    let i := default "" tweet_id_ in
    ttry
      (stamp_ <- match tw_scraped_at tweet with
                 | None => t <- lift now ;; tret (Some t)
                 | Some t => tret (Some t)
                 end ;;
       let tweet1 := with_id_and_stamp tweet tweet_id_ stamp_ in
       tweet2 <- (if tw_has_media tweet1 && negb (bool_decide (tw_media_files tweet1 = []))
                  then lift (store_media_for_tweet hashlib_md5 gridfs_md5 guess_type tweet1)
                  else tret tweet1) ;;
       oid <- tweets_insert_one tweet2 ;;
       twitter_update_stats 1 (py_or (tw_username tweet2) (tw_original_author tweet2))
         (tw_keyword tweet2) ;;
       total <- tweets_count_documents ;;
       let media_count := length (default [] (tw_media_files_gridfs tweet2)) in
       tret (tweet_success i total media_count oid))
      (λ e, match e with
            | DuplicateKeyError _ => tret (tweet_duplicate i)
            | _ => tret (tweet_error (exn_str e))
            end).

(** The dictionary [add_tweets_batch] returns. *)
Record TweetBatchSummary := {
  tb_total : nat;
  tb_added : nat;
  tb_duplicates : nat;
  tb_errors : nat
}.

Definition tweet_tally (results : TweetBatchSummary) (result : TweetOutcome)
    : TweetBatchSummary :=
  match result with
  | tweet_success _ _ _ _ =>
      {| tb_total := tb_total results; tb_added := tb_added results + 1;
         tb_duplicates := tb_duplicates results; tb_errors := tb_errors results |}
  | tweet_duplicate _ =>
      {| tb_total := tb_total results; tb_added := tb_added results;
         tb_duplicates := tb_duplicates results + 1; tb_errors := tb_errors results |}
  | tweet_error _ =>
      {| tb_total := tb_total results; tb_added := tb_added results;
         tb_duplicates := tb_duplicates results; tb_errors := tb_errors results + 1 |}
  end.

Fixpoint add_tweets_loop (tweets : list Tweet) (results : TweetBatchSummary)
    : T TweetBatchSummary :=
  match tweets with
  | [] => tret results
  | tweet :: rest =>
      result <- add_tweet tweet ;;
      add_tweets_loop rest (tweet_tally results result)
  end.

(** [TwitterMongoManager.add_tweets_batch] *)
Definition add_tweets_batch (tweets : list Tweet) : T TweetBatchSummary :=
  add_tweets_loop tweets
    {| tb_total := length tweets; tb_added := 0; tb_duplicates := 0; tb_errors := 0 |}.

End TwitterManager.

(** What [add_user] and [remove_user] return. *)
Inductive UserOutcome :=
| user_success
| user_duplicate
| user_not_found
| user_error (reason : string).

Definition has_user_name (u : string) (d : UserDoc) : bool :=
  bool_decide (user_name d = u).

Definition bump_total_users (n : Z) (d : TwitterStats) : TwitterStats :=
  {| total_tweets := total_tweets d;
     total_users := inc_field (total_users d) n;
     total_keywords_searches := total_keywords_searches d;
     stats_last_updated_at := stats_last_updated_at d;
     user_tweets := user_tweets d; keyword_tweets := keyword_tweets d |}.

(** [twitter_users_collection.insert_one(user_doc)], unique index on
    [username]. *)
Definition twitter_users_insert_one (d : UserDoc) : T unit :=
  lift server_call ;;
  tw <- tget ;;
  if existsb (has_user_name (user_name d)) (twitter_users_collection tw)
  then traise (DuplicateKeyError "E11000 duplicate key error collection: twitter_users index: username_1")
  else tmodify (set_twitter_users (λ l, l ++ [d])).

(** [TwitterMongoManager.add_user]; [display_name or username] takes the
    user name for an absent or empty display name. *)
Definition add_user (username : string) (display_name_ : option string) : T UserOutcome :=
  ttry
    (t <- lift now ;;
     twitter_users_insert_one
       {| user_name := username;
          display_name := if truthy display_name_ then default "" display_name_
                          else username;
          added_at := t; user_total_tweets := 0; last_scraped := None |} ;;
     twitter_stats_upsert (bump_total_users 1) ;;
     tret user_success)
    (λ e, match e with
          | DuplicateKeyError _ => tret user_duplicate
          | _ => tret (user_error (exn_str e))
          end).

(** [get_users] *)
Definition get_users : T (list UserDoc) :=
  lift server_call ;;
  tw <- tget ;;
  tret (twitter_users_collection tw).

(** Removal of the first document a predicate holds of, as [delete_one]
    does. *)
Fixpoint remove_first {A} (p : A → bool) (l : list A) : list A :=
  match l with
  | [] => []
  | x :: rest => if p x then rest else x :: remove_first p rest
  end.

(** [TwitterMongoManager.remove_user]: the update of the statistics has no
    [upsert], and nothing catches an exception. *)
Definition remove_user (username : string) : T UserOutcome :=
  lift server_call ;;
  tw <- tget ;;
  if existsb (has_user_name username) (twitter_users_collection tw) then
    tmodify (set_twitter_users (remove_first (has_user_name username))) ;;
    lift server_call ;;
    tmodify (set_twitter_stats (fmap (bump_total_users (-1)))) ;;
    tret user_success
  else tret user_not_found.

(** [not stats_doc] holds of a missing document and of one that is empty
    once its ['_id'] is projected away. *)
Definition stats_doc_truthy (d : TwitterStats) : bool :=
  negb (bool_decide (total_tweets d = None) && bool_decide (total_users d = None)
        && bool_decide (total_keywords_searches d = None)
        && bool_decide (stats_last_updated_at d = None)
        && bool_decide (user_tweets d = None) && bool_decide (keyword_tweets d = None)).

Definition fallback_stats : T TwitterStats :=
  t <- lift now ;;
  tret {| total_tweets := Some 0%Z; total_users := Some 0%Z;
          total_keywords_searches := None;
          stats_last_updated_at := Some t;
          user_tweets := None; keyword_tweets := None |}.

(** The dictionary [get_stats] returns: the stats document with its two
    totals replaced by the counts of the collections. *)
Definition get_stats : T TwitterStats :=
  found <- (lift server_call ;; tw <- tget ;; tret (twitter_stats_collection tw)) ;;
  stats_doc <- match found with
               | Some d =>
                   if stats_doc_truthy d then tret d else fallback_stats
               | None => fallback_stats
               end ;;
  n_tweets <- tweets_count_documents ;;
  n_users <- twitter_users_count_documents ;;
  tret {| total_tweets := Some (Z.of_nat n_tweets);
          total_users := Some (Z.of_nat n_users);
          total_keywords_searches := total_keywords_searches stats_doc;
          stats_last_updated_at := stats_last_updated_at stats_doc;
          user_tweets := user_tweets stats_doc;
          keyword_tweets := keyword_tweets stats_doc |}.

Local Close Scope twitter_scope.

(** ** Initial states *)

Definition empty_database : Database :=
  {| articles_collection := []; seen_urls_collection := [];
     stats_collection := None; scraper_runs_collection := []; gridfs := [] |}.

Definition zero_uploader_stats : UploaderStats :=
  {| files_found := 0; files_uploaded := 0; files_skipped := 0;
     files_failed := 0; total_size_uploaded := 0; duplicates_detected := 0 |}.

Definition empty_world : World :=
  {| db := empty_database; clock := 0; next_oid := 0; faults := [];
     disk := ∅; uploader_stats := zero_uploader_stats |}.

(** The world a [MongoDBManager] starts in on an empty database: its
    constructor has created the indexes and the stats document. *)
Definition fresh_world : World := (_initialize_stats empty_world).2.

(** * Vocabulary of the statements *)

(** ** Reasoning about operations *)

(** A Hoare triple over the monad: the postcondition sees the result,
    value or exception, and the world the operation leaves. *)
Definition hoare {A} (P : World → Prop) (m : M A) (Q : Result A → World → Prop) : Prop :=
  ∀ w, P w → Q (m w).1 (m w).2.

(** An operation is total when no exception leaves it. *)
Definition total_op {A} (m : M A) : Prop :=
  ∀ w, ∃ a, (m w).1 = Ok a.

(** *** What the dedup protocol may change

    The part of the database the uniqueness arguments look at: the stored
    articles, the keys of the ledger, the runs and the files. *)
Definition seen_keys (w : World) : list string :=
  map seen_url (seen_urls_collection (db w)).

Definition article_keys (w : World) : list (option string) :=
  map (λ d, url (article_doc d)) (articles_collection (db w)).

Definition core (w : World)
    : list ArticleDoc * list string * list Run * list GridOut :=
  (articles_collection (db w), seen_keys w,
   scraper_runs_collection (db w), gridfs (db w)).

(** An operation is stable when it leaves [core] as it found it, whether
    it returns or raises. *)
Definition stable {A} (m : M A) : Prop := ∀ w, core (m w).2 = core w.

(** *** The effect of one [add_article], whatever the server does *)

Definition is_success (r : Result Outcome) : Prop :=
  ∃ u n i, r = Ok (success u n i).

(** [w] differs from [w0] by one article appended for the key of [a],
    which no stored article had, and at most one ledger entry for it. *)
Definition inserted (a : Article) (w0 w : World) : Prop :=
  ∃ doc,
    articles_collection (db w) = (articles_collection (db w0) ++ [doc])%list
    ∧ url (article_doc doc) = url a
    ∧ existsb (has_url (url a)) (articles_collection (db w0)) = false
    ∧ (seen_keys w = seen_keys w0
       ∨ seen_keys w = (seen_keys w0 ++ [default "" (url a)])%list)
    ∧ scraper_runs_collection (db w) = scraper_runs_collection (db w0)
    ∧ gridfs (db w) = gridfs (db w0).

Definition post_add_article (a : Article) (w0 : World)
    (r : Result Outcome) (w : World) : Prop :=
  (core w = core w0 ∧ ¬ is_success r) ∨ inserted a w0 w.

(** *** What [add_article] does when the server answers every call *)

Definition in_seen (u : string) (w : World) : bool :=
  existsb (seen_has_url u) (seen_urls_collection (db w)).

Definition in_articles (k : option string) (w : World) : bool :=
  existsb (has_url k) (articles_collection (db w)).

(** The database after the duplicate path: the ledger entry of [u], if
    there is one, is touched at [t1]; the stats document gets
    [total_duplicates] raised by one and [last_updated] set to [t2]. *)
Definition duplicate_db (u : string) (t1 t2 : Timestamp) (d : Database) : Database :=
  set_stats (λ o, Some (apply_stats_update
                          {| upd_inc := [(f_total_duplicates, 1%Z)];
                             upd_set_last_updated := Some t2 |}
                          (default empty_stats_doc o)))
    (set_seen_urls (update_first (seen_has_url u) (touch t1)) d).

(** The database after the insert path. *)
Definition success_db (a1 : Article) (oid : ObjectId) (t1 t2 t3 : Timestamp)
    (d : Database) : Database :=
  let u := default "" (url a1) in
  let inc := if truthy (website_name a1)
             then [(f_total_articles, 1%Z);
                   (f_source_articles (default "" (website_name a1)), 1%Z)]
             else [(f_total_articles, 1%Z)] in
  set_stats (λ o, Some (apply_stats_update
                          {| upd_inc := inc; upd_set_last_updated := Some t3 |}
                          (default empty_stats_doc o)))
    (set_seen_urls (λ l, (l ++ [{| seen_url := u; first_seen := t1; last_seen := t2;
                                   seen_source := website_name a1;
                                   seen_count := 1 |}])%list)
       (set_articles (λ l, (l ++ [{| article_id := oid; article_doc := a1 |}])%list) d)).

(** ** Sequences of submissions *)

(** The caller's view of a sequence of [add_article] calls: the result of
    every call, in order, and the world after the last one. *)
Fixpoint submit_each (articles : list Article) (w : World)
    : list (Result Outcome) * World :=
  match articles with
  | [] => ([], w)
  | a :: rest =>
      let (r, w1) := add_article a w in
      let (rs, w2) := submit_each rest w1 in
      (r :: rs, w2)
  end.

(** The number of stored articles whose key is [k]. *)
Definition count_key (k : string) (w : World) : nat :=
  length (filter (λ d, url (article_doc d) = Some k) (articles_collection (db w))).

Definition article_A : Article :=
  {| url := Some "A"; website_name := Some "X"; scraped_at := None; payload := [] |}.

(** *** Repeated submissions of one article *)

(** [seen_count] of the ledger entry of [k], when there is one. *)
Definition seen_count_of (k : string) (w : World) : option Z :=
  seen_count <$> find (seen_has_url k) (seen_urls_collection (db w)).

(** *** Scraper runs *)

(** The three counters of the run [rid]. *)
Definition run_counters (rid : ObjectId) (w : World) : option (Z * Z * Z) :=
  (λ r, (articles_scraped r, duplicates_found r, errors r)) <$> find_run rid w.

(** The world of the scenario: a run is started, five articles are
    recorded, and the run is ended as completed. *)
Definition closed_run_world : World :=
  let w1 := (start_scraper_run (Some "X") fresh_world).2 in
  let w2 := (update_scraper_run 0 5 0 0 None w1).2 in
  (end_scraper_run 0 "completed" w2).2.

(** *** The statistics of the duplicate path *)

Definition stats_of (w : World) : StatsDoc :=
  default empty_stats_doc (stats_collection (db w)).

Definition source_counters (s : string) (w : World) : option SourceCounters :=
  sources (stats_of w) ≫= (λ m, m !! s).

(** *** Articles without a key *)

Definition article_without_url : Article :=
  {| url := None; website_name := Some "X"; scraped_at := None; payload := [] |}.

(** *** Batches *)

(** The ['status'] of a returned dictionary. *)
Definition status_of (o : Outcome) : string :=
  match o with
  | success _ _ _ => "success"
  | duplicate _ => "duplicate"
  | error _ => "error"
  end.

Definition has_status (s : string) (r : Result Outcome) : bool :=
  match r with
  | Ok o => bool_decide (status_of o = s)
  | Raise _ => false
  end.

(** The number of calls of a trace that returned with status [s]. *)
Definition count_status (s : string) (trace : list (Result Outcome)) : nat :=
  length (List.filter (has_status s) trace).

(** The urls of the calls of a trace that returned a duplicate, in order. *)
Definition duplicates_of (trace : list (Result Outcome)) : list string :=
  omap (λ r, match r with Ok (duplicate u) => Some u | _ => None end) trace.

Definition returned (r : Result Outcome) : Prop := ∃ o, r = Ok o.

(** The summary the loop builds from [results] over a trace of calls. *)
Definition tally_all (trace : list (Result Outcome)) (results : BatchSummary)
    : BatchSummary :=
  fold_left (λ res r, match r with Ok o => tally res o | Raise _ => res end)
            trace results.

(** *** The snapshot of the statistics *)

(** A read-only operation leaves the database as it found it, whether it
    returns or raises. *)
Definition read_only {A} (m : M A) : Prop := ∀ w, db (m w).2 = db w.

(** A store with one article whose stats document has been lost. *)
Definition drifted_world : World :=
  set_db (set_stats (λ _, None)) (add_article article_A fresh_world).2.

(** ** Calls of the media store *)

(** A call of the blob store's put operation: either of the two upload
    functions, the second on an uploader that is not in dry-run mode. *)
Inductive PutCall :=
| ViaManager (file_path tweet_id_ media_type_ : string)
| ViaUploader (media_info : MediaInfo).

Definition put_path (call : PutCall) : string :=
  match call with
  | ViaManager file_path _ _ => file_path
  | ViaUploader media_info => mi_file_path media_info
  end.

Definition run_put (hashlib_md5 : list Byte.byte → string)
    (gridfs_md5 : list Byte.byte → option string)
    (guess_type : string → option string) (call : PutCall) : M (option BlobRef) :=
  match call with
  | ViaManager file_path tweet_id_ media_type_ =>
      upload_media_file hashlib_md5 gridfs_md5 guess_type file_path tweet_id_ media_type_
  | ViaUploader media_info =>
      upload_file_to_gridfs hashlib_md5 gridfs_md5 guess_type false media_info
  end.

(** What a put of bytes of digest [h] does in [w] when the server
    answers: with a file of that digest stored, it returns the id of the
    first one and leaves the database alone; with none, it appends one
    file of that digest and returns its id. *)
Definition put_spec (h : string) (m : M (option BlobRef)) (w : World) : Prop :=
  faults (m w).2 = [] ∧ disk (m w).2 = disk w ∧
  match find (has_md5 h) (gridfs (db w)) with
  | Some f => (m w).1 = Ok (Some (GridId (file_id f))) ∧ db (m w).2 = db w
  | None =>
      ∃ new, (m w).1 = Ok (Some (GridId (file_id new)))
             ∧ md5 new = Some h
             ∧ gridfs (db (m w).2) = gridfs (db w) ++ [new]
  end.

(** A driver that writes no [md5] field in the file documents, as the
    GridFS driver does from PyMongo 4.0 on. *)
Definition no_md5_field : list Byte.byte → option string := λ _, None.

(** The scenario of two files of the same three bytes under two names. *)
Definition abc : list Byte.byte := [Byte.x61; Byte.x62; Byte.x63].

Definition two_files_world : World :=
  {| db := empty_database; clock := 0; next_oid := 0; faults := [];
     disk := <["media/f1.jpg" := abc]> (<["media/f2.jpg" := abc]> ∅);
     uploader_stats := zero_uploader_stats |}.

(** ** Invariants of the database *)

(** An operation keeps the property [I] of the database, whether it
    returns or raises. *)
Definition keeps (I : Database → Prop) {A} (m : M A) : Prop :=
  ∀ w, I (db w) → I (db (m w).2).

(** The ledger is well formed: no two entries share a url and every
    entry has been seen at least once. *)
Definition ledger_ok (d : Database) : Prop :=
  NoDup (seen_url <$> seen_urls_collection d)
  ∧ Forall (λ e, (1 ≤ seen_count e)%Z) (seen_urls_collection d).


Definition register_duplicates (w : World) : option Z := total_duplicates (stats_of w).

(** The ids of the runs are below the next [ObjectId], as the ids the
    driver generated are. *)
Definition run_ids_fresh (w : World) : Prop :=
  Forall (λ r, run_id r < next_oid w) (scraper_runs_collection (db w)).

(** The three counters of a run. *)
Definition counters_of (r : Run) : Z * Z * Z :=
  (articles_scraped r, duplicates_found r, errors r).

Definition counters_le (c1 c2 : Z * Z * Z) : Prop :=
  (c1.1.1 ≤ c2.1.1 ∧ c1.1.2 ≤ c2.1.2 ∧ c1.2 ≤ c2.2)%Z.

(** The article [add_article] stores for [a] in [w]: [a] itself when it
    carries a [scraped_at], and [a] stamped with the clock otherwise. *)
Definition stored_article (a : Article) (w : World) : Article :=
  match scraped_at a with
  | Some _ => a
  | None => with_scraped_at a (clock w)
  end.

(** The world after the insert path of [add_article a], when the server
    answers every call. *)
Definition success_world (a : Article) (w : World) : World :=
  let c := match scraped_at a with
           | Some _ => clock w
           | None => S (clock w)
           end in
  {| db := success_db (stored_article a w) (next_oid w) c (S c) (S (S c)) (db w);
     clock := S (S (S c)); next_oid := S (next_oid w); faults := [];
     disk := disk w; uploader_stats := uploader_stats w |}.

(** The run [start_scraper_run source] creates in [w], and the world it
    leaves when the server answers. *)
Definition new_run (source : option string) (w : World) : Run :=
  {| run_id := next_oid w; started_at := clock w; ended_at := None;
     status := "running"; run_source := source;
     articles_scraped := 0; duplicates_found := 0; errors := 0 |}.

Definition started_world (source : option string) (w : World) : World :=
  {| db := set_stats (λ o, Some (apply_stats_update
                                   {| upd_inc := [(f_total_scraper_runs, 1%Z)];
                                      upd_set_last_updated := None |}
                                   (default empty_stats_doc o)))
             (set_scraper_runs (λ l, l ++ [new_run source w]) (db w));
     clock := S (clock w); next_oid := S (next_oid w); faults := [];
     disk := disk w; uploader_stats := uploader_stats w |}.

Definition keep_newest (best : option ArticleDoc) (d : ArticleDoc) : option ArticleDoc :=
  match best with
  | None => Some d
  | Some b => if newer d b then Some d else Some b
  end.

(** The three ways a call of the uploader ends. *)
Definition upload_failed (res : Result (option BlobRef) * World) (w : World) : Prop :=
  res.1 = Ok None
  ∧ uploader_stats res.2 = bump_failed (uploader_stats w)
  ∧ db res.2 = db w.

Definition upload_skipped (res : Result (option BlobRef) * World) (w : World) : Prop :=
  ∃ f, f ∈ gridfs (db w)
       ∧ res.1 = Ok (Some (GridId (file_id f)))
       ∧ uploader_stats res.2 = bump_skipped (uploader_stats w)
       ∧ db res.2 = db w.

Definition upload_stored (media_info : MediaInfo)
    (res : Result (option BlobRef) * World) (w : World) : Prop :=
  ∃ f, res.1 = Ok (Some (GridId (file_id f)))
       ∧ uploader_stats res.2 = bump_uploaded (mi_size media_info) (uploader_stats w)
       ∧ db res.2 = set_gridfs (λ l, l ++ [f]) (db w)
       ∧ disk w !! mi_file_path media_info = Some (file_data f).

(** The entries of ['media_files'] that name a file. *)
Definition named_media (media_files : list MediaRef) : list MediaRef :=
  List.filter (λ m, truthy (mr_file m)) media_files.

(** The tweet apart from the two keys [store_media_for_tweet] writes. *)
Definition tweet_core (t : Tweet) :=
  (tw_tweet_id t, tw_id t, tw_has_media t, tw_media_files t, tw_username t,
   tw_original_author t, tw_keyword t, tw_scraped_at t, tw_payload t).

(** A tweet with two media files on disk and one entry without a file. *)
Definition tweet_with_media : Tweet :=
  {| tw_tweet_id := Some "100"; tw_id := None; tw_has_media := true;
     tw_media_files :=
       [{| mr_file := Some "media/f1.jpg"; mr_type := Some "photo"; mr_size := Some 3%Z |};
        {| mr_file := None; mr_type := None; mr_size := None |};
        {| mr_file := Some "media/f2.jpg"; mr_type := None; mr_size := None |}];
     tw_media_files_gridfs := None; tw_has_media_gridfs := None;
     tw_username := Some "alice"; tw_original_author := None;
     tw_keyword := Some "spine"; tw_scraped_at := None; tw_payload := [] |}.

(** ** Vocabulary of the twitter manager *)

(** The ['tweet_id'] of the stored tweets, in order of insertion. *)
Definition tweet_ids (tw : TwitterWorld) : list (option string) :=
  (λ d, tw_tweet_id (tweet_doc d)) <$> tweets_collection tw.

(** The names of the tracked users. *)
Definition user_names (tw : TwitterWorld) : list string :=
  user_name <$> twitter_users_collection tw.

(** The counters of the twitter_stats document, 0 when absent. *)
Definition stats_or_empty (tw : TwitterWorld) : TwitterStats :=
  default empty_twitter_stats (twitter_stats_collection tw).

Definition counter_of (o : option (gmap string Z)) (k : string) : Z :=
  default 0%Z (default ∅ o !! k).

Definition total_tweets_of (tw : TwitterWorld) : Z :=
  default 0%Z (total_tweets (stats_or_empty tw)).

Definition total_users_of (tw : TwitterWorld) : Z :=
  default 0%Z (total_users (stats_or_empty tw)).

Definition keyword_searches_of (tw : TwitterWorld) : Z :=
  default 0%Z (total_keywords_searches (stats_or_empty tw)).

Definition tweets_of_user (tw : TwitterWorld) (u : string) : Z :=
  counter_of (user_tweets (stats_or_empty tw)) u.

Definition tweets_of_keyword (tw : TwitterWorld) (k : string) : Z :=
  counter_of (keyword_tweets (stats_or_empty tw)) k.

(** The id [add_tweet] files a tweet under, and the user it counts it for. *)
Definition filed_id (t : Tweet) : option string := py_or (tw_tweet_id t) (tw_id t).

Definition filed_user (t : Tweet) : option string :=
  py_or (tw_username t) (tw_original_author t).

Definition is_tweet_success (r : TweetOutcome) : bool :=
  match r with tweet_success _ _ _ _ => true | _ => false end.

Definition is_tweet_duplicate (r : TweetOutcome) : bool :=
  match r with tweet_duplicate _ => true | _ => false end.

(** A twitter manager with no tweet, no user and no stats document, over
    a disk with two media files. *)
Definition twitter_start : TwitterWorld :=
  {| tweets_collection := []; twitter_users_collection := [];
     twitter_stats_collection := None; base := two_files_world |}.

(** What the unique index and [add_tweet] maintain: no ['tweet_id'] is
    stored twice, and none is absent or empty. *)
Definition tweets_ok (tw : TwitterWorld) : Prop :=
  NoDup (tweet_ids tw) ∧ Forall (λ i, truthy i = true) (tweet_ids tw).

(** The same manager with one tweet stored. *)
Definition stored_tweet_world : TwitterWorld :=
  {| tweets_collection := [{| tweet_doc_id := 0; tweet_doc := tweet_with_media |}];
     twitter_users_collection := []; twitter_stats_collection := None;
     base := two_files_world |}.

(** * Lemmas and theorems *)

(** ** Rules of the triples *)

Lemma hoare_ret {A} (P : World → Prop) (a : A) (Q : Result A → World → Prop) :
  (∀ w, P w → Q (Ok a) w) → hoare P (ret a) Q.
Proof. intros H w Hw. simpl. auto. Qed.

Lemma hoare_bind {A B} (P : World → Prop) (m : M A) (k : A → M B)
    (R : Result A → World → Prop) (Q : Result B → World → Prop) :
  hoare P m R →
  (∀ a, hoare (R (Ok a)) (k a) Q) →
  (∀ e w, R (Raise e) w → Q (Raise e) w) →
  hoare P (bind m k) Q.
Proof.
  intros Hm Hk He w Hw. unfold bind. specialize (Hm w Hw).
  destruct (m w) as [[a|e] w1]; simpl in *.
  - apply (Hk a w1 Hm).
  - apply He, Hm.
Qed.

Lemma hoare_try {A} (P : World → Prop) (m : M A) (h : exn → M A)
    (R Q : Result A → World → Prop) :
  hoare P m R →
  (∀ a w, R (Ok a) w → Q (Ok a) w) →
  (∀ e, hoare (R (Raise e)) (h e) Q) →
  hoare P (try_catch m h) Q.
Proof.
  intros Hm Hok Hh w Hw. unfold try_catch. specialize (Hm w Hw).
  destruct (m w) as [[a|e] w1]; simpl in *.
  - apply Hok, Hm.
  - apply (Hh e w1 Hm).
Qed.

Lemma hoare_conseq {A} (P P' : World → Prop) (m : M A) (Q Q' : Result A → World → Prop) :
  hoare P' m Q' → (∀ w, P w → P' w) → (∀ r w, Q' r w → Q r w) → hoare P m Q.
Proof. intros H HP HQ w Hw. apply HQ, H, HP, Hw. Qed.

Lemma total_ret {A} (a : A) : total_op (ret a).
Proof. intros w. by exists a. Qed.

Lemma total_bind {A B} (m : M A) (k : A → M B) :
  total_op m → (∀ a, total_op (k a)) → total_op (bind m k).
Proof.
  intros Hm Hk w. unfold bind. destruct (Hm w) as [a Ha].
  destruct (m w) as [r w1]; simpl in Ha; subst r. apply Hk.
Qed.

Lemma total_try {A} (m : M A) (h : exn → M A) :
  (∀ e, total_op (h e)) → total_op (try_catch m h).
Proof.
  intros Hh w. unfold try_catch.
  destruct (m w) as [[a|e] w1]; [by exists a | apply Hh].
Qed.

Lemma stable_ret {A} (a : A) : stable (ret a).
Proof. by intros w. Qed.

Lemma stable_raise {A} (e : exn) : stable (@raise A e).
Proof. by intros w. Qed.

Lemma stable_bind {A B} (m : M A) (k : A → M B) :
  stable m → (∀ a, stable (k a)) → stable (bind m k).
Proof.
  intros Hm Hk w. unfold bind. specialize (Hm w).
  destruct (m w) as [[a|e] w1]; simpl in *; [|done].
  by rewrite Hk.
Qed.

Lemma stable_try {A} (m : M A) (h : exn → M A) :
  stable m → (∀ e, stable (h e)) → stable (try_catch m h).
Proof.
  intros Hm Hh w. unfold try_catch. specialize (Hm w).
  destruct (m w) as [[a|e] w1]; simpl in *; [done|].
  by rewrite Hh.
Qed.

Lemma stable_get : stable get.
Proof. by intros w. Qed.

Lemma stable_now : stable now.
Proof. by intros w. Qed.

Lemma stable_fresh_oid : stable fresh_oid.
Proof. by intros w. Qed.

Lemma stable_server_call : stable server_call.
Proof. intros w. unfold server_call. by destruct (faults w) as [|[?|] ?]. Qed.

Lemma update_first_keys (p : SeenEntry → bool) (f : SeenEntry → SeenEntry)
    (l : list SeenEntry) :
  (∀ e, seen_url (f e) = seen_url e) →
  map seen_url (update_first p f l) = map seen_url l.
Proof.
  intros Hf. induction l as [|x l IH]; simpl; [done|].
  destruct (p x); simpl; by rewrite ?Hf, ?IH.
Qed.

Lemma stable_seen_urls_update_one u f :
  (∀ e, seen_url (f e) = seen_url e) → stable (seen_urls_update_one u f).
Proof.
  intros Hf. unfold seen_urls_update_one. apply stable_bind; [apply stable_server_call|].
  intros _ w. unfold core, seen_keys. simpl. by rewrite update_first_keys.
Qed.

Lemma stable_stats_update_one_upsert u : stable (stats_update_one_upsert u).
Proof.
  unfold stats_update_one_upsert. apply stable_bind; [apply stable_server_call|].
  by intros _ w.
Qed.

Lemma stable_seen_count_documents_url u : stable (seen_count_documents_url u).
Proof.
  unfold seen_count_documents_url.
  apply stable_bind; [apply stable_server_call|]. intros _.
  apply stable_bind; [apply stable_get|]. intros w. apply stable_ret.
Qed.

Lemma stable_articles_count_documents : stable articles_count_documents.
Proof.
  unfold articles_count_documents.
  apply stable_bind; [apply stable_server_call|]. intros _.
  apply stable_bind; [apply stable_get|]. intros w. apply stable_ret.
Qed.

Lemma stable__update_stats added dups source : stable (_update_stats added dups source).
Proof.
  unfold _update_stats. apply stable_try; [|intros; apply stable_ret].
  apply stable_bind; [apply stable_now|]. intros t.
  apply stable_stats_update_one_upsert.
Qed.

Lemma stable__track_duplicate u source : stable (_track_duplicate u source).
Proof.
  unfold _track_duplicate. apply stable_try; [|intros; apply stable_ret].
  apply stable_bind; [apply stable_now|]. intros t.
  apply stable_bind; [by apply stable_seen_urls_update_one|]. intros _.
  apply stable__update_stats.
Qed.

Lemma total__update_stats added dups source : total_op (_update_stats added dups source).
Proof. apply total_try. intros e. apply total_ret. Qed.

Lemma total__track_duplicate u source : total_op (_track_duplicate u source).
Proof. apply total_try. intros e. apply total_ret. Qed.

Lemma total__add_to_seen_urls u source : total_op (_add_to_seen_urls u source).
Proof. apply total_try. intros e. apply total_ret. Qed.

(** No exception leaves [add_article]. *)
Lemma total_add_article article : total_op (add_article article).
Proof.
  unfold add_article. destruct (negb (truthy (url article))); [apply total_ret|].
  apply total_try. intros [msg|msg|path]; try apply total_ret.
  apply total_bind; [apply total__track_duplicate | intros; apply total_ret].
Qed.

Lemma inserted_core a w0 w w' : core w' = core w → inserted a w0 w → inserted a w0 w'.
Proof.
  unfold core. intros Hc (doc & H1 & H2 & H3 & H4 & H5 & H6).
  injection Hc as Ha Hs Hr Hg. exists doc.
  rewrite Ha, Hs, Hr, Hg. auto 10.
Qed.

Lemma articles_insert_one_effect a w :
  match (articles_insert_one a w).1 with
  | Ok oid =>
      existsb (has_url (url a)) (articles_collection (db w)) = false
      ∧ articles_collection (db (articles_insert_one a w).2)
        = (articles_collection (db w) ++ [{| article_id := oid; article_doc := a |}])%list
      ∧ seen_keys (articles_insert_one a w).2 = seen_keys w
      ∧ scraper_runs_collection (db (articles_insert_one a w).2)
        = scraper_runs_collection (db w)
      ∧ gridfs (db (articles_insert_one a w).2) = gridfs (db w)
  | Raise _ => core (articles_insert_one a w).2 = core w
  end.
Proof.
  unfold articles_insert_one, bind, server_call, get, fresh_oid, modify, raise, ret.
  destruct (faults w) as [|[msg|] rest]; simpl;
    try (destruct (existsb _ _) eqn:E; simpl; auto).
  reflexivity.
Qed.

Lemma _add_to_seen_urls_effect u source w :
  let w' := (_add_to_seen_urls u source w).2 in
  core w' = core w
  ∨ (articles_collection (db w') = articles_collection (db w)
     ∧ seen_keys w' = (seen_keys w ++ [u])%list
     ∧ scraper_runs_collection (db w') = scraper_runs_collection (db w)
     ∧ gridfs (db w') = gridfs (db w)).
Proof.
  unfold _add_to_seen_urls, try_catch, seen_urls_insert_one, bind, now,
    server_call, get, modify, raise, ret, seen_keys. simpl.
  destruct (faults w) as [|[msg|] rest]; simpl;
    try (destruct (existsb _ _) eqn:E; simpl); auto;
    right; rewrite map_app; auto.
Qed.

Lemma hoare_stable_same {A} (m : M A) w0 :
  stable m → hoare (λ w, core w = core w0) m (λ _ w, core w = core w0).
Proof. intros Hm w Hw. by rewrite Hm. Qed.

Lemma hoare_stable_inserted {A} (m : M A) a w0 :
  stable m → hoare (inserted a w0) m (λ _ w, inserted a w0 w).
Proof. intros Hm w Hw. eapply inserted_core; [apply Hm | done]. Qed.

Lemma not_success_duplicate u : ¬ is_success (Ok (duplicate u)).
Proof. intros (? & ? & ? & [=]). Qed.

Lemma not_success_error reason : ¬ is_success (Ok (error reason)).
Proof. intros (? & ? & ? & [=]). Qed.

Lemma not_success_raise e : ¬ is_success (Raise e).
Proof. intros (? & ? & ? & [=]). Qed.

Create HintDb store.
#[local] Hint Resolve not_success_duplicate not_success_error not_success_raise : store.

Lemma add_article_effect a w0 :
  post_add_article a w0 (add_article a w0).1 (add_article a w0).2.
Proof.
  assert (H : hoare (λ w, core w = core w0) (add_article a) (post_add_article a w0));
    [|by apply H].
  unfold add_article.
  destruct (negb (truthy (url a))).
  { apply hoare_ret. intros w Hw. left. eauto with store. }
  set (u := default "" (url a)).
  apply hoare_try with (R := post_add_article a w0).
  - apply hoare_bind with (R := λ _ w, core w = core w0).
    + apply hoare_stable_same, stable_seen_count_documents_url.
    + intros n. destruct (0 <? n)%nat.
      * apply hoare_bind with (R := λ _ w, core w = core w0).
        -- apply hoare_stable_same, stable__track_duplicate.
        -- intros _. apply hoare_ret. intros w Hw. left. eauto with store.
        -- intros e w Hw. left. eauto with store.
      * apply hoare_bind
          with (R := λ r w, core w = core w0 ∧
                            match r with
                            | Ok a1 => url a1 = url a
                            | Raise _ => True
                            end).
        -- destruct (scraped_at a).
           ++ apply hoare_ret. auto.
           ++ intros w Hw. simpl. auto.
        -- intros a1.
           apply hoare_bind
             with (R := λ r w, match r with
                               | Ok _ => inserted a w0 w ∧ seen_keys w = seen_keys w0
                               | Raise _ => core w = core w0
                               end).
           ++ intros w [Hw Ha1]. pose proof (articles_insert_one_effect a1 w) as He.
              destruct ((articles_insert_one a1 w).1) as [oid|e].
              ** destruct He as (E1 & E2 & E3 & E4 & E5).
                 unfold core in Hw. injection Hw as Wa Ws Wr Wg.
                 split; [|congruence].
                 eexists. rewrite E2, E3, E4, E5, Wa, Ws, Wr, Wg.
                 rewrite <- Ha1, <- Wa. simpl. auto 10.
              ** congruence.
           ++ intros oid.
              apply hoare_bind with (R := λ _ w, inserted a w0 w).
              ** intros w [(doc & I1 & I2 & I3 & _ & I5 & I6) Hs].
                 destruct (_add_to_seen_urls_effect u (website_name a1) w)
                   as [Hc|(E1 & E2 & E3 & E4)].
                 --- eapply inserted_core; [exact Hc|].
                     exists doc. auto 10.
                 --- exists doc. rewrite E1, E2, E3, E4, Hs. auto 10.
              ** intros _.
                 apply hoare_bind with (R := λ _ w, inserted a w0 w).
                 --- apply hoare_stable_inserted, stable__update_stats.
                 --- intros _.
                     apply hoare_bind with (R := λ _ w, inserted a w0 w).
                     +++ apply hoare_stable_inserted, stable_articles_count_documents.
                     +++ intros total_. apply hoare_ret. intros w Hw. by right.
                     +++ intros e w Hw. by right.
                 --- intros e w Hw. by right.
              ** intros e w Hw. by right.
           ++ intros e w Hw. left. eauto with store.
        -- intros e w [Hw _]. left. eauto with store.
    + intros e w Hw. left. eauto with store.
  - auto.
  - intros e w Hw. destruct Hw as [[Hw _]|Hw].
    + assert (Hs : hoare (λ w, core w = core w0)
                     (_track_duplicate u (website_name a) ;; ret (duplicate u))
                     (post_add_article a w0)).
      { apply hoare_bind with (R := λ _ w, core w = core w0).
        - apply hoare_stable_same, stable__track_duplicate.
        - intros _. apply hoare_ret. intros w1 Hw1. left. eauto with store.
        - intros e1 w1 Hw1. left. eauto with store. }
      destruct e; simpl; try solve [left; eauto with store].
      apply (Hs w Hw).
    + assert (Hs : stable (_track_duplicate u (website_name a) ;; ret (duplicate u))).
      { apply stable_bind; [apply stable__track_duplicate | intros; apply stable_ret]. }
      right. destruct e; simpl; try done.
      eapply inserted_core; [apply Hs | done].
Qed.

Lemma add_article_falsy_url a w :
  truthy (url a) = false → add_article a w = (Ok (error "missing_url"), w).
Proof. intros H. unfold add_article. by rewrite H. Qed.

Lemma add_article_duplicate a w :
  truthy (url a) = true → faults w = [] →
  in_seen (default "" (url a)) w = true ∨ in_articles (url a) w = true →
  ∃ t1 t2 w',
    add_article a w = (Ok (duplicate (default "" (url a))), w')
    ∧ faults w' = []
    ∧ db w' = duplicate_db (default "" (url a)) t1 t2 (db w).
Proof.
  intros Ht Hf Hin. destruct w as [d c n f dk us]. simpl in Hf. subst f.
  unfold in_seen, in_articles in Hin. simpl in Hin.
  unfold add_article. rewrite Ht. simpl.
  unfold try_catch, bind, seen_count_documents_url, server_call, get, ret. simpl.
  destruct (existsb (seen_has_url (default "" (url a))) (seen_urls_collection d)) eqn:Es;
    simpl.
  - do 2 eexists. eexists. split; [reflexivity|]. split; reflexivity.
  - destruct Hin as [[=]|Ha].
    destruct (scraped_at a) eqn:Esc; simpl.
    + unfold articles_insert_one, bind, server_call, get, raise. simpl.
      rewrite Ha. simpl.
      do 2 eexists. eexists. split; [reflexivity|]. split; reflexivity.
    + unfold articles_insert_one, bind, server_call, get, raise. simpl.
      rewrite Ha. simpl.
      do 2 eexists. eexists. split; [reflexivity|]. split; reflexivity.
Qed.

Lemma add_article_success a w :
  truthy (url a) = true → faults w = [] →
  in_seen (default "" (url a)) w = false → in_articles (url a) w = false →
  ∃ t0 t1 t2 t3 w',
    let a1 := match scraped_at a with
              | Some _ => a
              | None => with_scraped_at a t0
              end in
    add_article a w
    = (Ok (success (default "" (url a))
             (S (length (articles_collection (db w)))) (next_oid w)), w')
    ∧ faults w' = []
    ∧ db w' = success_db a1 (next_oid w) t1 t2 t3 (db w).
Proof.
  intros Ht Hf Hs Ha. destruct w as [d c n f dk us]. simpl in Hf. subst f.
  unfold in_seen, in_articles in Hs, Ha. simpl in Hs, Ha.
  assert (Hlen : ∀ x : ArticleDoc,
            length (articles_collection d ++ [x]) = S (length (articles_collection d))).
  { intros x. rewrite length_app. simpl. lia. }
  destruct (add_article a _) as [r w'] eqn:E.
  unfold add_article in E. rewrite Ht in E. simpl in E.
  destruct (scraped_at a) eqn:Esc;
    repeat first
      [ rewrite Hs in E | rewrite Ha in E | rewrite Hlen in E
      | progress simpl in E
      | progress unfold try_catch, bind, seen_count_documents_url, server_call, get,
          ret, raise, articles_insert_one, _add_to_seen_urls,
          seen_urls_insert_one in E ];
    injection E as <- <-;
    exists c; do 3 eexists; eexists; cbv zeta;
    (split; [reflexivity|]); (split; [reflexivity|]);
    unfold success_db; simpl; destruct (truthy (website_name a)); reflexivity.
Qed.

Lemma count_key_absent k (l : list ArticleDoc) :
  existsb (has_url (Some k)) l = false →
  length (filter (λ d, url (article_doc d) = Some k) l) = 0.
Proof.
  induction l as [|d l IH]; simpl; [done|].
  intros H. apply orb_false_elim in H as [Hd Hl].
  unfold has_url in Hd. apply bool_decide_eq_false in Hd.
  rewrite filter_cons. destruct (decide _); [done|]. auto.
Qed.

Lemma count_key_present k (l : list ArticleDoc) :
  0 < length (filter (λ d, url (article_doc d) = Some k) l) →
  existsb (has_url (Some k)) l = true.
Proof.
  induction l as [|d l IH]; simpl; [lia|].
  rewrite filter_cons. unfold has_url at 1.
  destruct (decide _) as [E|E]; intros H.
  - by rewrite bool_decide_eq_true_2.
  - rewrite IH by done. apply orb_true_r.
Qed.

Lemma count_key_snoc k (l : list ArticleDoc) (d : ArticleDoc) :
  length (filter (λ d, url (article_doc d) = Some k) (l ++ [d]))
  = length (filter (λ d, url (article_doc d) = Some k) l)
    + (if decide (url (article_doc d) = Some k) then 1 else 0).
Proof.
  rewrite filter_app, length_app, filter_cons, filter_nil.
  by destruct (decide _).
Qed.

Lemma core_articles w w' :
  core w' = core w → articles_collection (db w') = articles_collection (db w).
Proof. unfold core. by intros [=]. Qed.

Lemma core_seen_keys w w' : core w' = core w → seen_keys w' = seen_keys w.
Proof. unfold core. by intros [=]. Qed.

(** One call keeps the number of articles of a key below two. *)
Lemma add_article_count_key k a w :
  count_key k w ≤ 1 → count_key k (add_article a w).2 ≤ 1.
Proof.
  intros H. destruct (add_article_effect a w) as [[Hc _]|(doc & I1 & I2 & I3 & _)];
    unfold count_key in *.
  - by rewrite (core_articles _ _ Hc).
  - rewrite I1, count_key_snoc. destruct (decide _) as [E|E]; [|lia].
    rewrite I2 in E. rewrite E in I3. rewrite (count_key_absent _ _ I3). lia.
Qed.

Lemma submit_each_count_key k articles w :
  count_key k w ≤ 1 → count_key k (submit_each articles w).2 ≤ 1.
Proof.
  revert w. induction articles as [|a rest IH]; intros w H; simpl; [done|].
  pose proof (add_article_count_key k a w H) as H1.
  destruct (add_article a w) as [r w1]. simpl in H1.
  specialize (IH w1 H1). destruct (submit_each rest w1) as [rs w2]. done.
Qed.

Lemma truthy_Some k : k ≠ "" → truthy (Some k) = true.
Proof. by destruct k. Qed.

Lemma truthy_inv o : truthy o = true → ∃ k, o = Some k ∧ k ≠ "".
Proof. destruct o as [[|c s]|]; simpl; try done. intros _. by eexists. Qed.

(** A key that is stored makes every later call with it leave the
    articles alone and report no success. *)
Lemma add_article_stored k a w :
  url a = Some k → 0 < count_key k w →
  articles_collection (db (add_article a w).2) = articles_collection (db w)
  ∧ ¬ is_success (add_article a w).1.
Proof.
  intros Hu Hk. apply count_key_present in Hk.
  destruct (add_article_effect a w) as [[Hc Hn]|(doc & I1 & I2 & I3 & _)].
  - split; [by apply core_articles | done].
  - rewrite Hu in I3. congruence.
Qed.

(** ** The claims *)

(** C1. For every key [k], every world in which at most one article has
    key [k] and every sequence of [add_article] calls, whatever the server
    does: at every point of the sequence at most one article with key [k]
    is stored.  Once an article with key [k] is stored, a call carrying
    [k] leaves the articles as they are and never reports success, and it
    returns the duplicate outcome when the server answers its calls.  A
    call that reports success found no article with its key and leaves
    exactly one. *)
Theorem add_article_unique_key (k : string) (w : World) :
  count_key k w ≤ 1 →
  (∀ articles n, count_key k (submit_each (take n articles) w).2 ≤ 1)
  ∧ (∀ a, url a = Some k → k ≠ "" → count_key k w = 1 →
       articles_collection (db (add_article a w).2) = articles_collection (db w)
       ∧ ¬ is_success (add_article a w).1
       ∧ (faults w = [] → (add_article a w).1 = Ok (duplicate k)))
  ∧ (∀ a, url a = Some k → is_success (add_article a w).1 →
       count_key k w = 0 ∧ count_key k (add_article a w).2 = 1).
Proof.
  intros H. split; [|split].
  - intros articles n. by apply submit_each_count_key.
  - intros a Hu Hne H1.
    destruct (add_article_stored k a w Hu) as [Ha Hn]; [lia|].
    split; [done|]. split; [done|]. intros Hf.
    destruct (add_article_duplicate a w) as (t1 & t2 & w' & E & _).
    + rewrite Hu. by apply truthy_Some.
    + done.
    + right. rewrite Hu. apply count_key_present. unfold count_key in H1. lia.
    + rewrite E, Hu. done.
  - intros a Hu Hs.
    destruct (add_article_effect a w) as [[_ Hn]|(doc & I1 & I2 & I3 & _)]; [done|].
    rewrite Hu in I2, I3. unfold count_key.
    rewrite I1, count_key_snoc, (count_key_absent _ _ I3).
    by rewrite decide_True.
Qed.

Lemma add_article_unique_key_witness :
  let w1 := (add_article article_A fresh_world).2 in
  count_key "A" w1 ≤ 1 ∧ (add_article article_A w1).1 = Ok (duplicate "A").
Proof.
  intros w1.
  assert (H : count_key "A" w1 ≤ 1) by (vm_compute; lia).
  split; [exact H|].
  destruct (add_article_unique_key "A" w1 H) as (_ & H2 & _).
  apply H2; [reflexivity | discriminate | reflexivity | reflexivity].
Defined.

Lemma find_update_first {A} (p : A → bool) (f : A → A) (l : list A) :
  (∀ x, p (f x) = p x) → find p (update_first p f l) = f <$> find p l.
Proof.
  intros Hp. induction l as [|x l IH]; simpl; [done|].
  destruct (p x) eqn:E; simpl.
  - by rewrite Hp, E.
  - by rewrite E.
Qed.

Lemma find_snoc_absent {A} (p : A → bool) (l : list A) (x : A) :
  existsb p l = false → find p (l ++ [x]) = if p x then Some x else None.
Proof.
  induction l as [|y l IH]; simpl; [done|].
  intros H. apply orb_false_elim in H as [Hy Hl]. rewrite Hy. auto.
Qed.

Lemma find_existsb {A} (p : A → bool) (l : list A) :
  existsb p l = bool_decide (is_Some (find p l)).
Proof.
  induction l as [|y l IH]; simpl; [done|].
  by destruct (p y).
Qed.

Lemma seen_count_of_in_seen k w c : seen_count_of k w = Some c → in_seen k w = true.
Proof.
  unfold seen_count_of, in_seen. rewrite find_existsb.
  destruct (find _ _); [intros _|done].
  rewrite bool_decide_eq_true. by eexists.
Qed.

Lemma seen_has_url_touch k t e : seen_has_url k (touch t e) = seen_has_url k e.
Proof. done. Qed.

(** Once [k] is in the ledger, [m] further submissions are [m] duplicates
    and raise [seen_count] by [m]. *)
Lemma submit_duplicates a k m :
  url a = Some k → k ≠ "" →
  ∀ w c, faults w = [] → seen_count_of k w = Some c →
    (submit_each (repeat a m) w).1 = repeat (Ok (duplicate k)) m
    ∧ seen_count_of k (submit_each (repeat a m) w).2 = Some (c + Z.of_nat m)%Z.
Proof.
  intros Hu Hne. induction m as [|m IH]; intros w c Hf Hc; simpl.
  { split; [done|]. rewrite Hc. f_equal. lia. }
  destruct (add_article_duplicate a w) as (t1 & t2 & w1 & E & Hf1 & Hd).
  { rewrite Hu. by apply truthy_Some. }
  { done. }
  { left. rewrite Hu. simpl. by eapply seen_count_of_in_seen. }
  rewrite Hu in E, Hd. simpl in E, Hd. rewrite E.
  assert (Hc1 : seen_count_of k w1 = Some (c + 1)%Z).
  { unfold seen_count_of in *. rewrite Hd. simpl.
    rewrite find_update_first by apply seen_has_url_touch.
    destruct (find _ _); simpl in *; [|done]. by injection Hc as ->. }
  destruct (IH w1 _ Hf1 Hc1) as [T S1].
  destruct (submit_each (repeat a m) w1) as [rs w2]. simpl in *.
  split; [by rewrite T|]. rewrite S1. f_equal. lia.
Qed.

(** C2. For every article with a non-empty key [k] and every [N ≥ 1]:
    when neither the ledger nor the articles hold [k], as in a fresh
    store, and the server answers every call, [N] successive
    [add_article] calls give one success, the first, followed by [N - 1]
    duplicates, and the ledger entry of [k] ends with [seen_count = N]. *)
Theorem add_article_repeated (a : Article) (k : string) (N : nat) (w : World) :
  url a = Some k → k ≠ "" → 1 ≤ N →
  in_seen k w = false → in_articles (Some k) w = false → faults w = [] →
  (∃ n i, (submit_each (repeat a N) w).1
          = Ok (success k n i) :: repeat (Ok (duplicate k)) (N - 1))
  ∧ seen_count_of k (submit_each (repeat a N) w).2 = Some (Z.of_nat N).
Proof.
  intros Hu Hne HN Hs Ha Hf. destruct N as [|m]; [lia|]. simpl.
  replace (m - 0) with m by lia.
  destruct (add_article_success a w) as (t0 & t1 & t2 & t3 & w1 & E & Hf1 & Hd).
  { rewrite Hu. by apply truthy_Some. }
  { done. }
  { by rewrite Hu. }
  { by rewrite Hu. }
  rewrite Hu in E. simpl in E. rewrite E.
  assert (Hc1 : seen_count_of k w1 = Some 1%Z).
  { unfold seen_count_of. rewrite Hd. unfold success_db. simpl.
    rewrite find_snoc_absent by exact Hs.
    assert (Hk : default "" (url (match scraped_at a with
                                  | Some _ => a
                                  | None => with_scraped_at a t0
                                  end)) = k).
    { destruct (scraped_at a); simpl; by rewrite Hu. }
    rewrite Hk. unfold seen_has_url. simpl. by rewrite bool_decide_eq_true_2. }
  destruct (submit_duplicates a k m Hu Hne w1 1%Z Hf1 Hc1) as [T S1].
  destruct (submit_each (repeat a m) w1) as [rs w2]. simpl in *.
  split.
  - do 2 eexists. by rewrite T.
  - rewrite S1. f_equal. lia.
Qed.

Lemma add_article_repeated_witness :
  (∃ n i, (submit_each (repeat article_A 3) fresh_world).1
          = Ok (success "A" n i) :: repeat (Ok (duplicate "A")) (3 - 1))
  ∧ seen_count_of "A" (submit_each (repeat article_A 3) fresh_world).2
    = Some (Z.of_nat 3).
Proof.
  apply (add_article_repeated article_A "A" 3 fresh_world);
    [reflexivity | discriminate | lia | reflexivity | reflexivity | reflexivity].
Defined.

(** C3, as stated, fails: the run 0 is closed with five articles, and an
    update of one article on it returns normally and leaves six. *)
Lemma closed_run_update_changes_counters :
  (ended_at <$> find_run 0 closed_run_world) = Some (Some 2)
  ∧ (update_scraper_run 0 1 0 0 None closed_run_world).1 = Ok tt
  ∧ run_counters 0 closed_run_world = Some (5, 0, 0)%Z
  ∧ run_counters 0 (update_scraper_run 0 1 0 0 None closed_run_world).2
    = Some (6, 0, 0)%Z
  ∧ run_counters 0 (update_scraper_run 0 1 0 0 None closed_run_world).2
    ≠ run_counters 0 closed_run_world.
Proof. repeat split; try reflexivity. discriminate. Qed.

Lemma has_run_id_update rid u r :
  has_run_id rid (apply_run_update u r) = has_run_id rid r.
Proof.
  unfold has_run_id, apply_run_update. simpl.
  assert (H : ∀ l r0, run_id (fold_left apply_run_inc l r0) = run_id r0).
  { induction l as [|[[] n] l IH]; intros r0; simpl; [done|..]; by rewrite IH. }
  by rewrite H.
Qed.

Lemma find_run_update_one rid u w :
  faults w = [] →
  (scraper_runs_update_one rid u w).1 = Ok tt
  ∧ faults (scraper_runs_update_one rid u w).2 = []
  ∧ find_run rid (scraper_runs_update_one rid u w).2
    = apply_run_update u <$> find_run rid w.
Proof.
  intros Hf. unfold scraper_runs_update_one, bind, server_call, modify, find_run.
  rewrite Hf. simpl. repeat split; [done|].
  apply find_update_first. intros r. apply has_run_id_update.
Qed.

(** C3, amended.  [update_scraper_run] holds no check of the run's state:
    on a run that [end_scraper_run] has closed, and with the server
    answering, it returns normally, without an outcome, and the run has
    each positive delta added to its counter, a delta that is not
    positive leaving its counter as it was; the run keeps the [ended_at]
    that closed it. *)
Theorem update_scraper_run_after_end (w : World) (rid : ObjectId) (r : Run)
    (final : string) (articles duplicates_ errors_ : Z) (status_ : option string) :
  faults w = [] → find_run rid w = Some r →
  let w1 := (end_scraper_run rid final w).2 in
  let res := update_scraper_run rid articles duplicates_ errors_ status_ w1 in
  run_counters rid w1 = Some (articles_scraped r, duplicates_found r, errors r)
  ∧ res.1 = Ok tt
  ∧ run_counters rid res.2
    = Some ((articles_scraped r + Z.max 0 articles)%Z,
            (duplicates_found r + Z.max 0 duplicates_)%Z,
            (errors r + Z.max 0 errors_)%Z)
  ∧ (ended_at <$> find_run rid res.2) = Some (Some (clock w)).
Proof.
  intros Hf Hr w1 res.
  assert (H1 : faults w1 = []
               ∧ find_run rid w1
                 = Some (apply_run_update
                           {| run_inc := []; run_set_status := Some final;
                              run_set_ended_at := Some (clock w) |} r)).
  { subst w1. unfold end_scraper_run, bind, now.
    match goal with
    | |- context [scraper_runs_update_one rid ?u ?w0] =>
        destruct (find_run_update_one rid u w0) as (_ & F & E); [exact Hf|]
    end.
    simpl in *. rewrite F, E. unfold find_run in *. simpl. by rewrite Hr. }
  destruct H1 as [Hf1 Hr1].
  split. { unfold run_counters. by rewrite Hr1. }
  subst res. unfold update_scraper_run.
  match goal with
  | |- context [scraper_runs_update_one rid ?u w1] =>
      destruct (find_run_update_one rid u w1) as (O & _ & E); [exact Hf1|];
      set (upd := u) in *
  end.
  split; [exact O|]. unfold run_counters. rewrite E, Hr1. simpl.
  destruct (Z.ltb_spec 0 articles), (Z.ltb_spec 0 duplicates_), (Z.ltb_spec 0 errors_);
    simpl; (split; [repeat f_equal; lia | reflexivity]).
Qed.

Lemma update_scraper_run_after_end_witness :
  let w := (start_scraper_run (Some "X") fresh_world).2 in
  let w1 := (end_scraper_run 0 "completed" w).2 in
  run_counters 0 (update_scraper_run 0 3 (-2) 0 (Some "running") w1).2
  = Some (3, 0, 0)%Z.
Proof.
  intros w w1.
  assert (Hr : find_run 0 w = Some {| run_id := 0; started_at := 1; ended_at := None;
                                      status := "running"; run_source := Some "X";
                                      articles_scraped := 0; duplicates_found := 0;
                                      errors := 0 |}) by reflexivity.
  assert (Hf : faults w = []) by reflexivity.
  exact (proj1 (proj2 (proj2
    (update_scraper_run_after_end w 0 _ "completed" 3 (-2) 0 (Some "running") Hf Hr)))).
Defined.

(** The duplicate path leaves [sources] of the stats document as it was:
    its update increments [total_duplicates] alone. *)
Lemma duplicate_db_sources u t1 t2 d :
  sources (default empty_stats_doc (stats_collection (duplicate_db u t1 t2 d)))
  = sources (default empty_stats_doc (stats_collection d)).
Proof. reflexivity. Qed.

(** C4, on the code: article [A] of source [X] is submitted twice to a
    fresh store.  The second call takes the duplicate path and returns
    the duplicate outcome; [total_duplicates] goes from 0 to 1, and
    [sources.X] holds the article count of the first call and no
    [duplicates] field: the counter of the source is not incremented. *)
Theorem duplicate_path_source_counter :
  let w1 := (add_article article_A fresh_world).2 in
  let w2 := (add_article article_A w1).2 in
  (add_article article_A w1).1 = Ok (duplicate "A")
  ∧ total_duplicates (stats_of w1) = Some 0%Z
  ∧ total_duplicates (stats_of w2) = Some 1%Z
  ∧ source_counters "X" w1
    = Some {| source_articles := Some 1%Z; source_duplicates := None |}
  ∧ source_counters "X" w2
    = Some {| source_articles := Some 1%Z; source_duplicates := None |}.
Proof. repeat split; vm_compute; reflexivity. Qed.

(** C5, as stated, fails on the reason: the call returns the reason
    ["missing_url"], not ["missing_key"]. *)
Lemma add_article_missing_reason :
  (add_article article_without_url fresh_world).1 = Ok (error "missing_url")
  ∧ (add_article article_without_url fresh_world).1 ≠ Ok (error "missing_key").
Proof. split; [reflexivity | discriminate]. Qed.

(** C5, amended.  For every article whose ['url'] is absent or empty,
    [add_article] returns the error outcome with reason ["missing_url"]
    and has no effect: the world after the call, and so the articles, the
    ledger and the stats document, is the world before it. *)
Theorem add_article_missing_url (a : Article) (w : World) :
  url a = None ∨ url a = Some "" →
  add_article a w = (Ok (error "missing_url"), w).
Proof. intros [H|H]; apply add_article_falsy_url; by rewrite H. Qed.

Lemma add_article_missing_url_witness :
  add_article article_without_url fresh_world
  = (Ok (error "missing_url"), fresh_world).
Proof. apply add_article_missing_url. by left. Defined.

(** *** The ledger against the articles *)

Lemma in_seen_elem k w : in_seen k w = true ↔ k ∈ seen_keys w.
Proof.
  unfold in_seen, seen_keys. induction (seen_urls_collection (db w)) as [|e l IH]; simpl.
  - rewrite elem_of_nil. split; [done | tauto].
  - rewrite orb_true_iff, IH, elem_of_cons. unfold seen_has_url.
    rewrite bool_decide_eq_true.
    split; (intros [H|H]; [left; congruence | by right]).
Qed.

Lemma in_articles_elem o w : in_articles o w = true ↔ o ∈ article_keys w.
Proof.
  unfold in_articles, article_keys.
  induction (articles_collection (db w)) as [|d l IH]; simpl.
  - rewrite elem_of_nil. split; [done | tauto].
  - rewrite orb_true_iff, IH, elem_of_cons. unfold has_url.
    rewrite bool_decide_eq_true.
    split; (intros [H|H]; [left; congruence | by right]).
Qed.

Lemma duplicate_db_keys u t1 t2 w w' :
  db w' = duplicate_db u t1 t2 (db w) →
  seen_keys w' = seen_keys w ∧ article_keys w' = article_keys w.
Proof.
  intros H. unfold seen_keys, article_keys. rewrite H. simpl.
  by rewrite update_first_keys.
Qed.

Lemma success_db_keys a1 oid t1 t2 t3 w w' :
  db w' = success_db a1 oid t1 t2 t3 (db w) →
  seen_keys w' = seen_keys w ++ [default "" (url a1)]
  ∧ article_keys w' = article_keys w ++ [url a1].
Proof.
  intros H. unfold seen_keys, article_keys. rewrite H. simpl.
  by rewrite !map_app.
Qed.

(** Whatever the server does, a key of the ledger is a key of a stored
    article: one call keeps it so. *)
Lemma add_article_seen_stored a w :
  (∀ k, k ∈ seen_keys w → Some k ∈ article_keys w) →
  ∀ k, k ∈ seen_keys (add_article a w).2 → Some k ∈ article_keys (add_article a w).2.
Proof.
  intros Hinv k. destruct (truthy (url a)) eqn:Ht.
  2: { rewrite add_article_falsy_url by done. apply Hinv. }
  apply truthy_inv in Ht as (u & Hu & _).
  destruct (add_article_effect a w) as [[Hc _]|(doc & I1 & I2 & _ & I4 & _)].
  - unfold article_keys. rewrite (core_seen_keys _ _ Hc), (core_articles _ _ Hc).
    apply Hinv.
  - unfold article_keys. rewrite I1, map_app, elem_of_app. simpl.
    rewrite I2, Hu in *. simpl in I4.
    destruct I4 as [-> | ->].
    + intros H. left. by apply Hinv.
    + rewrite elem_of_app, list_elem_of_singleton. intros [H | ->].
      * left. by apply Hinv.
      * right. by apply list_elem_of_singleton.
Qed.

Lemma submit_each_seen_stored articles w :
  (∀ k, k ∈ seen_keys w → Some k ∈ article_keys w) →
  ∀ k, k ∈ seen_keys (submit_each articles w).2 →
       Some k ∈ article_keys (submit_each articles w).2.
Proof.
  revert w. induction articles as [|a rest IH]; intros w H; simpl; [done|].
  pose proof (add_article_seen_stored a w H) as H1.
  destruct (add_article a w) as [r w1]. simpl in H1.
  specialize (IH w1 H1). by destruct (submit_each rest w1) as [rs w2].
Qed.

(** With the server answering, the keys of the articles are the keys of
    the ledger, in the same order: one call keeps it so. *)
Lemma add_article_keys_agree a w :
  faults w = [] → article_keys w = Some <$> seen_keys w →
  faults (add_article a w).2 = []
  ∧ article_keys (add_article a w).2 = Some <$> seen_keys (add_article a w).2.
Proof.
  intros Hf Hinv. destruct (truthy (url a)) eqn:Ht.
  2: { by rewrite add_article_falsy_url. }
  pose proof Ht as (u & Hu & Hne)%truthy_inv.
  destruct (in_seen u w) eqn:Hs.
  - destruct (add_article_duplicate a w Ht Hf) as (t1 & t2 & w' & E & Hf' & Hd).
    { left. by rewrite Hu. }
    rewrite E. simpl. split; [done|].
    apply duplicate_db_keys in Hd as [-> ->]. done.
  - assert (Ha : in_articles (url a) w = false).
    { rewrite Hu. apply not_true_is_false. rewrite in_articles_elem, Hinv.
      intros (k & [= <-] & Hk)%list_elem_of_fmap.
      apply in_seen_elem in Hk. congruence. }
    destruct (add_article_success a w Ht Hf) as (t0 & t1 & t2 & t3 & w' & E & Hf' & Hd).
    { by rewrite Hu. }
    { done. }
    cbv zeta in E, Hd. rewrite E. simpl. split; [done|].
    apply success_db_keys in Hd as [-> ->].
    rewrite fmap_app, Hinv. simpl. do 2 f_equal.
    destruct (scraped_at a); simpl; by rewrite Hu.
Qed.

Lemma submit_each_keys_agree articles w :
  faults w = [] → article_keys w = Some <$> seen_keys w →
  article_keys (submit_each articles w).2 = Some <$> seen_keys (submit_each articles w).2.
Proof.
  revert w. induction articles as [|a rest IH]; intros w Hf H; simpl; [done|].
  destruct (add_article_keys_agree a w Hf H) as [Hf1 H1].
  destruct (add_article a w) as [r w1]. simpl in *.
  specialize (IH w1 Hf1 H1). by destruct (submit_each rest w1) as [rs w2].
Qed.

(** C7. After every sequence of [add_article] calls from a store with no
    article and no ledger entry: whatever the server does, a key with a
    ledger entry has a stored article, which only a successful insert
    writes; when the server answers every call, every stored article has
    its ledger entry, so that a key has an entry iff an article with it
    was inserted.  The duplicate path, [_track_duplicate], leaves the keys
    of the ledger as they are, and one [add_article] changes them only
    together with an insert of an article. *)
Theorem seen_entry_iff_inserted (articles : list Article) (w : World) :
  articles_collection (db w) = [] → seen_urls_collection (db w) = [] →
  let w' := (submit_each articles w).2 in
  (∀ k, k ∈ seen_keys w' → Some k ∈ article_keys w')
  ∧ (faults w = [] → ∀ k, k ∈ seen_keys w' ↔ Some k ∈ article_keys w')
  ∧ (∀ u source w0, seen_keys (_track_duplicate u source w0).2 = seen_keys w0)
  ∧ (∀ a w0, seen_keys (add_article a w0).2 ≠ seen_keys w0 → inserted a w0 (add_article a w0).2).
Proof.
  intros Ha Hs w'. subst w'. split; [|split; [|split]].
  - apply submit_each_seen_stored. unfold seen_keys. rewrite Hs. simpl. intros k Hk. by apply elem_of_nil in Hk.
  - intros Hf k. rewrite (submit_each_keys_agree articles w Hf).
    + rewrite list_elem_of_fmap. split; [eauto|]. by intros (x & [= ->] & H).
    + unfold article_keys, seen_keys. by rewrite Ha, Hs.
  - intros u source w0. apply core_seen_keys, stable__track_duplicate.
  - intros a w0 Hne.
    destruct (add_article_effect a w0) as [[Hc _]|Hi]; [|done].
    by apply core_seen_keys in Hc.
Qed.

Lemma seen_entry_iff_inserted_witness :
  let w' := (submit_each [article_A; article_without_url; article_A] fresh_world).2 in
  "A" ∈ seen_keys w' ↔ Some "A" ∈ article_keys w'.
Proof.
  intros w'.
  apply (seen_entry_iff_inserted [article_A; article_without_url; article_A] fresh_world);
    reflexivity.
Defined.

(** The loop calls [add_article] on every article in turn, and no call
    raises. *)
Lemma add_articles_loop_trace articles results w :
  add_articles_loop articles results w
  = (Ok (tally_all (submit_each articles w).1 results), (submit_each articles w).2)
  ∧ Forall returned (submit_each articles w).1
  ∧ length (submit_each articles w).1 = length articles.
Proof.
  revert results w. induction articles as [|a rest IH]; intros results w; simpl.
  { repeat split. constructor. }
  unfold bind. destruct (total_add_article a w) as [o Ho].
  destruct (add_article a w) as [r w1]. simpl in Ho. subst r.
  destruct (IH (tally results o) w1) as (E & F & L).
  destruct (submit_each rest w1) as [rs w2]. simpl in *.
  split; [exact E|]. split; [|by rewrite L].
  constructor; [by exists o | done].
Qed.

Lemma tally_all_counts trace results :
  total (tally_all trace results) = total results
  ∧ added (tally_all trace results) = added results + count_status "success" trace
  ∧ duplicates (tally_all trace results)
    = duplicates results + count_status "duplicate" trace
  ∧ batch_errors (tally_all trace results)
    = batch_errors results + count_status "error" trace
  ∧ duplicate_urls (tally_all trace results)
    = duplicate_urls results ++ duplicates_of trace.
Proof.
  revert results. unfold count_status, duplicates_of, tally_all.
  induction trace as [|r trace IH]; intros results; simpl.
  { rewrite app_nil_r. repeat split; lia. }
  match goal with
  | |- context [fold_left _ trace ?res] => destruct (IH res) as (T & A & D & E & U)
  end.
  rewrite T, A, D, E, U.
  destruct r as [[u n i|u|reason]|e]; simpl; repeat split; try lia.
  by rewrite <- app_assoc.
Qed.

Lemma count_status_partition trace :
  Forall returned trace →
  count_status "success" trace + count_status "duplicate" trace
  + count_status "error" trace = length trace.
Proof.
  unfold count_status. induction 1 as [|r trace [o ->] _ IH]; simpl; [done|].
  destruct o; simpl; lia.
Qed.

(** C8. For every list of articles and whatever the server does,
    [add_articles_batch] raises nothing and returns a summary; the world
    it leaves is the world after [add_article] has been called on every
    article of the list in turn, each call returning an outcome, so that
    an error on one article stops nothing; and the summary counts the
    successes, the duplicates and the errors of all those calls. *)
Theorem add_articles_batch_fail_independent (articles : list Article) (w : World) :
  let trace := (submit_each articles w).1 in
  Forall returned trace
  ∧ length trace = length articles
  ∧ ∃ summary,
      add_articles_batch articles w = (Ok summary, (submit_each articles w).2)
      ∧ added summary = count_status "success" trace
      ∧ duplicates summary = count_status "duplicate" trace
      ∧ batch_errors summary = count_status "error" trace.
Proof.
  intros trace. subst trace. unfold add_articles_batch.
  match goal with
  | |- context [add_articles_loop articles ?r w] =>
      destruct (add_articles_loop_trace articles r w) as (E & F & L);
      destruct (tally_all_counts (submit_each articles w).1 r) as (T & A & D & Er & U)
  end.
  split; [done|]. split; [done|].
  eexists. split; [exact E|]. simpl in *. by rewrite A, D, Er.
Qed.

(** C10. For every list of articles and whatever the server does, the
    summary [add_articles_batch] returns has [total] equal to the length
    of the list, [added + duplicates + errors] equal to [total], and a
    [duplicate_urls] list of [duplicates] entries: the urls of the calls
    that returned a duplicate, in the order of the calls. *)
Theorem add_articles_batch_summary (articles : list Article) (w : World) :
  ∃ summary w',
    add_articles_batch articles w = (Ok summary, w')
    ∧ total summary = length articles
    ∧ added summary + duplicates summary + batch_errors summary = total summary
    ∧ length (duplicate_urls summary) = duplicates summary
    ∧ duplicate_urls summary = duplicates_of (submit_each articles w).1.
Proof.
  unfold add_articles_batch.
  match goal with
  | |- context [add_articles_loop articles ?r w] =>
      destruct (add_articles_loop_trace articles r w) as (E & F & L);
      destruct (tally_all_counts (submit_each articles w).1 r) as (T & A & D & Er & U)
  end.
  do 2 eexists. split; [exact E|]. simpl in *.
  rewrite T, A, D, Er, U. repeat split.
  - rewrite <- L. by apply count_status_partition.
  - clear. unfold count_status, duplicates_of.
    induction (submit_each articles w).1 as [|[[u n i|u|reason]|e] trace IH]; simpl;
      auto.
Qed.

Lemma read_only_ret {A} (a : A) : read_only (ret a).
Proof. by intros w. Qed.

Lemma read_only_bind {A B} (m : M A) (k : A → M B) :
  read_only m → (∀ a, read_only (k a)) → read_only (bind m k).
Proof.
  intros Hm Hk w. unfold bind. specialize (Hm w).
  destruct (m w) as [[a|e] w1]; simpl in *; [|done].
  by rewrite Hk.
Qed.

Lemma read_only_server_call : read_only server_call.
Proof. intros w. unfold server_call. by destruct (faults w) as [|[?|] ?]. Qed.

Lemma read_only_query {A} (f : World → A) :
  read_only (server_call ;; w <- get ;; ret (f w)).
Proof.
  apply read_only_bind; [apply read_only_server_call|]. intros _.
  apply read_only_bind; [by intros w|]. intros w. apply read_only_ret.
Qed.

Lemma articles_count_documents_value w n :
  (articles_count_documents w).1 = Ok n → n = length (articles_collection (db w)).
Proof.
  unfold articles_count_documents, bind, server_call, get, ret.
  destruct (faults w) as [|[?|] ?]; simpl; congruence.
Qed.

Lemma read_only_articles_count_documents : read_only articles_count_documents.
Proof. apply read_only_query. Qed.

Lemma read_only_seen_urls_count_documents : read_only seen_urls_count_documents.
Proof. apply read_only_query. Qed.

Lemma read_only_scraper_runs_count_documents : read_only scraper_runs_count_documents.
Proof. apply read_only_query. Qed.

Lemma read_only_articles_find_last : read_only articles_find_last.
Proof. apply read_only_query. Qed.

Lemma read_only_stats_find_one : read_only stats_find_one.
Proof. apply read_only_query. Qed.

(** The exception case of a bind: the postcondition asks nothing of a
    result that is not a value. *)
Ltac raise_case :=
  let H := fresh in
  intros ? ? H; split; [first [exact H | exact (proj1 H)] | by intros ? [=]].

Lemma get_database_stats_counts d :
  hoare (λ w, db w = d) get_database_stats
    (λ r w, db w = d
            ∧ ∀ s, r = Ok s → stats_total_articles s = length (articles_collection d)).
Proof.
  assert (Hro : ∀ A (m : M A), read_only m →
                  hoare (λ w, db w = d) m (λ _ w, db w = d)).
  { intros A m Hm w Hw. by rewrite Hm. }
  unfold get_database_stats.
  apply hoare_bind with (R := λ _ w, db w = d);
    [apply Hro, read_only_stats_find_one | | raise_case].
  intros found.
  apply hoare_bind with (R := λ _ w, db w = d); [| | raise_case].
  { apply Hro. destruct found; [apply read_only_ret|].
    apply read_only_bind; [apply read_only_articles_count_documents|]. intros n.
    apply read_only_bind; [by intros w | intros; apply read_only_ret]. }
  intros stats_doc.
  apply hoare_bind
    with (R := λ r w, db w = d ∧ ∀ n, r = Ok n → n = length (articles_collection d));
    [| | raise_case].
  { intros w Hw. split; [by rewrite read_only_articles_count_documents|].
    intros n Hn. rewrite <- Hw. by apply articles_count_documents_value. }
  intros n.
  apply hoare_bind
    with (R := λ _ w, db w = d ∧ n = length (articles_collection d)); [| | raise_case].
  { intros w [Hw Hn]. split; [by rewrite read_only_seen_urls_count_documents | by apply Hn]. }
  intros n1.
  apply hoare_bind
    with (R := λ _ w, db w = d ∧ n = length (articles_collection d)); [| | raise_case].
  { intros w [Hw Hn]. split; [by rewrite read_only_scraper_runs_count_documents | done]. }
  intros n2.
  apply hoare_bind
    with (R := λ _ w, db w = d ∧ n = length (articles_collection d)); [| | raise_case].
  { intros w [Hw Hn]. split; [by rewrite read_only_articles_find_last | done]. }
  intros last_article.
  apply hoare_bind
    with (R := λ _ w, db w = d ∧ n = length (articles_collection d)); [| | raise_case].
  { intros w [Hw Hn]. split; [by rewrite read_only_server_call | done]. }
  intros _. apply hoare_ret. intros w [Hw Hn]. split; [done|].
  by intros s [= <-].
Qed.

Lemma get_database_stats_returns w :
  faults w = [] → ∃ s, (get_database_stats w).1 = Ok s.
Proof.
  intros Hf. destruct w as [d c n f dk us]. simpl in Hf. subst f.
  unfold get_database_stats, bind, stats_find_one, server_call, get, ret. simpl.
  destruct (stats_collection d); simpl; by eexists.
Qed.

(** C9. For every world, and so for every stats document, drifted, reset
    or missing: [get_database_stats] changes nothing in the database;
    whenever it returns, the [total_articles] it reports is the number of
    documents of the articles collection; and it returns when the server
    answers its calls. *)
Theorem get_database_stats_total_articles (w : World) :
  db (get_database_stats w).2 = db w
  ∧ (∀ s, (get_database_stats w).1 = Ok s →
       stats_total_articles s = length (articles_collection (db w)))
  ∧ (faults w = [] → ∃ s, (get_database_stats w).1 = Ok s).
Proof.
  destruct (get_database_stats_counts (db w) w eq_refl) as [H1 H2].
  split; [done|]. split; [done|]. apply get_database_stats_returns.
Qed.

Lemma get_database_stats_total_articles_witness :
  ∃ s, (get_database_stats drifted_world).1 = Ok s ∧ stats_total_articles s = 1.
Proof.
  destruct (get_database_stats_total_articles drifted_world) as (_ & H & R).
  destruct (R eq_refl) as [s Hs]. exists s. split; [done|]. by rewrite (H s Hs).
Defined.

Lemma find_none_count h (l : list GridOut) :
  find (has_md5 h) l = None → length (filter (λ f, md5 f = Some h) l) = 0.
Proof.
  induction l as [|f l IH]; simpl; [done|]. unfold has_md5 at 1.
  rewrite filter_cons. case_bool_decide; [done|].
  destruct (decide _); [done | auto].
Qed.

Lemma find_some_count h (l : list GridOut) f :
  find (has_md5 h) l = Some f → 0 < length (filter (λ f, md5 f = Some h) l).
Proof.
  induction l as [|g l IH]; simpl; [done|]. unfold has_md5 at 1.
  rewrite filter_cons. case_bool_decide.
  - intros _. rewrite decide_True by done. simpl. lia.
  - rewrite decide_False by done. auto.
Qed.

Lemma find_snoc_none {A} (p : A → bool) (l : list A) (x : A) :
  find p l = None → find p (l ++ [x]) = if p x then Some x else None.
Proof.
  intros H. apply find_snoc_absent. rewrite find_existsb, H.
  apply bool_decide_eq_false. by intros [? [=]].
Qed.

Section MediaFacts.

Variable hashlib_md5 : list Byte.byte → string.
Variable gridfs_md5 : list Byte.byte → option string.
Variable guess_type : string → option string.

(** The facts of this section are about a driver that fills the [md5]
    field with the digest [hashlib.md5] computes, as the GridFS driver
    did before PyMongo 4.0 and as the look-up
    [find_one({"md5": file_hash})] of the uploads takes for granted. *)
Hypothesis gridfs_md5_digest : ∀ content, gridfs_md5 content = Some (hashlib_md5 content).

Lemma upload_media_file_put_spec w file_path tweet_id_ media_type_ content :
  faults w = [] → disk w !! file_path = Some content →
  put_spec (hashlib_md5 content)
    (upload_media_file hashlib_md5 gridfs_md5 guess_type file_path tweet_id_ media_type_) w.
Proof.
  intros Hf Hd. destruct w as [d c n f dk us]. simpl in Hf, Hd. subst f.
  unfold put_spec, upload_media_file, try_catch, bind, os_path_exists, read_file,
    gridfs_find_one_md5, server_call, get, ret. simpl.
  repeat (rewrite Hd; simpl).
  destruct (find (has_md5 (hashlib_md5 content)) (gridfs d)) as [g|] eqn:E; simpl.
  - done.
  - repeat split. eexists. split; [|split]. 3: reflexivity. all: simpl; by rewrite ?gridfs_md5_digest.
Qed.

Lemma upload_file_to_gridfs_put_spec w media_info content :
  faults w = [] → disk w !! mi_file_path media_info = Some content →
  put_spec (hashlib_md5 content)
    (upload_file_to_gridfs hashlib_md5 gridfs_md5 guess_type false media_info) w.
Proof.
  intros Hf Hd. destruct w as [d c n f dk us]. simpl in Hf, Hd. subst f.
  unfold put_spec, upload_file_to_gridfs, try_catch, bind, read_file,
    gridfs_find_one_md5, server_call, get, ret. simpl.
  repeat (rewrite Hd; simpl).
  destruct (find (has_md5 (hashlib_md5 content)) (gridfs d)) as [g|] eqn:E; simpl.
  - done.
  - repeat (rewrite Hd; simpl). repeat split.
    eexists. split; [|split]. 3: reflexivity. all: simpl; by rewrite ?gridfs_md5_digest.
Qed.

Lemma run_put_spec w call content :
  faults w = [] → disk w !! put_path call = Some content →
  put_spec (hashlib_md5 content) (run_put hashlib_md5 gridfs_md5 guess_type call) w.
Proof.
  destruct call; simpl;
    [apply upload_media_file_put_spec | apply upload_file_to_gridfs_put_spec].
Qed.

(** Two puts of bytes of one digest, one after the other. *)
Lemma put_twice h (m1 m2 : M (option BlobRef)) w :
  put_spec h m1 w → put_spec h m2 (m1 w).2 → count_md5 h w ≤ 1 →
  ∃ ref, (m1 w).1 = Ok (Some ref)
         ∧ (m2 (m1 w).2).1 = Ok (Some ref)
         ∧ db (m2 (m1 w).2).2 = db (m1 w).2
         ∧ count_md5 h (m2 (m1 w).2).2 = 1.
Proof.
  unfold put_spec, count_md5. intros (_ & _ & H1) (_ & _ & H2) Hc.
  destruct (find (has_md5 h) (gridfs (db w))) as [f|] eqn:E.
  - destruct H1 as [R1 D1]. rewrite D1, E in H2. destruct H2 as [R2 D2].
    exists (GridId (file_id f)). rewrite D2, D1.
    apply find_some_count in E. repeat split; try done. lia.
  - destruct H1 as (new & R1 & M1 & G1).
    rewrite G1, (find_snoc_none _ _ _ E) in H2. unfold has_md5 at 1 in H2.
    rewrite bool_decide_eq_true_2 in H2 by done. destruct H2 as [R2 D2].
    exists (GridId (file_id new)). rewrite D2, G1.
    repeat split; try done.
    rewrite filter_app, length_app, (find_none_count _ _ E), filter_cons.
    by rewrite decide_True.
Qed.

(** What the look-up by digest achieves against a driver that fills the
    [md5] field: for every payload [content] found under the paths of two
    put calls, each through [upload_media_file] or
    [upload_file_to_gridfs] and with any file names and metadata, in a
    store holding at most one file of the payload's digest and with the
    server answering, both calls return the same reference, the second
    call leaves the database as the first left it, and the store holds
    exactly one file of that digest. *)
Lemma put_content_dedup (w : World) (content : list Byte.byte)
    (call1 call2 : PutCall) :
  faults w = [] →
  disk w !! put_path call1 = Some content →
  disk w !! put_path call2 = Some content →
  count_md5 (hashlib_md5 content) w ≤ 1 →
  let r1 := run_put hashlib_md5 gridfs_md5 guess_type call1 w in
  let r2 := run_put hashlib_md5 gridfs_md5 guess_type call2 r1.2 in
  ∃ ref, r1.1 = Ok (Some ref)
         ∧ r2.1 = Ok (Some ref)
         ∧ db r2.2 = db r1.2
         ∧ count_md5 (hashlib_md5 content) r2.2 = 1.
Proof.
  intros Hf H1 H2 Hc r1 r2. subst r1 r2.
  pose proof (run_put_spec w call1 content Hf H1) as S1.
  apply put_twice; [done | | done].
  destruct S1 as (Hf1 & Hd1 & _).
  apply run_put_spec; [done | by rewrite Hd1].
Qed.

End MediaFacts.

Lemma put_content_dedup_witness :
  let md5_ := string_of_list_byte in
  let stored := λ content, Some (string_of_list_byte content) in
  let guess := λ _ : string, Some "image/jpeg" in
  let r1 := upload_media_file md5_ stored guess "media/f1.jpg" "100" "photo"
              two_files_world in
  let r2 := upload_file_to_gridfs md5_ stored guess false
              {| mi_file_path := "media/f2.jpg"; mi_relative_path := "f2.jpg";
                 mi_filename := "f2.jpg"; mi_size := 3; mi_extension := ".jpg" |}
              r1.2 in
  ∃ ref, r1.1 = Ok (Some ref) ∧ r2.1 = Ok (Some ref)
         ∧ db r2.2 = db r1.2 ∧ count_md5 (md5_ abc) r2.2 = 1.
Proof.
  intros md5_ stored guess.
  apply (put_content_dedup md5_ stored guess (λ _, eq_refl) two_files_world abc
           (ViaManager "media/f1.jpg" "100" "photo")
           (ViaUploader {| mi_file_path := "media/f2.jpg"; mi_relative_path := "f2.jpg";
                           mi_filename := "f2.jpg"; mi_size := 3;
                           mi_extension := ".jpg" |}));
    [reflexivity | reflexivity | reflexivity | vm_compute; lia].
Defined.

(** The same two uploads against a driver that writes no [md5] field:
    the look-up never finds the first file, and the bytes are stored
    twice under two ids. *)
Lemma put_twice_without_md5_field :
  let md5_ := string_of_list_byte in
  let stored := λ _ : list Byte.byte, @None string in
  let guess := λ _ : string, Some "image/jpeg" in
  let r1 := upload_media_file md5_ stored guess "media/f1.jpg" "100" "photo"
              two_files_world in
  let r2 := upload_media_file md5_ stored guess "media/f2.jpg" "100" "photo" r1.2 in
  r1.1 = Ok (Some (GridId 0)) ∧ r2.1 = Ok (Some (GridId 1))
  ∧ map file_data (gridfs (db r2.2)) = [abc; abc].
Proof. repeat split. Qed.

Section MediaWithoutDigest.

Variable hashlib_md5 : list Byte.byte → string.
Variable guess_type : string → option string.

(** One put against a driver that writes no [md5] field, in a store
    where the look-up by digest finds nothing. *)
Lemma run_put_no_md5_field (w : World) (call : PutCall) (content : list Byte.byte) :
  faults w = [] → disk w !! put_path call = Some content →
  find (has_md5 (hashlib_md5 content)) (gridfs (db w)) = None →
  let r := run_put hashlib_md5 no_md5_field guess_type call w in
  r.1 = Ok (Some (GridId (next_oid w)))
  ∧ faults r.2 = [] ∧ disk r.2 = disk w ∧ next_oid r.2 = S (next_oid w)
  ∧ ∃ f, gridfs (db r.2) = gridfs (db w) ++ [f]
         ∧ file_id f = next_oid w ∧ file_data f = content ∧ md5 f = None.
Proof.
  intros Hf Hd Hm r. subst r.
  destruct w as [d c n f dk us]. simpl in Hf, Hm. subst f.
  destruct call as [file_path tweet_id_ media_type_ | media_info]; simpl in Hd |- *.
  - unfold upload_media_file, try_catch, bind, os_path_exists, read_file,
      gridfs_find_one_md5, gridfs_put, server_call, get, ret, now, fresh_oid, modify.
    simpl. repeat (rewrite Hd; simpl). rewrite Hm. simpl.
    split_and!; try done. eexists. split; [reflexivity|]. done.
  - unfold upload_file_to_gridfs, try_catch, bind, read_file,
      gridfs_find_one_md5, gridfs_put, server_call, get, ret, now, fresh_oid, modify.
    simpl. repeat (rewrite Hd; simpl). rewrite Hm. simpl.
    repeat (rewrite Hd; simpl).
    split_and!; try done. eexists. split; [reflexivity|]. done.
Qed.

(** C6. The look-up that is to prevent a second copy asks for the [md5]
    field of the stored files, which neither upload writes: they pass no
    [md5] keyword to [put], and the driver writes none.  So for every
    payload [content] found under the paths of two put calls, each
    through [upload_media_file] or [upload_file_to_gridfs], with the
    server answering and a store in which the look-up finds nothing:
    the first call stores the bytes under a new id and returns it, and
    the second call does not find them, stores the same bytes again
    under the next id and returns that other reference. *)
Theorem put_same_bytes_stored_twice (w : World) (content : list Byte.byte)
    (call1 call2 : PutCall) :
  faults w = [] →
  disk w !! put_path call1 = Some content →
  disk w !! put_path call2 = Some content →
  find (has_md5 (hashlib_md5 content)) (gridfs (db w)) = None →
  let r1 := run_put hashlib_md5 no_md5_field guess_type call1 w in
  let r2 := run_put hashlib_md5 no_md5_field guess_type call2 r1.2 in
  r1.1 = Ok (Some (GridId (next_oid w)))
  ∧ r2.1 = Ok (Some (GridId (S (next_oid w))))
  ∧ ∃ f1 f2, gridfs (db r2.2) = gridfs (db w) ++ [f1; f2]
             ∧ file_id f1 = next_oid w ∧ file_id f2 = S (next_oid w)
             ∧ file_data f1 = content ∧ file_data f2 = content.
Proof.
  intros Hf H1 H2 Hm r1 r2.
  destruct (run_put_no_md5_field w call1 content Hf H1 Hm)
    as (R1 & F1 & D1 & N1 & f1 & G1 & I1 & C1 & M1).
  fold r1 in R1, F1, D1, N1, G1.
  assert (Hm1 : find (has_md5 (hashlib_md5 content)) (gridfs (db r1.2)) = None).
  { rewrite G1, (find_snoc_none _ _ _ Hm). unfold has_md5. rewrite M1.
    by rewrite bool_decide_eq_false_2. }
  rewrite <- D1 in H2.
  destruct (run_put_no_md5_field r1.2 call2 content F1 H2 Hm1)
    as (R2 & _ & _ & _ & f2 & G2 & I2 & C2 & _).
  fold r2 in R2, G2. rewrite N1 in R2, I2.
  split; [exact R1|]. split; [exact R2|].
  exists f1, f2. rewrite G2, G1, <- app_assoc. done.
Qed.

End MediaWithoutDigest.

Lemma put_same_bytes_stored_twice_witness :
  let md5_ := string_of_list_byte in
  let guess := λ _ : string, Some "image/jpeg" in
  let r1 := run_put md5_ no_md5_field guess
              (ViaManager "media/f1.jpg" "100" "photo") two_files_world in
  let r2 := run_put md5_ no_md5_field guess
              (ViaManager "media/f2.jpg" "100" "photo") r1.2 in
  r1.1 = Ok (Some (GridId (next_oid two_files_world)))
  ∧ r2.1 = Ok (Some (GridId (S (next_oid two_files_world))))
  ∧ ∃ f1 f2, gridfs (db r2.2) = gridfs (db two_files_world) ++ [f1; f2]
             ∧ file_id f1 = next_oid two_files_world
             ∧ file_id f2 = S (next_oid two_files_world)
             ∧ file_data f1 = abc ∧ file_data f2 = abc.
Proof.
  intros md5_ guess.
  apply (put_same_bytes_stored_twice md5_ guess two_files_world abc
           (ViaManager "media/f1.jpg" "100" "photo")
           (ViaManager "media/f2.jpg" "100" "photo")); reflexivity.
Defined.

(** ** Invariants of the article store *)

Lemma read_only_now : read_only now.
Proof. by intros w. Qed.

Lemma read_only_get : read_only get.
Proof. by intros w. Qed.

Lemma read_only_fresh_oid : read_only fresh_oid.
Proof. by intros w. Qed.

Lemma keeps_read_only I {A} (m : M A) : read_only m → keeps I m.
Proof. intros Hm w Hw. by rewrite Hm. Qed.

Lemma keeps_ret I {A} (a : A) : keeps I (ret a).
Proof. by intros w. Qed.

Lemma keeps_bind I {A B} (m : M A) (k : A → M B) :
  keeps I m → (∀ a, keeps I (k a)) → keeps I (bind m k).
Proof.
  intros Hm Hk w Hw. unfold bind. specialize (Hm w Hw).
  destruct (m w) as [[a|e] w1]; simpl in *; [|done].
  by apply Hk.
Qed.

Lemma keeps_try I {A} (m : M A) (h : exn → M A) :
  keeps I m → (∀ e, keeps I (h e)) → keeps I (try_catch m h).
Proof.
  intros Hm Hh w Hw. unfold try_catch. specialize (Hm w Hw).
  destruct (m w) as [[a|e] w1]; simpl in *; [done|].
  by apply Hh.
Qed.

Lemma keeps_write I (f : Database → Database) :
  (∀ d, I d → I (f d)) → keeps I (server_call ;; modify (set_db f)).
Proof.
  intros Hf w Hw. unfold bind, server_call, modify.
  destruct (faults w) as [|[msg|] rest]; simpl; auto.
Qed.

Section AddArticleInvariant.

Variable I : Database → Prop.

(** What an invariant has to stand: the four writes of the protocol. *)
Hypothesis I_article : ∀ a oid d,
  I d → existsb (has_url (url a)) (articles_collection d) = false →
  I (set_articles (λ l, l ++ [{| article_id := oid; article_doc := a |}]) d).
Hypothesis I_seen : ∀ e d,
  I d → seen_count e = 1%Z →
  existsb (seen_has_url (seen_url e)) (seen_urls_collection d) = false →
  I (set_seen_urls (λ l, l ++ [e]) d).
Hypothesis I_touch : ∀ u t d,
  I d → I (set_seen_urls (update_first (seen_has_url u) (touch t)) d).
Hypothesis I_stats : ∀ f d, I d → I (set_stats f d).

Lemma keeps_articles_insert_one a : keeps I (articles_insert_one a).
Proof.
  intros w Hw. unfold articles_insert_one, bind, server_call, get, fresh_oid, modify,
    raise, ret.
  destruct (faults w) as [|[msg|] rest]; simpl;
    try (destruct (existsb _ _) eqn:E; simpl; auto).
  done.
Qed.

Lemma keeps_seen_urls_insert_one e :
  seen_count e = 1%Z → keeps I (seen_urls_insert_one e).
Proof.
  intros He w Hw. unfold seen_urls_insert_one, bind, server_call, get, modify, raise.
  destruct (faults w) as [|[msg|] rest]; simpl;
    try (destruct (existsb _ _) eqn:E; simpl; auto).
  done.
Qed.

Lemma keeps__update_stats added dups source : keeps I (_update_stats added dups source).
Proof.
  unfold _update_stats. apply keeps_try; [|intros; apply keeps_ret].
  apply keeps_bind; [apply keeps_read_only, read_only_now|]. intros t.
  apply keeps_write. intros d. apply I_stats.
Qed.

Lemma keeps__track_duplicate u source : keeps I (_track_duplicate u source).
Proof.
  unfold _track_duplicate. apply keeps_try; [|intros; apply keeps_ret].
  apply keeps_bind; [apply keeps_read_only, read_only_now|]. intros t.
  apply keeps_bind; [apply keeps_write; intros d; apply I_touch|]. intros _.
  apply keeps__update_stats.
Qed.

Lemma keeps__add_to_seen_urls u source : keeps I (_add_to_seen_urls u source).
Proof.
  unfold _add_to_seen_urls. apply keeps_try; [|intros; apply keeps_ret].
  apply keeps_bind; [apply keeps_read_only, read_only_now|]. intros t1.
  apply keeps_bind; [apply keeps_read_only, read_only_now|]. intros t2.
  by apply keeps_seen_urls_insert_one.
Qed.

Lemma keeps_add_article a : keeps I (add_article a).
Proof.
  unfold add_article. destruct (negb (truthy (url a))); [apply keeps_ret|].
  apply keeps_try.
  - apply keeps_bind; [apply keeps_read_only, read_only_query|]. intros n.
    destruct (0 <? n).
    + apply keeps_bind; [apply keeps__track_duplicate | intros; apply keeps_ret].
    + apply keeps_bind.
      { destruct (scraped_at a); [apply keeps_ret|].
        apply keeps_bind; [apply keeps_read_only, read_only_now|].
        intros; apply keeps_ret. }
      intros a1. apply keeps_bind; [apply keeps_articles_insert_one|]. intros oid.
      apply keeps_bind; [apply keeps__add_to_seen_urls|]. intros _.
      apply keeps_bind; [apply keeps__update_stats|]. intros _.
      apply keeps_bind; [apply keeps_read_only, read_only_articles_count_documents|].
      intros; apply keeps_ret.
  - intros [msg|msg|path]; try apply keeps_ret.
    apply keeps_bind; [apply keeps__track_duplicate | intros; apply keeps_ret].
Qed.

Lemma keeps_submit_each articles w :
  I (db w) → I (db (submit_each articles w).2).
Proof.
  revert w. induction articles as [|a rest IH]; intros w Hw; simpl; [done|].
  pose proof (keeps_add_article a w Hw) as H1.
  destruct (add_article a w) as [r w1]. simpl in H1.
  specialize (IH w1 H1). by destruct (submit_each rest w1) as [rs w2].
Qed.

End AddArticleInvariant.

Lemma Forall_update_first {A} (P : A → Prop) (p : A → bool) (f : A → A) (l : list A) :
  (∀ x, P x → P (f x)) → Forall P l → Forall P (update_first p f l).
Proof.
  intros Hf. induction 1 as [|x l Hx Hl IH]; simpl; [constructor|].
  destruct (p x); constructor; auto.
Qed.

Lemma existsb_seen_keys u (l : list SeenEntry) :
  existsb (seen_has_url u) l = false → u ∉ seen_url <$> l.
Proof.
  induction l as [|e l IH]; simpl; [intros _; apply not_elem_of_nil|].
  intros H. apply orb_false_elim in H as [He Hl].
  apply bool_decide_eq_false in He. apply not_elem_of_cons. split; [congruence | auto].
Qed.

Lemma update_first_touch_keys u t (l : list SeenEntry) :
  seen_url <$> update_first (seen_has_url u) (touch t) l = seen_url <$> l.
Proof.
  induction l as [|x l IH]; [done|]. simpl.
  destruct (seen_has_url u x); [done|]. by rewrite !fmap_cons, IH.
Qed.

(** X1. Whatever the server does, a sequence of [add_article] calls keeps
    the ledger well formed: no two entries of [seen_urls] share a url, and
    every entry has [seen_count ≥ 1]. *)
Theorem ledger_stays_well_formed (articles : list Article) (w : World) :
  ledger_ok (db w) → ledger_ok (db (submit_each articles w).2).
Proof.
  apply keeps_submit_each.
  - done.
  - intros e d [Hn Hc] He Hex. split; simpl.
    + rewrite fmap_app. apply NoDup_app. split; [done|]. split.
      * intros x Hx ->%list_elem_of_singleton. by apply existsb_seen_keys in Hex.
      * apply NoDup_singleton.
    + apply Forall_app. split; [done|]. constructor; [lia | constructor].
  - intros u t d [Hn Hc]. split; simpl.
    + by rewrite update_first_touch_keys.
    + apply Forall_update_first; [|done]. intros x Hx. simpl. lia.
  - done.
Qed.

Lemma ledger_stays_well_formed_witness :
  ledger_ok (db (submit_each [article_A; article_A; article_without_url] fresh_world).2).
Proof.
  apply ledger_stays_well_formed. split; [apply NoDup_nil_2 | constructor].
Defined.

(** X2. Whatever the server does, [add_article] only appends: after a
    sequence of calls the articles stored before are still there,
    unchanged and in place, as a prefix of the collection, and the keys of
    the ledger before are a prefix of its keys; the scraper runs and the
    GridFS files are not touched. *)
Theorem add_article_append_only (articles : list Article) (w : World) :
  let w' := (submit_each articles w).2 in
  articles_collection (db w) `prefix_of` articles_collection (db w')
  ∧ seen_keys w `prefix_of` seen_keys w'
  ∧ scraper_runs_collection (db w') = scraper_runs_collection (db w)
  ∧ gridfs (db w') = gridfs (db w).
Proof.
  revert w. induction articles as [|a rest IH]; intros w; simpl; [done|].
  pose proof (add_article_effect a w) as H1.
  destruct (add_article a w) as [r w1]. simpl in H1.
  specialize (IH w1). destruct (submit_each rest w1) as [rs w2]. simpl in *.
  destruct IH as (Pa & Ps & Er & Eg). rewrite Er, Eg.
  destruct H1 as [[Hc _]|(doc & I1 & _ & _ & I4 & I5 & I6)].
  - unfold core in Hc. injection Hc as Ha Hs Hr Hg.
    rewrite Ha in Pa. rewrite Hs in Ps. done.
  - rewrite I1 in Pa. split; [|split; [|done]].
    + etrans; [|exact Pa]. by apply prefix_app_r.
    + etrans; [|exact Ps]. destruct I4 as [-> | ->]; [done | by apply prefix_app_r].
Qed.

(** ** Inserts, look-ups and the register *)

Lemma query_nofault {A} (f : World → A) w :
  faults w = [] → (server_call ;; w0 <- get ;; ret (f w0)) w = (Ok (f w), w).
Proof. intros Hf. unfold bind, server_call, get, ret. by rewrite Hf. Qed.

Lemma add_article_success_world a w :
  truthy (url a) = true → faults w = [] →
  in_seen (default "" (url a)) w = false → in_articles (url a) w = false →
  add_article a w
  = (Ok (success (default "" (url a))
           (S (length (articles_collection (db w)))) (next_oid w)),
     success_world a w).
Proof.
  intros Ht Hf Hs Ha. destruct w as [d c n f dk us]. simpl in Hf. subst f.
  unfold in_seen, in_articles in Hs, Ha. simpl in Hs, Ha.
  assert (Hlen : ∀ x : ArticleDoc,
            length (articles_collection d ++ [x]) = S (length (articles_collection d))).
  { intros x. rewrite length_app. simpl. lia. }
  destruct (add_article a _) as [r w'] eqn:E.
  unfold add_article in E. rewrite Ht in E. simpl in E.
  unfold success_world, stored_article, success_db. simpl.
  destruct (scraped_at a) eqn:Esc;
    repeat first
      [ rewrite Hs in E | rewrite Ha in E | rewrite Hlen in E
      | progress simpl in E
      | progress unfold try_catch, bind, seen_count_documents_url, server_call, get,
          ret, raise, articles_insert_one, _add_to_seen_urls,
          seen_urls_insert_one in E ];
    injection E as <- <-; simpl; destruct (truthy (website_name a)); reflexivity.
Qed.

Lemma in_seen_snoc k (l : list SeenEntry) e :
  existsb (seen_has_url k) (l ++ [e])
  = existsb (seen_has_url k) l || bool_decide (seen_url e = k).
Proof. rewrite existsb_app. simpl. by rewrite orb_false_r. Qed.

Lemma find_over_app {A} (p : A → bool) (l l' : list A) :
  find p (l ++ l') = match find p l with
                     | Some x => Some x
                     | None => find p l'
                     end.
Proof. induction l as [|x l IH]; simpl; [done|]. by destruct (p x). Qed.

Lemma is_duplicate_nofault k w :
  faults w = [] → is_duplicate k w = (Ok (in_seen k w), w).
Proof.
  intros Hf. unfold is_duplicate, seen_count_documents_url, bind at 1.
  rewrite query_nofault by done. unfold ret, in_seen.
  by destruct (existsb _ _).
Qed.

Lemma get_article_by_id_nofault k w :
  faults w = [] →
  get_article_by_id k w
  = (Ok (article_doc <$> find (has_url (Some k)) (articles_collection (db w))), w).
Proof. intros Hf. unfold get_article_by_id. by rewrite query_nofault. Qed.

(** X3. Insert, then look up.  When the server answers and neither the
    ledger nor the articles hold the non-empty url [k] of [a]:
    [add_article a] reports success with the number of articles now
    stored and the id of the new document; before the call
    [get_article_by_id k] finds nothing and [is_duplicate k] is false;
    after it [get_article_by_id k] returns the article, with the
    [scraped_at] it carried or else the time of the call, and
    [is_duplicate k] is true; for every other url both answers are as
    before. *)
Theorem add_article_then_lookup (a : Article) (k : string) (w : World) :
  url a = Some k → k ≠ "" → faults w = [] →
  in_seen k w = false → in_articles (Some k) w = false →
  let w' := (add_article a w).2 in
  (add_article a w).1
  = Ok (success k (length (articles_collection (db w'))) (next_oid w))
  ∧ (get_article_by_id k w).1 = Ok None
  ∧ (get_article_by_id k w').1 = Ok (Some (stored_article a w))
  ∧ (is_duplicate k w).1 = Ok false
  ∧ (is_duplicate k w').1 = Ok true
  ∧ ∀ k', k' ≠ k →
      (get_article_by_id k' w').1 = (get_article_by_id k' w).1
      ∧ (is_duplicate k' w').1 = (is_duplicate k' w).1.
Proof.
  intros Hu Hne Hf Hs Ha w'. subst w'.
  assert (Ht : truthy (url a) = true) by (rewrite Hu; by apply truthy_Some).
  assert (Hk : url (stored_article a w) = Some k).
  { unfold stored_article. by destruct (scraped_at a). }
  rewrite (is_duplicate_nofault k w Hf), (get_article_by_id_nofault k w Hf).
  assert (Hq : ∀ k', (get_article_by_id k' w).1
                     = Ok (article_doc <$> find (has_url (Some k'))
                                             (articles_collection (db w)))
                     ∧ (is_duplicate k' w).1 = Ok (in_seen k' w)).
  { intros k'. by rewrite is_duplicate_nofault, get_article_by_id_nofault. }
  rewrite add_article_success_world by (first [done | rewrite Hu; simpl; done]).
  rewrite Hu.
  rewrite !is_duplicate_nofault, !get_article_by_id_nofault by done.
  unfold in_seen, in_articles in *. simpl. rewrite Hk. simpl.
  rewrite !in_seen_snoc, Hs. simpl. rewrite bool_decide_eq_true_2 by done.
  rewrite length_app, Nat.add_1_r.
  split; [done|]. split.
  { rewrite find_existsb in Ha. apply bool_decide_eq_false in Ha.
    destruct (find _ _); [|done]. exfalso. apply Ha. by eexists. }
  split.
  { rewrite find_snoc_absent by done. unfold has_url. simpl.
    by rewrite Hk, bool_decide_eq_true_2. }
  split; [done|]. split; [done|].
  intros k' Hk'. destruct (Hq k') as [-> ->].
  unfold in_seen. simpl. split.
  - rewrite find_over_app. destruct (find (has_url (Some k')) _); [done|]. simpl.
    unfold has_url. simpl. rewrite Hk, bool_decide_eq_false_2; [done | congruence].
  - rewrite in_seen_snoc. simpl.
    rewrite (bool_decide_eq_false_2 (k = k')) by congruence.
    rewrite orb_false_r. by destruct (existsb (seen_has_url k') _).
Qed.

Lemma add_article_then_lookup_witness :
  let w' := (add_article article_A fresh_world).2 in
  (get_article_by_id "A" w').1 = Ok (Some (stored_article article_A fresh_world))
  ∧ (is_duplicate "A" w').1 = Ok true.
Proof.
  intros w'.
  destruct (add_article_then_lookup article_A "A" fresh_world)
    as (_ & _ & H3 & _ & H5 & _); try reflexivity; [discriminate|].
  split; [exact H3 | exact H5].
Defined.










(** X5. The counters of the sources on the insert path.  When the server
    answers, the url of [a] is new and its [website_name] is one
    component of an update path (no dot, no leading dollar sign, no null
    character), [add_article a] raises [sources.<website_name>.articles]
    by one, creating it at 1 when it is missing, and leaves the
    [duplicates] counter of that source and the counters of every other
    source as they were; an article without a [website_name] changes no
    counter of any source. *)
Theorem add_article_source_counter (a : Article) (w : World) :
  truthy (url a) = true → faults w = [] →
  in_seen (default "" (url a)) w = false → in_articles (url a) w = false →
  plain_key (default "" (website_name a)) = true →
  let w' := (add_article a w).2 in
  match website_name a with
  | Some (String c0 s0) =>
      let s := String c0 s0 in
      source_counters s w'
      = Some {| source_articles :=
                  Some (default 0 (source_counters s w ≫= source_articles) + 1)%Z;
                source_duplicates := source_counters s w ≫= source_duplicates |}
      ∧ ∀ s', s' ≠ s → source_counters s' w' = source_counters s' w
  | _ => ∀ s', source_counters s' w' = source_counters s' w
  end.
Proof.
  intros Ht Hf Hs Ha _ w'. subst w'.
  rewrite add_article_success_world by done.
  unfold source_counters, stats_of, success_world, success_db. simpl.
  assert (Hw : website_name (stored_article a w) = website_name a).
  { unfold stored_article. by destruct (scraped_at a). }
  rewrite Hw.
  destruct (website_name a) as [[|c0 s0]|]; simpl; try done.
  unfold inc_source. simpl.
  destruct (stats_collection (db w)) as [d|]; simpl.
  - split.
    + rewrite lookup_insert_eq. destruct (sources d) as [m|]; simpl; [|done].
      by destruct (m !! String c0 s0).
    + intros s' Hne. rewrite lookup_insert_ne by done.
      destruct (sources d) as [m|]; simpl; [done | by rewrite lookup_empty].
  - split; [by rewrite lookup_insert_eq|].
    intros s' Hne. rewrite lookup_insert_ne by done. by rewrite lookup_empty.
Qed.

Lemma add_article_source_counter_witness :
  source_counters "X" (add_article article_A fresh_world).2
  = Some {| source_articles := Some 1%Z; source_duplicates := None |}.
Proof.
  exact (proj1 (add_article_source_counter article_A fresh_world
                  eq_refl eq_refl eq_refl eq_refl eq_refl)).
Defined.

(** ** The entries seen more than once *)

Lemma update_first_snoc_absent {A} (p : A → bool) (f : A → A) (l : list A) (x : A) :
  existsb p l = false → p x = true → update_first p f (l ++ [x]) = l ++ [f x].
Proof.
  intros Hl Hx. induction l as [|y l IH]; simpl in *; [by rewrite Hx|].
  apply orb_false_elim in Hl as [Hy Hl]. rewrite Hy. by rewrite IH.
Qed.

Lemma get_duplicates_nofault w :
  faults w = [] →
  get_duplicates w
  = (Ok (List.filter (λ e, (1 <? seen_count e)%Z) (seen_urls_collection (db w))), w).
Proof. intros Hf. unfold get_duplicates. by rewrite query_nofault. Qed.

(** With the entry of [k] last in the ledger, [m] further submissions
    of [k] touch that entry [m] times and nothing else of the ledger. *)
Lemma submit_duplicates_ledger a k m :
  url a = Some k → k ≠ "" →
  ∀ w l e, faults w = [] →
    seen_urls_collection (db w) = l ++ [e] →
    existsb (seen_has_url k) l = false → seen_url e = k →
    ∃ e', seen_urls_collection (db (submit_each (repeat a m) w).2) = l ++ [e']
          ∧ seen_url e' = k
          ∧ seen_count e' = (seen_count e + Z.of_nat m)%Z
          ∧ faults (submit_each (repeat a m) w).2 = [].
Proof.
  intros Hu Hne. induction m as [|m IH]; intros w l e Hf Hl Hex He; simpl.
  { exists e. repeat split; try done. lia. }
  destruct (add_article_duplicate a w) as (t1 & t2 & w1 & E & Hf1 & Hd).
  { rewrite Hu. by apply truthy_Some. }
  { done. }
  { left. rewrite Hu. unfold in_seen. rewrite Hl, in_seen_snoc. simpl.
    rewrite bool_decide_eq_true_2 by done. apply orb_true_r. }
  rewrite Hu in E, Hd. simpl in E, Hd. rewrite E.
  assert (Hl1 : seen_urls_collection (db w1) = l ++ [touch t1 e]).
  { rewrite Hd. simpl. rewrite Hl. apply update_first_snoc_absent; [done|].
    unfold seen_has_url. by rewrite bool_decide_eq_true_2. }
  destruct (IH w1 l (touch t1 e) Hf1 Hl1 Hex He) as (e' & S1 & S2 & S3 & S4).
  destruct (submit_each (repeat a m) w1) as [rs w2]. simpl in *.
  exists e'. repeat split; try done. lia.
Qed.

(** X6. When the server answers and the non-empty url [k] of [a] is in
    neither the ledger nor the articles, then after [N ≥ 1] submissions of
    [a] the list [get_duplicates] returns is the list it returned before,
    followed by the entry of [k], with [seen_count = N], when [N ≥ 2], and
    by nothing when [N = 1]: a url submitted once is not a duplicate. *)
Theorem get_duplicates_after_repeats (a : Article) (k : string) (N : nat) (w : World) :
  url a = Some k → k ≠ "" → 1 ≤ N → faults w = [] →
  in_seen k w = false → in_articles (Some k) w = false →
  ∀ before, (get_duplicates w).1 = Ok before →
    ∃ e, seen_url e = k ∧ seen_count e = Z.of_nat N
         ∧ (get_duplicates (submit_each (repeat a N) w).2).1
           = Ok (before ++ if 2 <=? N then [e] else []).
Proof.
  intros Hu Hne HN Hf Hs Ha before Hb.
  rewrite get_duplicates_nofault in Hb by done. injection Hb as <-.
  destruct N as [|m]; [lia|]. simpl.
  assert (Ht : truthy (url a) = true) by (rewrite Hu; by apply truthy_Some).
  rewrite add_article_success_world by (first [done | rewrite Hu; simpl; done]).
  rewrite Hu. simpl.
  assert (Hk : url (stored_article a w) = Some k).
  { unfold stored_article. by destruct (scraped_at a). }
  edestruct (submit_duplicates_ledger a k m Hu Hne (success_world a w))
    as (e' & S1 & S2 & S3 & S4).
  { done. }
  { unfold success_world, success_db. simpl. reflexivity. }
  { exact Hs. }
  { simpl. by rewrite Hk. }
  destruct (submit_each (repeat a m) (success_world a w)) as [rs w2]. simpl in *.
  exists e'. split; [done|]. split; [lia|].
  rewrite get_duplicates_nofault by done. simpl. rewrite S1. f_equal.
  rewrite List.filter_app. simpl. f_equal. rewrite S3.
  destruct m as [|m]; [done|]. cbn [Nat.leb].
  destruct (Z.ltb_spec 1 (1 + Z.of_nat (S m))); [done | lia].
Qed.

Lemma get_duplicates_after_repeats_witness :
  ∃ e, seen_url e = "A" ∧ seen_count e = Z.of_nat 2
       ∧ (get_duplicates (submit_each (repeat article_A 2) fresh_world).2).1
         = Ok ([] ++ if 2 <=? 2 then [e] else []).
Proof.
  apply (get_duplicates_after_repeats article_A "A" 2 fresh_world);
    [reflexivity | discriminate | lia | reflexivity | reflexivity | reflexivity
    | reflexivity].
Defined.

(** ** The life of a scraper run *)

Lemma update_first_absent {A} (p : A → bool) (f : A → A) (l : list A) :
  existsb p l = false → update_first p f l = l.
Proof.
  induction l as [|x l IH]; simpl; [done|].
  intros H. apply orb_false_elim in H as [Hx Hl]. rewrite Hx. by rewrite IH.
Qed.

Lemma find_update_first_cases {A} (p q : A → bool) (f : A → A) (l : list A) :
  (∀ x, p (f x) = p x) →
  find p (update_first q f l) = find p l
  ∨ find p (update_first q f l) = f <$> find p l.
Proof.
  intros Hp. induction l as [|x l IH]; simpl; [by left|].
  destruct (q x) eqn:Eq; simpl.
  - rewrite Hp. destruct (p x); [by right | by left].
  - destruct (p x); [by left | done].
Qed.

Lemma find_update_first_ne {A} (p q : A → bool) (f : A → A) (l : list A) :
  (∀ x, p (f x) = p x) → (∀ x, q x = true → p x = false) →
  find p (update_first q f l) = find p l.
Proof.
  intros Hp Hq. induction l as [|x l IH]; simpl; [done|].
  destruct (q x) eqn:Eq; simpl.
  - by rewrite Hp, (Hq x Eq).
  - by rewrite IH.
Qed.

Lemma apply_run_inc_grows incs r :
  Forall (λ fn : RunField * Z, (0 ≤ fn.2)%Z) incs →
  counters_le (counters_of r) (counters_of (fold_left apply_run_inc incs r)).
Proof.
  intros H. revert r. induction H as [|[fld n] incs Hn _ IH]; intros r; simpl.
  { unfold counters_le. simpl. lia. }
  specialize (IH (apply_run_inc r (fld, n))).
  unfold counters_le, counters_of in *. simpl in *.
  destruct fld; simpl in *; lia.
Qed.

Lemma apply_run_update_grows u r :
  Forall (λ fn : RunField * Z, (0 ≤ fn.2)%Z) (run_inc u) →
  counters_le (counters_of r) (counters_of (apply_run_update u r)).
Proof. intros H. apply (apply_run_inc_grows _ r H). Qed.

Lemma scraper_runs_update_one_runs rid u w :
  scraper_runs_collection (db (scraper_runs_update_one rid u w).2)
  = scraper_runs_collection (db w)
  ∨ scraper_runs_collection (db (scraper_runs_update_one rid u w).2)
    = update_first (has_run_id rid) (apply_run_update u) (scraper_runs_collection (db w)).
Proof.
  unfold scraper_runs_update_one, bind, server_call, modify.
  destruct (faults w) as [|[msg|] rest]; simpl; auto.
Qed.

Lemma run_counters_update_one rid' rid u w c :
  Forall (λ fn : RunField * Z, (0 ≤ fn.2)%Z) (run_inc u) →
  run_counters rid' w = Some c →
  ∃ c', run_counters rid' (scraper_runs_update_one rid u w).2 = Some c'
        ∧ counters_le c c'.
Proof.
  intros Hu Hc. unfold run_counters, find_run in *.
  destruct (find (has_run_id rid') (scraper_runs_collection (db w))) as [r|] eqn:E;
    [|done].
  injection Hc as <-.
  destruct (scraper_runs_update_one_runs rid u w) as [-> | ->].
  { rewrite E. eexists. split; [done|]. unfold counters_le. simpl. lia. }
  destruct (find_update_first_cases (has_run_id rid') (has_run_id rid)
              (apply_run_update u) (scraper_runs_collection (db w))) as [-> | ->].
  - intros x. apply has_run_id_update.
  - rewrite E. eexists. split; [done|]. unfold counters_le. simpl. lia.
  - rewrite E. simpl. eexists. split; [done|]. by apply apply_run_update_grows.
Qed.

(** X7. The counters of a run never decrease.  Whatever the server does
    and whatever the arguments, negative deltas included,
    [update_scraper_run] leaves each of the three counters of every run
    at least as large as it was; [end_scraper_run] and
    [start_scraper_run] leave the counters of every existing run as they
    were. *)
Theorem run_counters_never_decrease (w : World) (rid' : ObjectId) (c : Z * Z * Z) :
  run_counters rid' w = Some c →
  (∀ rid articles dups errs status_,
     ∃ c', run_counters rid' (update_scraper_run rid articles dups errs status_ w).2
           = Some c'
           ∧ counters_le c c')
  ∧ (∀ rid final, run_counters rid' (end_scraper_run rid final w).2 = Some c)
  ∧ (∀ source, run_counters rid' (start_scraper_run source w).2 = Some c).
Proof.
  intros Hc. split; [|split].
  - intros rid articles dups errs status_. unfold update_scraper_run.
    apply run_counters_update_one; [|done]. simpl.
    destruct (Z.ltb_spec 0 articles), (Z.ltb_spec 0 dups), (Z.ltb_spec 0 errs);
      simpl; repeat constructor; simpl; lia.
  - intros rid final. unfold end_scraper_run, bind, now.
    match goal with
    | |- context [scraper_runs_update_one rid ?u ?w0] =>
        destruct (scraper_runs_update_one_runs rid u w0) as [E | E]
    end; unfold run_counters, find_run in *; simpl in *; rewrite E; [done|].
    destruct (find_update_first_cases (has_run_id rid') (has_run_id rid)
                (apply_run_update {| run_inc := []; run_set_status := Some final;
                                     run_set_ended_at := Some (clock w) |})
                (scraper_runs_collection (db w))) as [-> | ->];
      [intros x; apply has_run_id_update | done |].
    by destruct (find _ _).
  - intros source. unfold run_counters, find_run in *.
    unfold start_scraper_run, bind, now, server_call, fresh_oid, modify,
      stats_update_one_upsert, ret. simpl.
    destruct (faults w) as [|[msg|] [|[msg'|] rest]]; simpl; try done;
      rewrite find_over_app; by destruct (find _ _).
Qed.

Lemma run_counters_never_decrease_witness :
  ∃ c', run_counters 0 (update_scraper_run 0 (-4) 2 0 None closed_run_world).2 = Some c'
        ∧ counters_le (5, 0, 0)%Z c'.
Proof.
  exact (proj1 (run_counters_never_decrease closed_run_world 0 (5, 0, 0)%Z eq_refl)
           0 (-4)%Z 2%Z 0%Z None).
Defined.

(** X8. An update or an end of a run that does not exist changes
    nothing: neither [update_scraper_run] nor [end_scraper_run] creates a
    run, and the database is left as it was, whatever the server does. *)
Theorem unknown_run_is_left_alone (w : World) (rid : ObjectId) :
  find_run rid w = None →
  (∀ articles dups errs status_,
     db (update_scraper_run rid articles dups errs status_ w).2 = db w)
  ∧ (∀ final, db (end_scraper_run rid final w).2 = db w).
Proof.
  intros Hr. unfold find_run in Hr.
  assert (Hex : existsb (has_run_id rid) (scraper_runs_collection (db w)) = false).
  { rewrite find_existsb, Hr. apply bool_decide_eq_false. by intros [? [=]]. }
  assert (H : ∀ u w0, db w0 = db w → db (scraper_runs_update_one rid u w0).2 = db w).
  { intros u w0 Hw0. unfold scraper_runs_update_one, bind, server_call, modify.
    destruct (faults w0) as [|[msg|] rest]; simpl; rewrite ?Hw0; try done;
      unfold set_scraper_runs; rewrite update_first_absent by done;
      by destruct (db w). }
  split.
  - intros. unfold update_scraper_run. by apply H.
  - intros. unfold end_scraper_run, bind, now. by apply H.
Qed.

Lemma unknown_run_is_left_alone_witness :
  db (update_scraper_run 7 3 0 0 (Some "running") closed_run_world).2
  = db closed_run_world.
Proof.
  exact (proj1 (unknown_run_is_left_alone closed_run_world 7 eq_refl)
           3%Z 0%Z 0%Z (Some "running")).
Defined.

Lemma start_scraper_run_nofault source w :
  faults w = [] →
  start_scraper_run source w = (Ok (next_oid w), started_world source w).
Proof.
  intros Hf. destruct w as [d c n f dk us]. simpl in Hf. by subst f.
Qed.

Lemma find_run_update_other rid rid' u w :
  rid' ≠ rid →
  find_run rid' (scraper_runs_update_one rid u w).2 = find_run rid' w.
Proof.
  intros Hne. unfold find_run.
  destruct (scraper_runs_update_one_runs rid u w) as [-> | ->]; [done|].
  apply find_update_first_ne.
  - intros x. apply has_run_id_update.
  - intros x Hx. unfold has_run_id in *. apply bool_decide_eq_true in Hx.
    apply bool_decide_eq_false. congruence.
Qed.

(** X9. The life of a run.  When the server answers and no run has the
    id the driver generates next: [start_scraper_run] returns that id and
    creates a run with status ["running"], the source given, no end time
    and three counters at zero, and raises [total_scraper_runs] of the
    stats document by one; after an [update_scraper_run] and
    [end_scraper_run] on that id the run has the positive deltas as its
    counters, the final status and an end time, and its start time and
    source are as created; every other run is as it was. *)
Theorem scraper_run_lifecycle (w : World) (source : option string)
    (articles dups errs : Z) (final : string) :
  faults w = [] → find_run (next_oid w) w = None →
  let rid := next_oid w in
  let w1 := (start_scraper_run source w).2 in
  let w2 := (update_scraper_run rid articles dups errs None w1).2 in
  let w3 := (end_scraper_run rid final w2).2 in
  (start_scraper_run source w).1 = Ok rid
  ∧ find_run rid w1 = Some (new_run source w)
  ∧ total_scraper_runs (stats_of w1)
    = Some (default 0 (total_scraper_runs (stats_of w)) + 1)%Z
  ∧ find_run rid w3
    = Some {| run_id := rid; started_at := clock w; ended_at := Some (S (clock w));
              status := final; run_source := source;
              articles_scraped := Z.max 0 articles;
              duplicates_found := Z.max 0 dups;
              errors := Z.max 0 errs |}
  ∧ ∀ rid', rid' ≠ rid → find_run rid' w3 = find_run rid' w.
Proof.
  intros Hf Hr rid w1 w2 w3. subst w1 w2 w3 rid.
  rewrite start_scraper_run_nofault by done. cbn [fst snd].
  assert (H1 : find_run (next_oid w) (started_world source w) = Some (new_run source w)).
  { unfold find_run in *. simpl. rewrite find_over_app, Hr. simpl.
    unfold has_run_id. simpl. by rewrite bool_decide_eq_true_2. }
  split; [done|]. split; [done|]. split; [done|].
  unfold update_scraper_run, end_scraper_run, bind, now.
  match goal with
  | |- context [scraper_runs_update_one (next_oid w) ?u (started_world source w)] =>
      set (u1 := u);
      destruct (find_run_update_one (next_oid w) u1 (started_world source w))
        as (_ & F2 & E2); [done|];
      assert (O2 : ∀ rid', rid' ≠ next_oid w →
                find_run rid' (scraper_runs_update_one (next_oid w) u1
                                 (started_world source w)).2
                = find_run rid' (started_world source w))
        by (intros; by apply find_run_update_other)
  end.
  assert (C2 : clock (scraper_runs_update_one (next_oid w) u1
                        (started_world source w)).2 = S (clock w)).
  { unfold scraper_runs_update_one, bind, server_call, modify. by simpl. }
  remember (scraper_runs_update_one (next_oid w) u1 (started_world source w)).2 as w2
    eqn:Hw2.
  clear Hw2. cbn [fst snd].
  match goal with
  | |- context [scraper_runs_update_one (next_oid w) ?u ?w0] =>
      set (u2 := u);
      assert (Hw0 : ∀ rid', find_run rid' w0 = find_run rid' w2) by done;
      assert (F0 : faults w0 = []) by exact F2;
      destruct (find_run_update_one (next_oid w) u2 w0 F0) as (_ & F3 & E3);
      assert (O3 : ∀ rid', rid' ≠ next_oid w →
                find_run rid' (scraper_runs_update_one (next_oid w) u2 w0).2
                = find_run rid' w0)
        by (intros; by apply find_run_update_other)
  end.
  split.
  - rewrite E3, Hw0, E2, H1. simpl.
    subst u1 u2. unfold apply_run_update, new_run. rewrite C2.
    destruct (Z.ltb_spec 0 articles), (Z.ltb_spec 0 dups), (Z.ltb_spec 0 errs);
      simpl; repeat f_equal; lia.
  - intros rid' Hne. rewrite O3, Hw0, O2 by done.
    unfold find_run. simpl. rewrite find_over_app.
    destruct (find _ _); [done|]. simpl. unfold has_run_id. simpl.
    by rewrite bool_decide_eq_false_2.
Qed.

Lemma scraper_run_lifecycle_witness :
  let w1 := (start_scraper_run (Some "X") fresh_world).2 in
  let w2 := (update_scraper_run 0 4 (-1) 2 None w1).2 in
  let w3 := (end_scraper_run 0 "completed" w2).2 in
  find_run 0 w3
  = Some {| run_id := 0; started_at := clock fresh_world;
            ended_at := Some (S (clock fresh_world));
            status := "completed"; run_source := Some "X";
            articles_scraped := Z.max 0 4; duplicates_found := Z.max 0 (-1);
            errors := Z.max 0 2 |}.
Proof.
  exact (proj1 (proj2 (proj2 (proj2
    (scraper_run_lifecycle fresh_world (Some "X") 4 (-1) 2 "completed"
       eq_refl eq_refl))))).
Defined.

(** ** The report of the statistics and the start of a manager *)

Lemma newer_stamp d b :
  newer d b = (stamp (article_doc b) <? stamp (article_doc d)).
Proof.
  unfold newer, stamp.
  destruct (scraped_at (article_doc d)), (scraped_at (article_doc b)); done.
Qed.

Lemma keep_newest_bound (l : list ArticleDoc) (best : option ArticleDoc) :
  ∀ d, d ∈ l ∨ best = Some d →
    ∃ b, fold_left keep_newest l best = Some b
         ∧ stamp (article_doc d) ≤ stamp (article_doc b)
         ∧ (b ∈ l ∨ best = Some b).
Proof.
  revert best. induction l as [|x l IH]; intros best d Hd; simpl.
  { destruct Hd as [Hd | ->]; [by apply elem_of_nil in Hd|]. eauto. }
  assert (Hstep : ∃ b0, keep_newest best x = Some b0
                        ∧ stamp (article_doc x) ≤ stamp (article_doc b0)
                        ∧ (∀ b, best = Some b →
                             stamp (article_doc b) ≤ stamp (article_doc b0))
                        ∧ (b0 = x ∨ best = Some b0)).
  { destruct best as [b|]; simpl.
    - rewrite newer_stamp. destruct (Nat.ltb_spec (stamp (article_doc b))
                                       (stamp (article_doc x))).
      + exists x. repeat split; [lia | | by left]. intros ? [= <-]. lia.
      + exists b. repeat split; [lia | | by right]. by intros ? [= <-].
    - exists x. repeat split; [lia | done | by left]. }
  destruct Hstep as (b0 & E0 & Hx & Hb & Hor). rewrite E0.
  assert (Hd0 : d ∈ l ∨ stamp (article_doc d) ≤ stamp (article_doc b0)).
  { destruct Hd as [[-> | Hd]%elem_of_cons | ->]; auto. }
  destruct Hd0 as [Hd0 | Hd0].
  - destruct (IH (Some b0) d (or_introl Hd0)) as (b & E & Hle & Hin).
    exists b. repeat split; [done | done |].
    destruct Hin as [Hin | [= <-]]; [left; by apply elem_of_cons; right|].
    destruct Hor as [-> | Hor]; [left; by apply elem_of_cons; left | by right].
  - destruct (IH (Some b0) b0 (or_intror eq_refl)) as (b & E & Hle & Hin).
    exists b. repeat split; [done | lia |].
    destruct Hin as [Hin | [= <-]]; [left; by apply elem_of_cons; right|].
    destruct Hor as [-> | Hor]; [left; by apply elem_of_cons; left | by right].
Qed.

(** X10. The rest of the report.  When the server answers,
    [get_database_stats] returns; [total_seen_urls] and
    [total_scraper_runs] are the numbers of documents of the two
    collections, not the counters of the stats document;
    [total_duplicates] and [sources] are those of the stats document, and
    0 and the empty map when the document or the field is missing; and
    [last_updated] is the [scraped_at] of a newest article, not the
    [last_updated] of the stats document: it is absent when there is no
    article, and no article is stamped later. *)
Theorem get_database_stats_report (w : World) :
  faults w = [] →
  ∃ s, (get_database_stats w).1 = Ok s
       ∧ stats_total_seen_urls s = length (seen_urls_collection (db w))
       ∧ stats_total_scraper_runs s = length (scraper_runs_collection (db w))
       ∧ stats_total_duplicates s = default 0%Z (register_duplicates w)
       ∧ stats_sources s = default ∅ (sources (stats_of w))
       ∧ (articles_collection (db w) = [] → stats_last_updated s = None)
       ∧ ∀ d t, d ∈ articles_collection (db w) → scraped_at (article_doc d) = Some t →
           ∃ d' t', d' ∈ articles_collection (db w)
                    ∧ scraped_at (article_doc d') = Some t'
                    ∧ stats_last_updated s = Some t' ∧ t ≤ t'.
Proof.
  intros Hf. destruct w as [d c n f dk us]. simpl in Hf. subst f.
  unfold register_duplicates, stats_of. simpl.
  assert (Hlast : ∀ x t, x ∈ articles_collection d → scraped_at (article_doc x) = Some t →
            ∃ d' t', d' ∈ articles_collection d
                     ∧ scraped_at (article_doc d') = Some t'
                     ∧ (fold_left keep_newest (articles_collection d) None
                          ≫= (λ b, scraped_at (article_doc b))) = Some t'
                     ∧ t ≤ t').
  { intros x t Hx Ht.
    destruct (keep_newest_bound (articles_collection d) None x (or_introl Hx))
      as (b & E & Hle & [Hin | [=]]).
    unfold stamp in Hle. rewrite Ht in Hle.
    destruct (scraped_at (article_doc b)) as [t'|] eqn:Eb; [|lia].
    exists b, t'. rewrite E. simpl. repeat split; try done. lia. }
  unfold get_database_stats, bind, stats_find_one, articles_count_documents,
    seen_urls_count_documents, scraper_runs_count_documents, articles_find_last,
    db_command_dbStats, server_call, get, now, ret. simpl.
  destruct (stats_collection d) as [sd|] eqn:Es; simpl;
    (eexists; split; [reflexivity|]; simpl;
     repeat split; [by intros -> | exact Hlast]).
Qed.

Lemma get_database_stats_report_witness :
  ∃ s, (get_database_stats drifted_world).1 = Ok s
       ∧ stats_total_seen_urls s = 1 ∧ stats_total_duplicates s = 0%Z.
Proof.
  destruct (get_database_stats_report drifted_world eq_refl)
    as (s & E & H1 & _ & H3 & _).
  exists s. split; [exact E|]. split; [exact H1 | exact H3].
Defined.

(** X11. Starting a manager never resets the statistics.  Whatever the
    server does, [_initialize_stats] leaves a database that has a stats
    document as it is; on a database without one, and with the server
    answering, it creates the document with the three totals at zero and
    no source; so that running it again changes nothing. *)
Theorem initialize_stats_once (w : World) :
  (∀ d, stats_collection (db w) = Some d → db (_initialize_stats w).2 = db w)
  ∧ (faults w = [] → stats_collection (db w) = None →
       db (_initialize_stats w).2
       = set_stats (λ _, Some (initial_stats (clock w))) (db w))
  ∧ (faults w = [] →
       db (_initialize_stats (_initialize_stats w).2).2 = db (_initialize_stats w).2).
Proof.
  destruct w as [d c n f dk us]. repeat split.
  - intros sd Hs. simpl in Hs. unfold _initialize_stats, bind, server_call, get, ret.
    simpl. destruct f as [|[msg|] rest]; simpl; rewrite ?Hs; done.
  - simpl. intros -> Hs. unfold _initialize_stats, bind, server_call, get. simpl.
    by rewrite Hs.
  - simpl. intros ->. unfold _initialize_stats, bind, server_call, get. simpl.
    destruct (stats_collection d) eqn:Hs; simpl; by rewrite ?Hs.
Qed.

(** ** The sorted queries *)

#[local] Instance newest_first_total : Total newest_first.
Proof. intros a b. unfold newest_first. lia. Qed.

#[local] Instance newest_first_trans : Transitive newest_first.
Proof. intros a b c. unfold newest_first. lia. Qed.

#[local] Instance started_first_total : Total started_first.
Proof. intros a b. unfold started_first. lia. Qed.

#[local] Instance started_first_trans : Transitive started_first.
Proof. intros a b c. unfold started_first. lia. Qed.

Lemma query_returns {A} (g : Database → A) w a :
  ((server_call ;; w0 <- get ;; ret (g (db w0))) w).1 = Ok a → a = g (db w).
Proof.
  unfold bind, server_call, get, ret.
  destruct (faults w) as [|[msg|] rest]; simpl; congruence.
Qed.

(** X12. [get_all_articles_sorted] returns every stored article exactly
    once, newest first: whenever it returns, its list is a permutation of
    the articles [get_all_articles] returns in the same world, and in it
    no article comes before one with a later [scraped_at], an article
    without [scraped_at] coming after all those that have one; and it
    returns when the server answers. *)
Theorem get_all_articles_sorted_newest_first (w : World) :
  (∀ l, (get_all_articles_sorted w).1 = Ok l →
     l ≡ₚ article_doc <$> articles_collection (db w)
     ∧ StronglySorted newest_first l
     ∧ ∀ all, (get_all_articles w).1 = Ok all → l ≡ₚ all)
  ∧ (faults w = [] → ∃ l, (get_all_articles_sorted w).1 = Ok l).
Proof.
  split.
  - intros l Hl.
    apply (query_returns
             (λ d, merge_sort newest_first (article_doc <$> articles_collection d)))
      in Hl.
    subst l.
    split; [apply merge_sort_Permutation|].
    split; [apply StronglySorted_merge_sort; apply _|].
    intros all Hall.
    apply (query_returns (λ d, article_doc <$> articles_collection d)) in Hall.
    subst all. apply merge_sort_Permutation.
  - intros Hf. unfold get_all_articles_sorted. rewrite query_nofault by done. by eexists.
Qed.

(** X13. [get_scraper_runs limit], for a positive [limit], returns the
    [limit] most recently started runs, or all of them when there are
    fewer, most recent first; a [limit] of 0 returns all the runs.
    Whenever it returns: the list together with the runs left out is a
    permutation of the collection, it is sorted by [started_at]
    descending, no run left out started after a run returned, and its
    length is the smaller of [limit] and the number of runs, or that
    number when [limit] is 0. *)
Theorem get_scraper_runs_most_recent (w : World) (limit : nat) (l : list Run) :
  (get_scraper_runs limit w).1 = Ok l →
  StronglySorted started_first l
  ∧ length l = (if limit is 0 then length (scraper_runs_collection (db w))
                else limit `min` length (scraper_runs_collection (db w)))
  ∧ ∃ left_out,
      l ++ left_out ≡ₚ scraper_runs_collection (db w)
      ∧ (limit = 0 → left_out = [])
      ∧ ∀ r r', r ∈ l → r' ∈ left_out → started_at r' ≤ started_at r.
Proof.
  intros Hl.
  apply (query_returns
           (λ d, let sorted := merge_sort started_first (scraper_runs_collection d) in
                 match limit with
                 | 0 => sorted
                 | _ => take limit sorted
                 end)) in Hl.
  subst l. cbv zeta.
  set (sorted := merge_sort started_first (scraper_runs_collection (db w))).
  assert (Hs : StronglySorted started_first sorted)
    by (apply StronglySorted_merge_sort; apply _).
  assert (Hp : sorted ≡ₚ scraper_runs_collection (db w))
    by apply merge_sort_Permutation.
  destruct limit as [|m].
  - split; [done|]. split; [by rewrite Hp|].
    exists []. rewrite app_nil_r. split; [done|]. split; [done|].
    intros r r' _ Hr'. by apply elem_of_nil in Hr'.
  - rewrite <- (take_drop (S m) sorted) in Hs.
    split; [by apply StronglySorted_app_1_l in Hs|].
    split; [by rewrite length_take, Hp|].
    exists (drop (S m) sorted). split; [by rewrite take_drop|]. split; [done|].
    intros r r' Hr Hr'.
    apply (StronglySorted_app_1_elem_of _ _ _ _ _ Hs Hr Hr').
Qed.

Lemma get_scraper_runs_most_recent_witness :
  ∃ l, (get_scraper_runs 1 closed_run_world).1 = Ok l
       ∧ length l = 1 `min` length (scraper_runs_collection (db closed_run_world)).
Proof.
  eexists. split; [reflexivity|].
  refine (proj1 (proj2 (get_scraper_runs_most_recent closed_run_world 1 _ _))).
  reflexivity.
Defined.

(** ** Uploads that fail, and what every upload leaves *)

Lemma find_elem_of {A} (p : A → bool) (l : list A) x : find p l = Some x → x ∈ l.
Proof.
  induction l as [|y l IH]; simpl; [done|].
  destruct (p y); [intros [= ->]; by left | intros H; right; auto].
Qed.

Section UploadFacts.

Variable hashlib_md5 : list Byte.byte → string.
Variable gridfs_md5 : list Byte.byte → option string.
Variable guess_type : string → option string.

(** What one [upload_media_file] does, whatever the server does. *)
Lemma upload_media_file_effect file_path tweet_id_ media_type_ w :
  let res := upload_media_file hashlib_md5 gridfs_md5 guess_type
               file_path tweet_id_ media_type_ w in
  ∃ r g, res.1 = Ok r
         ∧ db res.2 = set_gridfs (λ l, l ++ g) (db w)
         ∧ length g ≤ 1
         ∧ match r with
           | None => g = []
           | Some ref => ∃ f, ref = GridId (file_id f) ∧ f ∈ gridfs (db w) ++ g
           end.
Proof.
  destruct w as [d c n f dk us].
  assert (Hd : ∀ d0 : Database, d0 = set_gridfs (λ l, l ++ []) d0).
  { intros [? ? ? ? ?]. unfold set_gridfs. simpl. by rewrite app_nil_r. }
  unfold upload_media_file, try_catch, bind, os_path_exists, read_file,
    gridfs_find_one_md5, gridfs_put, server_call, get, ret, now, fresh_oid, modify.
  simpl. destruct (dk !! file_path) as [content|] eqn:Ed; simpl.
  2: { exists None, []. simpl. auto. }
  rewrite Ed. simpl.
  destruct f as [|[msg|] rest]; simpl.
  - destruct (find (has_md5 (hashlib_md5 content)) (gridfs d)) as [g0|] eqn:Ef; simpl.
    + exists (Some (GridId (file_id g0))), []. simpl. repeat split; auto.
      exists g0. split; [done|]. rewrite app_nil_r. by eapply find_elem_of.
    + eexists (Some (GridId n)), [_]. simpl. repeat split; auto.
      eexists. split; [|apply elem_of_app; right; by apply list_elem_of_singleton].
      done.
  - exists None, []. simpl. auto.
  - destruct (find (has_md5 (hashlib_md5 content)) (gridfs d)) as [g0|] eqn:Ef; simpl.
    + exists (Some (GridId (file_id g0))), []. simpl. repeat split; auto.
      exists g0. split; [done|]. rewrite app_nil_r. by eapply find_elem_of.
    + destruct rest as [|[msg|] rest]; simpl.
      * eexists (Some (GridId n)), [_]. simpl. repeat split; auto.
        eexists. split; [|apply elem_of_app; right; by apply list_elem_of_singleton].
        done.
      * exists None, []. simpl. auto.
      * eexists (Some (GridId n)), [_]. simpl. repeat split; auto.
        eexists. split; [|apply elem_of_app; right; by apply list_elem_of_singleton].
        done.
Qed.

(** X14. [upload_media_file], whatever the server does: it raises
    nothing; it leaves the files stored before in place and adds at most
    one, touching nothing else of the database; when it returns [None] it
    has stored nothing, and a reference it returns is the id of a file
    the store holds after the call.  A path that names no file gives
    [None] and leaves the whole world as it was, without a call to the
    server. *)
Theorem upload_media_file_safe (file_path tweet_id_ media_type_ : string) (w : World) :
  let res := upload_media_file hashlib_md5 gridfs_md5 guess_type
               file_path tweet_id_ media_type_ w in
  (∃ r, res.1 = Ok r
        ∧ match r with
          | None => db res.2 = db w
          | Some ref => ∃ f, ref = GridId (file_id f) ∧ f ∈ gridfs (db res.2)
          end)
  ∧ gridfs (db w) `prefix_of` gridfs (db res.2)
  ∧ length (gridfs (db res.2)) ≤ S (length (gridfs (db w)))
  ∧ articles_collection (db res.2) = articles_collection (db w)
  ∧ seen_urls_collection (db res.2) = seen_urls_collection (db w)
  ∧ stats_collection (db res.2) = stats_collection (db w)
  ∧ scraper_runs_collection (db res.2) = scraper_runs_collection (db w)
  ∧ (disk w !! file_path = None → res = (Ok None, w)).
Proof.
  intros res.
  destruct (upload_media_file_effect file_path tweet_id_ media_type_ w)
    as (r & g & Hr & Hd & Hg & Hm).
  fold res in Hr, Hd. rewrite Hd. simpl. repeat split; try done.
  - exists r. split; [done|]. destruct r as [ref|]; [done|].
    subst g. destruct (db w). unfold set_gridfs. simpl. by rewrite app_nil_r.
  - by apply prefix_app_r.
  - rewrite length_app. lia.
  - intros Hn. subst res. destruct w as [d c n f dk us]. simpl in Hn.
    unfold upload_media_file, try_catch, bind, os_path_exists. simpl.
    by rewrite Hn.
Qed.

(** X15. Every call of the uploader is counted once.  Whatever the
    server does, a call of [upload_file_to_gridfs] outside dry-run mode
    ends in one of three ways: it fails, returns [None], counts one
    more failed file and stores nothing; or it finds a file of the same
    digest, returns its id, counts one more skipped file and one more
    duplicate, and stores nothing; or it stores the bytes of the file as
    one new GridFS file, returns its id and counts one more uploaded file
    and the size given.  In dry-run mode it returns ["dry_run_id"] and
    changes nothing. *)
Theorem upload_file_to_gridfs_accounting (media_info : MediaInfo) (w : World) :
  let res := upload_file_to_gridfs hashlib_md5 gridfs_md5 guess_type
               false media_info w in
  (upload_failed res w ∨ upload_skipped res w ∨ upload_stored media_info res w)
  ∧ upload_file_to_gridfs hashlib_md5 gridfs_md5 guess_type true media_info w
    = (Ok (Some DryRunId), w).
Proof.
  intros res. split; [|done]. subst res.
  destruct w as [d c n f dk us].
  unfold upload_failed, upload_skipped, upload_stored.
  unfold upload_file_to_gridfs, try_catch, bind, read_file,
    gridfs_find_one_md5, gridfs_put, server_call, get, ret, now, fresh_oid, modify.
  simpl. destruct (dk !! mi_file_path media_info) as [content|] eqn:Ed; simpl.
  2: { left. auto. }
  destruct f as [|[msg|] rest]; simpl.
  - destruct (find (has_md5 (hashlib_md5 content)) (gridfs d)) as [g0|] eqn:Ef; simpl.
    + right. left. exists g0. repeat split. by eapply find_elem_of.
    + rewrite Ed. simpl. right. right. eexists. repeat split. done.
  - left. auto.
  - destruct (find (has_md5 (hashlib_md5 content)) (gridfs d)) as [g0|] eqn:Ef; simpl.
    + right. left. exists g0. repeat split. by eapply find_elem_of.
    + rewrite Ed. simpl. destruct rest as [|[msg|] rest]; simpl.
      * right. right. eexists. repeat split. done.
      * left. auto.
      * right. right. eexists. repeat split. done.
Qed.

End UploadFacts.

(** ** Reading a file back *)

Section ReadBack.

Variable hashlib_md5 : list Byte.byte → string.
Variable gridfs_md5 : list Byte.byte → option string.
Variable guess_type : string → option string.

(** X16. Upload, then read back.  When the server answers, no stored
    file has the digest of the bytes under [file_path], and no stored
    file has the id the driver generates next, [upload_media_file]
    stores one file [f] under that id and returns the id, and
    [get_media_file] on it returns the bytes of the file, their length,
    the name [<tweet_id>_<basename>], the content type guessed from the
    path, or [application/octet-stream] when there is no guess, and as
    upload date the [uploadDate] the driver gave [f] (the [upload_date]
    keyword of the put is kept in [f] beside it); on the ids of the
    files stored before, [get_media_file] answers as it did. *)
Theorem upload_then_get_media_file (w : World) (file_path tweet_id_ media_type_ : string)
    (content : list Byte.byte) :
  faults w = [] → disk w !! file_path = Some content →
  find (has_md5 (hashlib_md5 content)) (gridfs (db w)) = None →
  find (λ f, bool_decide (file_id f = next_oid w)) (gridfs (db w)) = None →
  let res := upload_media_file hashlib_md5 gridfs_md5 guess_type
               file_path tweet_id_ media_type_ w in
  res.1 = Ok (Some (GridId (next_oid w)))
  ∧ (∃ f, gridfs (db res.2) = gridfs (db w) ++ [f]
          ∧ file_id f = next_oid w
          ∧ upload_date (file_kwargs f) = clock w
          ∧ (get_media_file (GridId (next_oid w)) res.2).1
            = Ok (Some {| mf_content := content;
                          mf_filename := tweet_id_ +:+ "_" +:+ basename file_path;
                          mf_content_type := guess_content_type guess_type file_path;
                          mf_length := length content;
                          mf_upload_date := uploadDate f |}))
  ∧ ∀ oid, oid ≠ next_oid w →
      (get_media_file (GridId oid) res.2).1 = (get_media_file (GridId oid) w).1.
Proof.
  intros Hf Hd Hm Hi res. subst res.
  destruct w as [d c n f dk us]. simpl in Hf, Hd, Hm, Hi. subst f.
  unfold upload_media_file, get_media_file, gridfs_get, try_catch, bind,
    os_path_exists, read_file, gridfs_find_one_md5, gridfs_put, server_call, get,
    ret, raise, now, fresh_oid, modify.
  simpl. repeat (rewrite Hd; simpl). rewrite Hm. simpl.
  split; [done|]. split.
  - eexists. split; [reflexivity|]. simpl. split; [done|]. split; [done|].
    rewrite find_over_app, Hi. simpl. by rewrite bool_decide_eq_true_2.
  - intros oid Hne. rewrite find_over_app.
    destruct (find (λ f, bool_decide (file_id f = oid)) (gridfs d)); [done|].
    simpl. by rewrite bool_decide_eq_false_2.
Qed.

End ReadBack.

Lemma upload_then_get_media_file_witness :
  let md5_ := string_of_list_byte in
  let stored := λ content, Some (string_of_list_byte content) in
  let guess := λ _ : string, @None string in
  let res := upload_media_file md5_ stored guess "media/f1.jpg" "100" "photo"
               two_files_world in
  ∃ f, gridfs (db res.2) = gridfs (db two_files_world) ++ [f]
       ∧ file_id f = next_oid two_files_world
       ∧ upload_date (file_kwargs f) = clock two_files_world
       ∧ (get_media_file (GridId (next_oid two_files_world)) res.2).1
         = Ok (Some {| mf_content := abc;
                       mf_filename := "100" +:+ "_" +:+ basename "media/f1.jpg";
                       mf_content_type := guess_content_type guess "media/f1.jpg";
                       mf_length := length abc;
                       mf_upload_date := uploadDate f |}).
Proof.
  intros md5_ stored guess.
  refine (proj1 (proj2 (upload_then_get_media_file md5_ stored guess two_files_world
                          "media/f1.jpg" "100" "photo" abc _ _ _ _)));
    reflexivity.
Defined.

(** [get_media_file] never raises, and gives [None] for the dry-run
    string and for an id no file has. *)
Lemma get_media_file_unknown w :
  (get_media_file DryRunId w).1 = Ok None
  ∧ ∀ oid, find (λ f, bool_decide (file_id f = oid)) (gridfs (db w)) = None →
      (get_media_file (GridId oid) w).1 = Ok None.
Proof.
  split; [done|]. intros oid Ho.
  unfold get_media_file, gridfs_get, try_catch, bind, server_call, get, ret, raise.
  destruct (faults w) as [|[msg|] rest]; simpl; by rewrite ?Ho.
Qed.

(** ** The media of a tweet *)

Lemma set_gridfs_app g1 g2 d :
  set_gridfs (λ l, l ++ g2) (set_gridfs (λ l, l ++ g1) d)
  = set_gridfs (λ l, l ++ (g1 ++ g2)) d.
Proof. destruct d. unfold set_gridfs. simpl. by rewrite app_assoc. Qed.

Lemma set_gridfs_nil d : set_gridfs (λ l, l ++ []) d = d.
Proof. destruct d. unfold set_gridfs. simpl. by rewrite app_nil_r. Qed.

Section TweetMediaFacts.

Variable hashlib_md5 : list Byte.byte → string.
Variable gridfs_md5 : list Byte.byte → option string.
Variable guess_type : string → option string.

Lemma store_one_media_effect tweet_id_ media_file stored w :
  let res := store_one_media hashlib_md5 gridfs_md5 guess_type
               tweet_id_ media_file stored w in
  ∃ added g, res.1 = Ok (stored ++ added)
             ∧ db res.2 = set_gridfs (λ l, l ++ g) (db w)
             ∧ length added ≤ length (named_media [media_file])
             ∧ ∀ sm, sm ∈ added →
                 ∃ f, sm_gridfs_id sm = GridId (file_id f) ∧ f ∈ gridfs (db w) ++ g.
Proof.
  unfold store_one_media, named_media. simpl.
  destruct (truthy (mr_file media_file)); simpl.
  2: { exists [], []. rewrite app_nil_r, set_gridfs_nil. repeat split; auto.
       intros sm Hsm. by apply elem_of_nil in Hsm. }
  unfold bind.
  destruct (upload_media_file_effect hashlib_md5 gridfs_md5 guess_type
              (default "" (mr_file media_file)) tweet_id_
              (default "photo" (mr_type media_file)) w)
    as (r & g & Hr & Hd & Hg & Hm).
  destruct (upload_media_file _ _ _ _ _ _ w) as [r0 w1]. simpl in Hr, Hd. subst r0.
  destruct r as [ref|]; simpl.
  - eexists [_], g. repeat split; auto.
    intros sm ->%list_elem_of_singleton. simpl. exact Hm.
  - exists [], g. rewrite app_nil_r. repeat split; auto; try (simpl; lia).
    intros sm Hsm. by apply elem_of_nil in Hsm.
Qed.

Lemma store_media_loop_effect tweet_id_ media_files :
  ∀ stored w,
    let res := store_media_loop hashlib_md5 gridfs_md5 guess_type
                 tweet_id_ media_files stored w in
    ∃ added g, res.1 = Ok (stored ++ added)
               ∧ db res.2 = set_gridfs (λ l, l ++ g) (db w)
               ∧ length added ≤ length (named_media media_files)
               ∧ ∀ sm, sm ∈ added →
                   ∃ f, sm_gridfs_id sm = GridId (file_id f) ∧ f ∈ gridfs (db w) ++ g.
Proof.
  induction media_files as [|m rest IH]; intros stored w; simpl.
  { exists [], []. rewrite app_nil_r, set_gridfs_nil. repeat split; auto.
    intros sm Hsm. by apply elem_of_nil in Hsm. }
  unfold bind.
  destruct (store_one_media_effect tweet_id_ m stored w)
    as (a1 & g1 & R1 & D1 & L1 & M1).
  destruct (store_one_media _ _ _ _ _ _ w) as [r1 w1]. simpl in R1, D1. subst r1.
  destruct (IH (stored ++ a1) w1) as (a2 & g2 & R2 & D2 & L2 & M2).
  exists (a1 ++ a2), (g1 ++ g2).
  rewrite R2, D2, D1, set_gridfs_app, app_assoc. repeat split.
  - rewrite length_app. unfold named_media in *. simpl in *.
    destruct (truthy (mr_file m)); simpl in *; lia.
  - intros sm [Hsm | Hsm]%elem_of_app.
    + destruct (M1 sm Hsm) as (f & Ef & Hf). exists f. split; [done|].
      rewrite app_assoc. apply elem_of_app. by left.
    + destruct (M2 sm Hsm) as (f & Ef & Hf). exists f. split; [done|].
      rewrite D1 in Hf. simpl in Hf. by rewrite app_assoc.
Qed.

(** X17. [store_media_for_tweet], whatever the server does: it raises
    nothing and returns the tweet with only ['media_files_gridfs'] and
    ['has_media_gridfs'] written; a tweet whose ['tweet_id'] is absent or
    empty is returned as it is and nothing happens.  Otherwise
    ['has_media_gridfs'] tells whether the list is non-empty, the list
    has at most one entry per media entry that names a file, every entry
    refers to a file the store holds after the call, and the files stored
    before are still in place. *)
Theorem store_media_for_tweet_safe (tweet : Tweet) (w : World) :
  let res := store_media_for_tweet hashlib_md5 gridfs_md5 guess_type tweet w in
  (truthy (tw_tweet_id tweet) = false → res = (Ok tweet, w))
  ∧ gridfs (db w) `prefix_of` gridfs (db res.2)
  ∧ ∃ t', res.1 = Ok t'
          ∧ tweet_core t' = tweet_core tweet
          ∧ (truthy (tw_tweet_id tweet) = true →
               ∃ stored,
                 tw_media_files_gridfs t' = Some stored
                 ∧ tw_has_media_gridfs t' = Some (0 <? length stored)
                 ∧ length stored ≤ length (named_media (tw_media_files tweet))
                 ∧ ∀ sm, sm ∈ stored →
                     ∃ f, sm_gridfs_id sm = GridId (file_id f)
                          ∧ f ∈ gridfs (db res.2)).
Proof.
  intros res. subst res. unfold store_media_for_tweet.
  destruct (truthy (tw_tweet_id tweet)) eqn:Ht; simpl.
  { split; [done|]. unfold bind.
    destruct (store_media_loop_effect (default "" (tw_tweet_id tweet))
                (tw_media_files tweet) [] w) as (added & g & R & D & L & Hm).
    destruct (store_media_loop _ _ _ _ _ _ w) as [r w1]. simpl in R, D. subst r.
    simpl. rewrite D. simpl. split; [by apply prefix_app_r|].
    eexists. split; [done|]. split; [done|]. intros _.
    exists added. repeat split; done. }
  split; [done|]. split; [done|]. exists tweet. repeat split; done.
Qed.

Lemma upload_media_file_returns file_path tweet_id_ media_type_ content w :
  faults w = [] → disk w !! file_path = Some content →
  let res := upload_media_file hashlib_md5 gridfs_md5 guess_type
               file_path tweet_id_ media_type_ w in
  (∃ ref, res.1 = Ok (Some ref)) ∧ faults res.2 = [] ∧ disk res.2 = disk w.
Proof.
  intros Hf Hd. destruct w as [d c n f dk us]. simpl in Hf, Hd. subst f.
  unfold upload_media_file, try_catch, bind, os_path_exists, read_file,
    gridfs_find_one_md5, gridfs_put, server_call, get, ret, now, fresh_oid, modify.
  simpl. repeat (rewrite Hd; simpl).
  destruct (find (has_md5 (hashlib_md5 content)) (gridfs d)); simpl; eauto.
Qed.

Lemma store_media_loop_complete tweet_id_ media_files :
  ∀ stored w,
    faults w = [] →
    Forall (λ m, truthy (mr_file m) = true →
                 is_Some (disk w !! default "" (mr_file m))) media_files →
    let res := store_media_loop hashlib_md5 gridfs_md5 guess_type
                 tweet_id_ media_files stored w in
    ∃ added, res.1 = Ok (stored ++ added)
             ∧ sm_original_filename <$> added
               = (λ m, basename (default "" (mr_file m))) <$> named_media media_files
             ∧ sm_type <$> added
               = (λ m, default "photo" (mr_type m)) <$> named_media media_files
             ∧ sm_size <$> added
               = (λ m, default 0%Z (mr_size m)) <$> named_media media_files.
Proof.
  induction media_files as [|m rest IH]; intros stored w Hf Hall; simpl.
  { exists []. by rewrite app_nil_r. }
  apply Forall_cons in Hall as [Hm Hrest].
  unfold bind, store_one_media, named_media. simpl.
  destruct (truthy (mr_file m)) eqn:Ht; simpl.
  - destruct (Hm eq_refl) as [content Hc]. unfold bind.
    destruct (upload_media_file_returns (default "" (mr_file m)) tweet_id_
                (default "photo" (mr_type m)) content w Hf Hc)
      as ([ref Hr] & Hf1 & Hd1).
    destruct (upload_media_file _ _ _ _ _ _ w) as [r w1]. simpl in Hr, Hf1, Hd1.
    subst r. simpl.
    assert (Hrest1 : Forall (λ m, truthy (mr_file m) = true →
                               is_Some (disk w1 !! default "" (mr_file m))) rest)
      by (by rewrite Hd1).
    match goal with
    | |- context [store_media_loop _ _ _ _ rest ?st w1] =>
        destruct (IH st w1 Hf1 Hrest1) as (added & R & N & T & S1)
    end.
    rewrite R. eexists (_ :: added). rewrite <- app_assoc. simpl.
    split; [done|]. split; [|split]; simpl; f_equal; [exact N | exact T | exact S1].
  - destruct (IH stored w Hf Hrest) as (added & R & N & T & S1).
    exists added. done.
Qed.

(** X18. When the server answers and every media entry that names a file
    names one that exists, [store_media_for_tweet] on a tweet with a
    ['tweet_id'] gives exactly one entry per such media entry, in the
    order of ['media_files']: each with the base name of the path as
    ['original_filename'], and the ['type'] and ['size'] of the media
    entry, ['photo'] and 0 when absent; entries without a file are
    skipped. *)
Theorem store_media_for_tweet_complete (tweet : Tweet) (w : World) :
  faults w = [] → truthy (tw_tweet_id tweet) = true →
  Forall (λ m, truthy (mr_file m) = true →
               is_Some (disk w !! default "" (mr_file m))) (tw_media_files tweet) →
  ∃ t' stored,
    (store_media_for_tweet hashlib_md5 gridfs_md5 guess_type tweet w).1 = Ok t'
    ∧ tw_media_files_gridfs t' = Some stored
    ∧ tw_has_media_gridfs t'
      = Some (0 <? length (named_media (tw_media_files tweet)))
    ∧ sm_original_filename <$> stored
      = (λ m, basename (default "" (mr_file m))) <$> named_media (tw_media_files tweet)
    ∧ sm_type <$> stored
      = (λ m, default "photo" (mr_type m)) <$> named_media (tw_media_files tweet)
    ∧ sm_size <$> stored
      = (λ m, default 0%Z (mr_size m)) <$> named_media (tw_media_files tweet).
Proof.
  intros Hf Ht Hall. unfold store_media_for_tweet. rewrite Ht. simpl. unfold bind.
  destruct (store_media_loop_complete (default "" (tw_tweet_id tweet))
              (tw_media_files tweet) [] w Hf Hall) as (added & R & N & T & S1).
  destruct (store_media_loop _ _ _ _ _ _ w) as [r w1]. simpl in R. subst r. simpl.
  exists (set_media_gridfs added tweet), added. repeat split; try done.
  simpl. do 2 f_equal.
  by rewrite <- (length_fmap sm_original_filename), N, length_fmap.
Qed.

End TweetMediaFacts.

Lemma store_media_for_tweet_complete_witness :
  let md5_ := string_of_list_byte in
  let stored_md5 := λ content, Some (string_of_list_byte content) in
  let guess := λ _ : string, @None string in
  ∃ t' stored,
    (store_media_for_tweet md5_ stored_md5 guess tweet_with_media two_files_world).1
    = Ok t'
    ∧ tw_media_files_gridfs t' = Some stored
    ∧ tw_has_media_gridfs t'
      = Some (0 <? length (named_media (tw_media_files tweet_with_media)))
    ∧ sm_original_filename <$> stored
      = (λ m, basename (default "" (mr_file m)))
          <$> named_media (tw_media_files tweet_with_media)
    ∧ sm_type <$> stored
      = (λ m, default "photo" (mr_type m))
          <$> named_media (tw_media_files tweet_with_media)
    ∧ sm_size <$> stored
      = (λ m, default 0%Z (mr_size m))
          <$> named_media (tw_media_files tweet_with_media).
Proof.
  intros md5_ stored_md5 guess.
  apply (store_media_for_tweet_complete md5_ stored_md5 guess
           tweet_with_media two_files_world); [reflexivity | reflexivity |].
  repeat constructor; intros H; try discriminate H; by eexists.
Defined.

(** ** The twitter manager *)

(** Case analysis on the fault schedule and on the index look-ups of the
    goal. *)
Ltac split_faults :=
  repeat first
    [ match goal with
      | |- context [match ?l with [] => _ | _ :: _ => _ end] =>
          is_var l; destruct l as [|[?|] ?]; simpl
      end
    | match goal with
      | |- context [existsb ?p ?l] => destruct (existsb p l) eqn:?; simpl
      end ].

Section TwitterFacts.

Variable hashlib_md5 : list Byte.byte → string.
Variable gridfs_md5 : list Byte.byte → option string.
Variable guess_type : string → option string.

Lemma store_media_for_tweet_returns (tweet : Tweet) (w : World) :
  let res := store_media_for_tweet hashlib_md5 gridfs_md5 guess_type tweet w in
  ∃ t', res.1 = Ok t' ∧ tweet_core t' = tweet_core tweet
        ∧ gridfs (db w) `prefix_of` gridfs (db res.2).
Proof.
  intros res. subst res. unfold store_media_for_tweet.
  destruct (truthy (tw_tweet_id tweet)); simpl.
  - unfold bind.
    destruct (store_media_loop_effect hashlib_md5 gridfs_md5 guess_type
                (default "" (tw_tweet_id tweet))
                (tw_media_files tweet) [] w) as (added & g & R & D & L & Hm).
    destruct (store_media_loop _ _ _ _ _ _ w) as [r w1]. simpl in R, D. subst r.
    simpl. rewrite D. simpl. eexists. split; [done|]. split; [done|].
    by apply prefix_app_r.
  - by exists tweet.
Qed.

Lemma upload_media_file_quiet file_path tweet_id_ media_type_ w :
  faults w = [] →
  faults (upload_media_file hashlib_md5 gridfs_md5 guess_type
            file_path tweet_id_ media_type_ w).2 = [].
Proof.
  intros Hf. destruct w as [d c n f dk us]. simpl in Hf. subst f.
  unfold upload_media_file, try_catch, bind, os_path_exists, read_file,
    gridfs_find_one_md5, gridfs_put, server_call, get, ret, now, fresh_oid, modify.
  simpl. destruct (dk !! file_path) as [content|] eqn:Hd; simpl; [|done].
  repeat (rewrite Hd; simpl).
  destruct (find (has_md5 (hashlib_md5 content)) (gridfs d)); simpl; done.
Qed.

Lemma store_media_loop_quiet tweet_id_ media_files :
  ∀ stored w, faults w = [] →
    faults (store_media_loop hashlib_md5 gridfs_md5 guess_type
              tweet_id_ media_files stored w).2 = [].
Proof.
  induction media_files as [|m rest IH]; intros stored w Hf; simpl; [done|].
  unfold bind, store_one_media.
  destruct (truthy (mr_file m)); simpl; [|by apply IH].
  unfold bind.
  pose proof (upload_media_file_quiet (default "" (mr_file m)) tweet_id_
                (default "photo" (mr_type m)) w Hf) as Hq.
  destruct (upload_media_file_effect hashlib_md5 gridfs_md5 guess_type
              (default "" (mr_file m)) tweet_id_
              (default "photo" (mr_type m)) w) as (r & g & Hr & _).
  destruct (upload_media_file _ _ _ _ _ _ w) as [r0 w1]. simpl in Hr, Hq. subst r0.
  destruct r; simpl; by apply IH.
Qed.

Lemma store_media_for_tweet_quiet tweet w :
  faults w = [] →
  faults (store_media_for_tweet hashlib_md5 gridfs_md5 guess_type tweet w).2 = [].
Proof.
  intros Hf. unfold store_media_for_tweet.
  destruct (truthy (tw_tweet_id tweet)); simpl; [|done].
  unfold bind.
  pose proof (store_media_loop_quiet (default "" (tw_tweet_id tweet))
                (tw_media_files tweet) [] w Hf) as Hq.
  destruct (store_media_loop_effect hashlib_md5 gridfs_md5 guess_type
              (default "" (tw_tweet_id tweet))
              (tw_media_files tweet) [] w) as (added & g & R & _).
  destruct (store_media_loop _ _ _ _ _ _ w) as [r w1]. simpl in R, Hq. by subst r.
Qed.


Lemma existsb_tweet_id (i : option string) (tws : list TweetDoc) :
  existsb (has_tweet_id i) tws = true
  ↔ i ∈ (λ d, tw_tweet_id (tweet_doc d)) <$> tws.
Proof.
  rewrite existsb_exists, list_elem_of_fmap. unfold has_tweet_id.
  split.
  - intros (d & Hd & E). apply bool_decide_eq_true in E.
    exists d. split; [done|]. by apply list_elem_of_In.
  - intros (d & E & Hd). exists d. split; [by apply list_elem_of_In|].
    by apply bool_decide_eq_true.
Qed.

(** The part of [add_tweet] from the insert on. *)
Lemma file_tweet_effect (i : string) (tweet2 : Tweet) (tw : TwitterWorld) :
  let res :=
    tbind (tweets_insert_one tweet2) (λ oid,
      tbind (twitter_update_stats 1
               (py_or (tw_username tweet2) (tw_original_author tweet2))
               (tw_keyword tweet2)) (λ _,
        tbind tweets_count_documents (λ total_,
          tret (tweet_success i total_
                  (length (default [] (tw_media_files_gridfs tweet2))) oid)))) tw in
  twitter_users_collection res.2 = twitter_users_collection tw
  ∧ db (base res.2) = db (base tw)
  ∧ match res.1 with
    | Ok r =>
        (tw_tweet_id tweet2 ∉ tweet_ids tw)
        ∧ ∃ oid, tweets_collection res.2
                 = tweets_collection tw ++ [{| tweet_doc_id := oid; tweet_doc := tweet2 |}]
                 ∧ r = tweet_success i (S (length (tweets_collection tw)))
                         (length (default [] (tw_media_files_gridfs tweet2))) oid
    | Raise (DuplicateKeyError _) =>
        tw_tweet_id tweet2 ∈ tweet_ids tw
        ∧ tweets_collection res.2 = tweets_collection tw
        ∧ twitter_stats_collection res.2 = twitter_stats_collection tw
    | Raise _ =>
        tweets_collection res.2 = tweets_collection tw
        ∨ ((tw_tweet_id tweet2 ∉ tweet_ids tw)
           ∧ ∃ oid, tweets_collection res.2
                    = tweets_collection tw
                      ++ [{| tweet_doc_id := oid; tweet_doc := tweet2 |}])
    end.
Proof.
  intros res. subst res. destruct tw as [tws us st b]. destruct b as [d c n f dk us0].
  unfold tweet_ids. simpl.
  unfold tweets_insert_one, twitter_update_stats, twitter_stats_upsert,
    tweets_count_documents, ttry, tbind, lift, server_call, now, fresh_oid,
    tget, tmodify, tret, traise, set_base, set_tweets, set_twitter_stats.
  simpl.
  assert (Hin : existsb (has_tweet_id (tw_tweet_id tweet2)) tws = true
                → tw_tweet_id tweet2 ∈ (λ d, tw_tweet_id (tweet_doc d)) <$> tws)
    by apply existsb_tweet_id.
  assert (Hout : existsb (has_tweet_id (tw_tweet_id tweet2)) tws = false
                 → tw_tweet_id tweet2 ∉ (λ d, tw_tweet_id (tweet_doc d)) <$> tws).
  { intros E H. apply existsb_tweet_id in H. congruence. }
  split_faults;
    repeat split; eauto; rewrite ?length_app; simpl;
    try (right; split; eauto);
    try (eexists; split; [reflexivity|]; do 2 f_equal; lia).
Qed.

Lemma add_tweet_effect (tweet : Tweet) (tw : TwitterWorld) :
  let res := add_tweet hashlib_md5 gridfs_md5 guess_type tweet tw in
  ∃ r, res.1 = Ok r
    ∧ twitter_users_collection res.2 = twitter_users_collection tw
    ∧ gridfs (db (base tw)) `prefix_of` gridfs (db (base res.2))
    ∧ ((tweets_collection res.2 = tweets_collection tw
        ∧ is_tweet_success r = false
        ∧ (is_tweet_duplicate r = true →
             filed_id tweet ∈ tweet_ids tw
             ∧ twitter_stats_collection res.2 = twitter_stats_collection tw))
       ∨ (∃ d, tweets_collection res.2 = tweets_collection tw ++ [d]
            ∧ tw_tweet_id (tweet_doc d) = filed_id tweet
            ∧ truthy (filed_id tweet) = true
            ∧ (filed_id tweet ∉ tweet_ids tw)
            ∧ is_tweet_duplicate r = false)).
Proof.
  intros res. destruct tw as [tws us st b].
  remember (add_tweet hashlib_md5 gridfs_md5 guess_type tweet
              {| tweets_collection := tws; twitter_users_collection := us;
                 twitter_stats_collection := st; base := b |}) as res0 eqn:E.
  subst res. unfold add_tweet in E. fold (filed_id tweet) in E.
  destruct (truthy (filed_id tweet)) eqn:Ht; simpl in E.
  2: { subst res0. eexists. split; [done|]. split; [done|]. split; [done|].
       left. done. }
  unfold ttry, tbind at 1 in E.
  assert (Hgo : ∀ (stamp_ : option Timestamp) (tw1 : TwitterWorld),
    tweets_collection tw1 = tws → twitter_users_collection tw1 = us →
    twitter_stats_collection tw1 = st → db (base tw1) = db b →
    let res :=
      tbind (if tw_has_media tweet && negb (bool_decide (tw_media_files tweet = []))
             then lift (store_media_for_tweet hashlib_md5 gridfs_md5 guess_type
                          (with_id_and_stamp tweet (filed_id tweet) stamp_))
             else tret (with_id_and_stamp tweet (filed_id tweet) stamp_))
        (λ tweet2,
           tbind (tweets_insert_one tweet2) (λ oid,
             tbind (twitter_update_stats 1
                      (py_or (tw_username tweet2) (tw_original_author tweet2))
                      (tw_keyword tweet2)) (λ _,
               tbind tweets_count_documents (λ total_,
                 tret (tweet_success (default "" (filed_id tweet)) total_
                         (length (default [] (tw_media_files_gridfs tweet2)))
                         oid))))) tw1 in
    twitter_users_collection res.2 = us
    ∧ gridfs (db b) `prefix_of` gridfs (db (base res.2))
    ∧ match res.1 with
      | Ok r => is_tweet_success r = true
                ∧ (filed_id tweet ∉ (λ d, tw_tweet_id (tweet_doc d)) <$> tws)
                ∧ ∃ d, tweets_collection res.2 = tws ++ [d]
                       ∧ tw_tweet_id (tweet_doc d) = filed_id tweet
      | Raise (DuplicateKeyError _) =>
          filed_id tweet ∈ (λ d, tw_tweet_id (tweet_doc d)) <$> tws
          ∧ tweets_collection res.2 = tws
          ∧ twitter_stats_collection res.2 = st
      | Raise _ =>
          tweets_collection res.2 = tws
          ∨ ((filed_id tweet ∉ (λ d, tw_tweet_id (tweet_doc d)) <$> tws)
             ∧ ∃ d, tweets_collection res.2 = tws ++ [d]
                    ∧ tw_tweet_id (tweet_doc d) = filed_id tweet)
      end).
  { intros stamp_ tw1 E1 E2 E3 E4. unfold tbind at 1.
    assert (Hmedia : ∃ t' tw2,
      (if tw_has_media tweet && negb (bool_decide (tw_media_files tweet = []))
       then lift (store_media_for_tweet hashlib_md5 gridfs_md5 guess_type
                    (with_id_and_stamp tweet (filed_id tweet) stamp_))
       else tret (with_id_and_stamp tweet (filed_id tweet) stamp_)) tw1
      = (Ok t', tw2)
      ∧ tw_tweet_id t' = filed_id tweet
      ∧ tweets_collection tw2 = tws ∧ twitter_users_collection tw2 = us
      ∧ twitter_stats_collection tw2 = st
      ∧ gridfs (db b) `prefix_of` gridfs (db (base tw2))).
    { destruct (tw_has_media tweet && negb (bool_decide (tw_media_files tweet = []))).
      - unfold lift.
        destruct (store_media_for_tweet_returns
                    (with_id_and_stamp tweet (filed_id tweet) stamp_) (base tw1))
          as (t' & R & C & P).
        destruct (store_media_for_tweet _ _ _ _ (base tw1)) as [r w1].
        simpl in R, P. subst r. eexists _, _. split; [reflexivity|].
        simpl. rewrite E4 in P. repeat split; try done.
        unfold tweet_core in C. by injection C.
      - eexists _, _. split; [reflexivity|]. simpl. by rewrite E4. }
    destruct Hmedia as (t' & tw2 & -> & Hid & F1 & F2 & F3 & F4).
    pose proof (file_tweet_effect (default "" (filed_id tweet)) t' tw2) as H.
    cbv zeta in H. unfold tweet_ids in H. rewrite Hid, F1, F2 in H.
    match goal with
    | |- context [tbind (tweets_insert_one t') ?k tw2] =>
        destruct (tbind (tweets_insert_one t') k tw2) as [r tw3]
    end.
    simpl in H |- *. destruct H as (H1 & H2 & H3).
    split; [done|]. split; [by rewrite H2|].
    destruct r as [r|[m|m|m]].
    - destruct H3 as (Hn & oid & Hc & ->). split; [done|]. split; [done|].
      eexists. split; [exact Hc|]. done.
    - destruct H3 as (Hi & Hc & Hs). rewrite F3 in Hs. done.
    - destruct H3 as [Hc | (Hn & oid & Hc)]; [by left|right].
      split; [done|]. eexists. split; [exact Hc|]. done.
    - destruct H3 as [Hc | (Hn & oid & Hc)]; [by left|right].
      split; [done|]. eexists. split; [exact Hc|]. done. }
  assert (Hend : ∃ stamp_ tw1,
    match tw_scraped_at tweet with
    | Some t => tret (Some t)
    | None => tbind (lift now) (λ t, tret (Some t))
    end {| tweets_collection := tws; twitter_users_collection := us;
           twitter_stats_collection := st; base := b |} = (Ok stamp_, tw1)
    ∧ tweets_collection tw1 = tws ∧ twitter_users_collection tw1 = us
    ∧ twitter_stats_collection tw1 = st ∧ db (base tw1) = db b).
  { destruct (tw_scraped_at tweet); eexists _, _; (split; [reflexivity|done]). }
  destruct Hend as (stamp_ & tw1 & E0 & E1 & E2 & E3 & E4).
  rewrite E0 in E.
  pose proof (Hgo stamp_ tw1 E1 E2 E3 E4) as H. cbv zeta in H.
  match type of E with
  | context [tbind ?m ?k tw1] => destruct (tbind m k tw1) as [r tw3]
  end.
  simpl in H. destruct H as (H1 & H2 & H3). unfold tweet_ids. simpl.
  destruct r as [r|[m|m|m]]; subst res0; simpl.
  - destruct H3 as (Hs & Hn & d & Hc & Hi). exists r.
    split; [done|]. split; [done|]. split; [done|].
    right. exists d. repeat split; try done. by destruct r.
  - destruct H3 as (Hi & Hc & Hs). eexists.
    split; [done|]. split; [done|]. split; [done|]. left. done.
  - eexists. split; [done|]. split; [done|]. split; [done|].
    destruct H3 as [Hc | (Hn & d & Hc & Hi)]; [by left|right].
    exists d. done.
  - eexists. split; [done|]. split; [done|]. split; [done|].
    destruct H3 as [Hc | (Hn & d & Hc & Hi)]; [by left|right].
    exists d. done.
Qed.

(** What [add_tweet] does to a tweet that has an id: it stamps it, stores
    its media, and runs the insert, the update of the statistics and the
    count under the two handlers. *)
Lemma add_tweet_shape (tweet : Tweet) (tw : TwitterWorld) :
  truthy (filed_id tweet) = true →
  ∃ t' tw2,
    add_tweet hashlib_md5 gridfs_md5 guess_type tweet tw
    = ttry
        (tbind (tweets_insert_one t') (λ oid,
           tbind (twitter_update_stats 1
                    (py_or (tw_username t') (tw_original_author t'))
                    (tw_keyword t')) (λ _,
             tbind tweets_count_documents (λ total_,
               tret (tweet_success (default "" (filed_id tweet)) total_
                       (length (default [] (tw_media_files_gridfs t'))) oid)))))
        (λ e, match e with
              | DuplicateKeyError _ =>
                  tret (tweet_duplicate (default "" (filed_id tweet)))
              | _ => tret (tweet_error (exn_str e))
              end) tw2
    ∧ tw_tweet_id t' = filed_id tweet
    ∧ tw_username t' = tw_username tweet
    ∧ tw_original_author t' = tw_original_author tweet
    ∧ tw_keyword t' = tw_keyword tweet
    ∧ tw_scraped_at t' = Some (default (clock (base tw)) (tw_scraped_at tweet))
    ∧ tweets_collection tw2 = tweets_collection tw
    ∧ twitter_users_collection tw2 = twitter_users_collection tw
    ∧ twitter_stats_collection tw2 = twitter_stats_collection tw
    ∧ gridfs (db (base tw)) `prefix_of` gridfs (db (base tw2))
    ∧ (faults (base tw) = [] → faults (base tw2) = []).
Proof.
  intros Ht. destruct tw as [tws us st b].
  remember (add_tweet hashlib_md5 gridfs_md5 guess_type tweet
              {| tweets_collection := tws; twitter_users_collection := us;
                 twitter_stats_collection := st; base := b |}) as res0 eqn:E.
  unfold add_tweet in E. fold (filed_id tweet) in E. rewrite Ht in E. simpl in E.
  unfold ttry, tbind at 1 in E.
  assert (Hend : ∃ stamp_ tw1,
    match tw_scraped_at tweet with
    | Some t => tret (Some t)
    | None => tbind (lift now) (λ t, tret (Some t))
    end {| tweets_collection := tws; twitter_users_collection := us;
           twitter_stats_collection := st; base := b |} = (Ok stamp_, tw1)
    ∧ stamp_ = Some (default (clock b) (tw_scraped_at tweet))
    ∧ tweets_collection tw1 = tws ∧ twitter_users_collection tw1 = us
    ∧ twitter_stats_collection tw1 = st ∧ db (base tw1) = db b
    ∧ faults (base tw1) = faults b).
  { destruct (tw_scraped_at tweet); eexists _, _; (split; [reflexivity|done]). }
  destruct Hend as (stamp_ & tw1 & E0 & Es & E1 & E2 & E3 & E4 & E5).
  rewrite E0 in E. unfold tbind at 1 in E.
  destruct (tw_has_media tweet && negb (bool_decide (tw_media_files tweet = []))).
  - unfold lift at 1 in E.
    destruct (store_media_for_tweet_returns
                (with_id_and_stamp tweet (filed_id tweet) stamp_) (base tw1))
      as (t' & R & C & P).
    pose proof (store_media_for_tweet_quiet
                  (with_id_and_stamp tweet (filed_id tweet) stamp_) (base tw1)) as Q.
    destruct (store_media_for_tweet _ _ _ _ (base tw1)) as [r w1].
    simpl in R, P, Q. subst r. unfold tweet_core in C. simpl in C.
    injection C as C1 C2 C3 C4 C5 C6 C7 C8 C9.
    exists t', (set_base (λ _, w1) tw1). split; [exact E|]. simpl.
    rewrite E4 in P. rewrite E5 in Q. subst stamp_. repeat split; done.
  - exists (with_id_and_stamp tweet (filed_id tweet) stamp_), tw1.
    split; [exact E|]. simpl. rewrite E4, E5. subst stamp_. repeat split; done.
Qed.

Lemma file_tweet_nofault (i : string) (tweet2 : Tweet) (tw : TwitterWorld)
    (h : exn → T TweetOutcome) :
  faults (base tw) = [] →
  let res :=
    ttry
      (tbind (tweets_insert_one tweet2) (λ oid,
         tbind (twitter_update_stats 1
                  (py_or (tw_username tweet2) (tw_original_author tweet2))
                  (tw_keyword tweet2)) (λ _,
           tbind tweets_count_documents (λ total_,
             tret (tweet_success i total_
                     (length (default [] (tw_media_files_gridfs tweet2))) oid)))))
      h tw in
  (tw_tweet_id tweet2 ∈ tweet_ids tw →
     res = h (DuplicateKeyError
                "E11000 duplicate key error collection: tweets index: tweet_id_1") tw)
  ∧ ((tw_tweet_id tweet2 ∉ tweet_ids tw) →
     res.1 = Ok (tweet_success i (S (length (tweets_collection tw)))
                   (length (default [] (tw_media_files_gridfs tweet2)))
                   (next_oid (base tw)))
     ∧ tweets_collection res.2
       = tweets_collection tw
         ++ [{| tweet_doc_id := next_oid (base tw); tweet_doc := tweet2 |}]
     ∧ twitter_users_collection res.2 = twitter_users_collection tw
     ∧ twitter_stats_collection res.2
       = Some (tweet_stats_update 1
                 (py_or (tw_username tweet2) (tw_original_author tweet2))
                 (tw_keyword tweet2) (clock (base tw))
                 (default empty_twitter_stats (twitter_stats_collection tw)))
     ∧ faults (base res.2) = []).
Proof.
  intros Hf res. subst res. destruct tw as [tws us st b].
  destruct b as [d c n f dk us0]. simpl in Hf. subst f.
  unfold tweet_ids. simpl.
  unfold tweets_insert_one, twitter_update_stats, twitter_stats_upsert,
    tweets_count_documents, ttry, tbind, lift, server_call, now, fresh_oid,
    tget, tmodify, tret, traise, set_base, set_tweets, set_twitter_stats.
  simpl.
  destruct (existsb (has_tweet_id (tw_tweet_id tweet2)) tws) eqn:Ex; simpl.
  - split; [done|]. intros Hn. exfalso. apply Hn. by apply existsb_tweet_id.
  - split.
    + intros Hi. apply existsb_tweet_id in Hi. congruence.
    + intros _. rewrite length_app. simpl. repeat split; try done.
      do 2 f_equal. lia.
Qed.

Lemma counter_of_inc_key (o : option (gmap string Z)) (k k' : string) (n : Z) :
  counter_of (inc_key k n o) k'
  = (counter_of o k' + (if bool_decide (k = k') then n else 0))%Z.
Proof.
  unfold counter_of, inc_key. simpl. case_bool_decide as E.
  - subst k'. by rewrite lookup_insert_eq.
  - rewrite lookup_insert_ne by done. lia.
Qed.

Lemma counter_after_inc (o : option string) (m : option (gmap string Z)) (k : string) :
  counter_of (if truthy o then inc_key (default "" o) 1 m else m) k
  = (counter_of m k
     + (if truthy o && bool_decide (o = Some k) then 1 else 0))%Z.
Proof.
  destruct (truthy o) eqn:Ht; simpl; [|lia].
  rewrite counter_of_inc_key. destruct o as [s|]; [|done]. simpl.
  repeat case_bool_decide; try lia; congruence.
Qed.

(** X19. A tweet with a new id, when the server answers and the user
    and the keyword the tweet names are each one component of an update
    path (no dot, no leading dollar sign, no null character).  [add_tweet]
    reports success with the id the tweet is filed under (its
    ['tweet_id'], or its ['id'] when that is absent or empty), the number
    of tweets then stored, the number of its media entries kept in GridFS
    and the id of the new document.  The document is appended to the
    collection with ['tweet_id'] set and with a ['scraped_at'], the
    tweet's own when it has one; the statistics count one more tweet in
    all, one more for the user the tweet names (its ['username'], or its
    ['original_author']) and for its keyword, and one more keyword
    search when it has a keyword; the tracked users are untouched. *)
Theorem add_tweet_new (tweet : Tweet) (tw : TwitterWorld) :
  faults (base tw) = [] →
  truthy (filed_id tweet) = true →
  filed_id tweet ∉ tweet_ids tw →
  plain_key (default "" (filed_user tweet)) = true →
  plain_key (default "" (tw_keyword tweet)) = true →
  let res := add_tweet hashlib_md5 gridfs_md5 guess_type tweet tw in
  ∃ d, tweets_collection res.2 = tweets_collection tw ++ [d]
    ∧ res.1 = Ok (tweet_success (default "" (filed_id tweet))
                    (S (length (tweets_collection tw)))
                    (length (default [] (tw_media_files_gridfs (tweet_doc d))))
                    (tweet_doc_id d))
    ∧ tw_tweet_id (tweet_doc d) = filed_id tweet
    ∧ tw_scraped_at (tweet_doc d)
      = Some (default (clock (base tw)) (tw_scraped_at tweet))
    ∧ twitter_users_collection res.2 = twitter_users_collection tw
    ∧ total_tweets_of res.2 = (total_tweets_of tw + 1)%Z
    ∧ (∀ u, tweets_of_user res.2 u
            = (tweets_of_user tw u
               + (if truthy (filed_user tweet)
                     && bool_decide (filed_user tweet = Some u)
                  then 1 else 0))%Z)
    ∧ (∀ k, tweets_of_keyword res.2 k
            = (tweets_of_keyword tw k
               + (if truthy (tw_keyword tweet)
                     && bool_decide (tw_keyword tweet = Some k)
                  then 1 else 0))%Z)
    ∧ keyword_searches_of res.2
      = (keyword_searches_of tw + (if truthy (tw_keyword tweet) then 1 else 0))%Z
    ∧ faults (base res.2) = [].
Proof.
  intros Hf Ht Hn _ _ res. subst res.
  destruct (add_tweet_shape tweet tw Ht)
    as (t' & tw2 & -> & I1 & I2 & I3 & I4 & I5 & F1 & F2 & F3 & F4 & F5).
  match goal with
  | |- context [ttry ?m ?h tw2] =>
      destruct (file_tweet_nofault (default "" (filed_id tweet)) t' tw2 h (F5 Hf))
        as [_ Hnew]
  end.
  unfold tweet_ids in Hnew, Hn. rewrite I1, F1 in Hnew.
  destruct (Hnew Hn) as (R & C & U & S1 & Q). clear Hnew.
  eexists. split; [exact C|]. split; [exact R|]. simpl.
  split; [done|]. split; [done|]. split; [by rewrite U|].
  unfold total_tweets_of, tweets_of_user, tweets_of_keyword, keyword_searches_of,
    stats_or_empty, filed_user.
  rewrite Q, S1, F3, I2, I3, I4. simpl.
  split; [done|]. split; [intros u; apply counter_after_inc|].
  split; [intros k; apply counter_after_inc|]. split; [|done].
  destruct (truthy (tw_keyword tweet)); simpl; lia.
Qed.

(** X20. A tweet whose id is stored already, when the server answers.
    [add_tweet] reports a duplicate under that id and leaves the tweets,
    the tracked users and the statistics as they were; the files GridFS
    holds stay in place (the media of the tweet are handled before the
    insert is tried, so files may have been added). *)
Theorem add_tweet_again (tweet : Tweet) (tw : TwitterWorld) :
  faults (base tw) = [] →
  truthy (filed_id tweet) = true →
  filed_id tweet ∈ tweet_ids tw →
  let res := add_tweet hashlib_md5 gridfs_md5 guess_type tweet tw in
  res.1 = Ok (tweet_duplicate (default "" (filed_id tweet)))
  ∧ tweets_collection res.2 = tweets_collection tw
  ∧ twitter_users_collection res.2 = twitter_users_collection tw
  ∧ twitter_stats_collection res.2 = twitter_stats_collection tw
  ∧ gridfs (db (base tw)) `prefix_of` gridfs (db (base res.2))
  ∧ faults (base res.2) = [].
Proof.
  intros Hf Ht Hi res. subst res.
  destruct (add_tweet_shape tweet tw Ht)
    as (t' & tw2 & -> & I1 & I2 & I3 & I4 & I5 & F1 & F2 & F3 & F4 & F5).
  match goal with
  | |- context [ttry ?m ?h tw2] =>
      destruct (file_tweet_nofault (default "" (filed_id tweet)) t' tw2 h (F5 Hf))
        as [Hdup _]
  end.
  unfold tweet_ids in Hdup, Hi. rewrite I1, F1 in Hdup.
  rewrite (Hdup Hi). simpl. repeat split; auto.
Qed.

Lemma add_tweets_loop_effect (tweets : list Tweet) :
  ∀ (results : TweetBatchSummary) (tw : TwitterWorld),
    let res := add_tweets_loop hashlib_md5 gridfs_md5 guess_type tweets results tw in
    ∃ s, res.1 = Ok s
      ∧ tb_total s = tb_total results
      ∧ tb_added s + tb_duplicates s + tb_errors s
        = tb_added results + tb_duplicates results + tb_errors results + length tweets
      ∧ tb_errors results ≤ tb_errors s
      ∧ length (tweets_collection tw) + tb_added s
        ≤ length (tweets_collection res.2) + tb_added results
      ∧ length (tweets_collection res.2) + tb_added results + tb_errors results
        ≤ length (tweets_collection tw) + tb_added s + tb_errors s
      ∧ tweets_collection tw `prefix_of` tweets_collection res.2
      ∧ twitter_users_collection res.2 = twitter_users_collection tw
      ∧ gridfs (db (base tw)) `prefix_of` gridfs (db (base res.2))
      ∧ (tweets_ok tw → tweets_ok res.2).
Proof.
  induction tweets as [|tweet rest IH]; intros results tw; simpl.
  { exists results. split_and!; try done; lia. }
  unfold tbind.
  destruct (add_tweet_effect tweet tw) as (r & R & U & G & Hcases).
  destruct (add_tweet hashlib_md5 gridfs_md5 guess_type tweet tw) as [r0 tw1].
  simpl in R, U, G, Hcases. subst r0.
  destruct (IH (tweet_tally results r) tw1)
    as (s & S0 & S1 & S2 & S3 & S4 & S5 & S6 & S7 & S8 & S9).
  exists s. split; [exact S0|]. rewrite S7, U.
  assert (G' : gridfs (db (base tw)) `prefix_of`
               gridfs (db (base (add_tweets_loop hashlib_md5 gridfs_md5 guess_type
                                   rest (tweet_tally results r) tw1).2)))
    by (etrans; eassumption).
  destruct Hcases as [(C & Hs & Hd) | (d & C & Hi & Ht & Hn & Hd)].
  - rewrite C in S4, S5, S6.
    assert (Hok : tweets_ok tw → tweets_ok tw1)
      by (unfold tweets_ok, tweet_ids; by rewrite C).
    destruct r; simpl in *; try discriminate Hs;
      (split_and!; [done | lia | lia | lia | lia | done | done | done | auto]).
  - rewrite C, length_app in S4, S5. simpl in S4, S5.
    assert (Hok : tweets_ok tw → tweets_ok tw1).
    { unfold tweets_ok, tweet_ids. rewrite C, fmap_app. simpl.
      intros [N F]. split.
      - apply NoDup_app. split; [done|]. split; [|apply NoDup_singleton].
        intros x Hx ->%list_elem_of_singleton. rewrite Hi in Hx. by apply Hn.
      - apply Forall_app. split; [done|]. apply Forall_singleton. by rewrite Hi. }
    assert (P : tweets_collection tw `prefix_of`
                tweets_collection
                  (add_tweets_loop hashlib_md5 gridfs_md5 guess_type
                     rest (tweet_tally results r) tw1).2).
    { etrans; [|exact S6]. rewrite C. by apply prefix_app_r. }
    destruct r; simpl in *; try discriminate Hd;
      (split_and!; [done | lia | lia | lia | lia | done | done | done | auto]).
Qed.

(** X21. [add_tweets_batch], whatever the server does: it raises
    nothing; its summary has the number of tweets given as ['total'], and
    ['added'], ['duplicates'] and ['errors'] add up to it.  The tweets
    stored before stay in place, in order, and between ['added'] and
    ['added'] plus ['errors'] tweets are appended (a tweet is reported as
    an error, though stored, when the count that follows its insert
    fails); the tracked users are untouched and no stored file is lost. *)
Theorem add_tweets_batch_accounting (tweets : list Tweet) (tw : TwitterWorld) :
  let res := add_tweets_batch hashlib_md5 gridfs_md5 guess_type tweets tw in
  ∃ s, res.1 = Ok s
    ∧ tb_total s = length tweets
    ∧ tb_added s + tb_duplicates s + tb_errors s = length tweets
    ∧ length (tweets_collection tw) + tb_added s ≤ length (tweets_collection res.2)
    ∧ length (tweets_collection res.2)
      ≤ length (tweets_collection tw) + tb_added s + tb_errors s
    ∧ tweets_collection tw `prefix_of` tweets_collection res.2
    ∧ twitter_users_collection res.2 = twitter_users_collection tw
    ∧ gridfs (db (base tw)) `prefix_of` gridfs (db (base res.2)).
Proof.
  intros res. subst res. unfold add_tweets_batch.
  match goal with
  | |- context [add_tweets_loop _ _ _ tweets ?r0 tw] =>
      destruct (add_tweets_loop_effect tweets r0 tw)
        as (s & S0 & S1 & S2 & S3 & S4 & S5 & S6 & S7 & S8 & S9)
  end.
  simpl in *. exists s. repeat split; try done; lia.
Qed.

(** X22. The ids of the stored tweets stay unique.  When no two stored
    tweets have the same ['tweet_id'] and none has an absent or empty
    one, the same holds after [add_tweets_batch], whatever the tweets
    given and whatever the server does. *)
Theorem tweet_ids_stay_unique (tweets : list Tweet) (tw : TwitterWorld) :
  tweets_ok tw →
  tweets_ok (add_tweets_batch hashlib_md5 gridfs_md5 guess_type tweets tw).2.
Proof.
  intros Hok. unfold add_tweets_batch.
  match goal with
  | |- context [add_tweets_loop _ _ _ tweets ?r0 tw] =>
      destruct (add_tweets_loop_effect tweets r0 tw)
        as (s & S0 & S1 & S2 & S3 & S4 & S5 & S6 & S7 & S8 & S9)
  end.
  by apply S9.
Qed.

End TwitterFacts.

(** *** Tracked users and the statistics *)

Lemma existsb_user_name (u : string) (l : list UserDoc) :
  existsb (has_user_name u) l = true ↔ u ∈ user_name <$> l.
Proof.
  rewrite existsb_exists, list_elem_of_fmap. unfold has_user_name. split.
  - intros (d & Hd & E). apply bool_decide_eq_true in E.
    exists d. split; [done|]. by apply list_elem_of_In.
  - intros (d & E & Hd). exists d. split; [by apply list_elem_of_In|].
    by apply bool_decide_eq_true.
Qed.

Lemma remove_first_elem_of {A} (p : A → bool) (l : list A) (y : A) :
  y ∈ remove_first p l → y ∈ l.
Proof.
  induction l as [|x l IH]; simpl; [done|].
  destruct (p x).
  - intros H. by apply elem_of_cons; right.
  - intros [->|H]%elem_of_cons; apply elem_of_cons; auto.
Qed.

Lemma remove_first_NoDup (u : string) (l : list UserDoc) :
  NoDup (user_name <$> l) →
  NoDup (user_name <$> remove_first (has_user_name u) l)
  ∧ u ∉ user_name <$> remove_first (has_user_name u) l.
Proof.
  induction l as [|x l IH]; simpl.
  { intros _. split; [constructor|]. by intros H%elem_of_nil. }
  intros [Hx Hl]%NoDup_cons. unfold has_user_name at 1 3.
  case_bool_decide as E; simpl.
  - split; [done|]. by rewrite <- E.
  - destruct (IH Hl) as [IH1 IH2]. split.
    + apply NoDup_cons. split; [|done].
      intros (d & Ed & Hd)%list_elem_of_fmap. apply Hx.
      apply list_elem_of_fmap. exists d. split; [done|].
      by apply remove_first_elem_of in Hd.
    + intros [H|H]%elem_of_cons; [congruence|by apply IH2].
Qed.

Lemma remove_first_snoc (u : string) (l : list UserDoc) (d : UserDoc) :
  u ∉ user_name <$> l → user_name d = u →
  remove_first (has_user_name u) (l ++ [d]) = l.
Proof.
  intros Hn Hd. induction l as [|x l IH]; simpl.
  - unfold has_user_name. by rewrite bool_decide_eq_true_2.
  - simpl in Hn. apply not_elem_of_cons in Hn as [Hx Hl].
    unfold has_user_name at 1. rewrite bool_decide_eq_false_2 by congruence.
    by rewrite IH.
Qed.

(** X23. The names of the tracked users stay unique, whatever the server
    does: [add_user] raises nothing and leaves the users as they were or
    appends one whose name was not there; [remove_user] leaves them as
    they were or takes out the user of that name; neither touches the
    tweets.  So when no name is tracked twice, none is after either
    call, and the name is no longer tracked when [remove_user] reports
    success. *)
Theorem user_names_stay_unique (username : string) (display_name_ : option string)
    (tw : TwitterWorld) :
  NoDup (user_names tw) →
  let added := add_user username display_name_ tw in
  let removed := remove_user username tw in
  (∃ r, added.1 = Ok r)
  ∧ NoDup (user_names added.2)
  ∧ user_names tw `prefix_of` user_names added.2
  ∧ tweets_collection added.2 = tweets_collection tw
  ∧ NoDup (user_names removed.2)
  ∧ (removed.1 = Ok user_success → username ∉ user_names removed.2)
  ∧ tweets_collection removed.2 = tweets_collection tw.
Proof.
  intros Hnd added removed. subst added removed.
  destruct tw as [tws us st b]. destruct b as [d c n f dk us0].
  unfold user_names in *. simpl in Hnd.
  pose proof (existsb_user_name username us) as Hex.
  pose proof (remove_first_NoDup username us Hnd) as [Hr1 Hr2].
  assert (Happ : existsb (has_user_name username) us = false →
                 ∀ t dn, NoDup (user_name <$> us ++
                   [{| user_name := username; display_name := dn; added_at := t;
                       user_total_tweets := 0; last_scraped := None |}])).
  { intros E t dn. rewrite fmap_app. apply NoDup_app. split; [done|].
    split; [|apply NoDup_singleton].
    intros x Hx ->%list_elem_of_singleton. simpl in Hx.
    apply Hex in Hx. congruence. }
  unfold add_user, remove_user, twitter_users_insert_one, twitter_stats_upsert,
    ttry, tbind, lift, server_call, now, tget, tmodify, tret, traise, set_base,
    set_twitter_users, set_twitter_stats.
  simpl.
  split_and!; split_faults; try (by apply Happ); rewrite ?fmap_app;
    eauto using prefix_app_r; done.
Qed.

Lemma existsb_user_snoc (u : string) (l : list UserDoc) (d : UserDoc) :
  user_name d = u → existsb (has_user_name u) (l ++ [d]) = true.
Proof.
  intros E. rewrite existsb_app. simpl. unfold has_user_name at 2.
  rewrite bool_decide_eq_true_2 by done. by rewrite orb_true_r.
Qed.

(** X24. Tracking a user and dropping it again, when the server answers.
    For a name that is not tracked, [add_user] reports success and
    appends the user, with the display name given, or the user name when
    none or an empty one is given, no tweets and no last scrape, and
    counts one more user; a second [add_user] of the name reports a
    duplicate.  [remove_user] of the name then reports success and gives
    back the users and the count of users there were before, and a second
    [remove_user] reports that the user is not found and changes
    nothing. *)
Theorem add_user_then_remove_user (username : string) (display_name_ : option string)
    (tw : TwitterWorld) :
  faults (base tw) = [] →
  username ∉ user_names tw →
  let added := add_user username display_name_ tw in
  let removed := remove_user username added.2 in
  added.1 = Ok user_success
  ∧ (∃ d, twitter_users_collection added.2 = twitter_users_collection tw ++ [d]
          ∧ user_name d = username
          ∧ display_name d = (if truthy display_name_ then default "" display_name_
                              else username)
          ∧ user_total_tweets d = 0%Z ∧ last_scraped d = None)
  ∧ total_users_of added.2 = (total_users_of tw + 1)%Z
  ∧ (add_user username display_name_ added.2).1 = Ok user_duplicate
  ∧ removed.1 = Ok user_success
  ∧ twitter_users_collection removed.2 = twitter_users_collection tw
  ∧ total_users_of removed.2 = total_users_of tw
  ∧ remove_user username removed.2 = (Ok user_not_found, removed.2).
Proof.
  intros Hf Hn added removed. subst added removed.
  destruct tw as [tws us st b]. destruct b as [d c n f dk us0].
  simpl in Hf. subst f. unfold user_names in Hn. simpl in Hn.
  assert (Ex : existsb (has_user_name username) us = false).
  { destruct (existsb (has_user_name username) us) eqn:E; [|done].
    apply existsb_user_name in E. done. }
  unfold total_users_of, stats_or_empty.
  unfold add_user, remove_user, twitter_users_insert_one, twitter_stats_upsert,
    ttry, tbind, lift, server_call, now, tget, tmodify, tret, traise, set_base,
    set_twitter_users, set_twitter_stats.
  simpl. rewrite Ex. simpl.
  rewrite !existsb_user_snoc by done. simpl.
  rewrite remove_first_snoc by done. rewrite Ex. simpl.
  split_and!; try done.
  - eexists. split; [reflexivity|]. done.
  - lia.
Qed.

(** X25. [get_stats], when the server answers, reports the number of
    stored tweets and of tracked users as they are in the collections,
    whatever the counters of the statistics document say; the other
    entries are those of the document when there is a non-empty one, and
    nothing is changed in the three collections. *)
Theorem get_stats_counts_collections (tw : TwitterWorld) :
  faults (base tw) = [] →
  let res := get_stats tw in
  ∃ s, res.1 = Ok s
    ∧ total_tweets s = Some (Z.of_nat (length (tweets_collection tw)))
    ∧ total_users s = Some (Z.of_nat (length (twitter_users_collection tw)))
    ∧ (∀ d, twitter_stats_collection tw = Some d → stats_doc_truthy d = true →
         total_keywords_searches s = total_keywords_searches d
         ∧ stats_last_updated_at s = stats_last_updated_at d
         ∧ user_tweets s = user_tweets d
         ∧ keyword_tweets s = keyword_tweets d)
    ∧ tweets_collection res.2 = tweets_collection tw
    ∧ twitter_users_collection res.2 = twitter_users_collection tw
    ∧ twitter_stats_collection res.2 = twitter_stats_collection tw.
Proof.
  intros Hf res. subst res.
  destruct tw as [tws us st b]. destruct b as [d c n f dk us0].
  simpl in Hf. subst f.
  unfold get_stats, fallback_stats, tweets_count_documents,
    twitter_users_count_documents, tbind, lift, server_call, now, tget, tret,
    set_base.
  simpl. destruct st as [d0|]; simpl.
  - destruct (stats_doc_truthy d0) eqn:Et; simpl.
    + eexists. split_and!; try done. by intros ? [= <-] _.
    + eexists. split_and!; try done. intros ? [= <-] ?. congruence.
  - eexists. split_and!; done.
Qed.

Lemma add_tweet_new_witness :
  let md5_ := string_of_list_byte in
  let stored_md5 := λ content, Some (string_of_list_byte content) in
  let guess := λ _ : string, @None string in
  let res := add_tweet md5_ stored_md5 guess tweet_with_media twitter_start in
  ∃ d, tweets_collection res.2 = tweets_collection twitter_start ++ [d]
    ∧ res.1 = Ok (tweet_success (default "" (filed_id tweet_with_media))
                    (S (length (tweets_collection twitter_start)))
                    (length (default [] (tw_media_files_gridfs (tweet_doc d))))
                    (tweet_doc_id d)).
Proof.
  intros md5_ stored_md5 guess res.
  destruct (add_tweet_new md5_ stored_md5 guess tweet_with_media twitter_start)
    as (d & C & R & _);
    [reflexivity | reflexivity | by intros H%elem_of_nil | reflexivity | reflexivity |].
  exists d. split; assumption.
Defined.

Lemma add_tweet_again_witness :
  let md5_ := string_of_list_byte in
  let stored_md5 := λ content, Some (string_of_list_byte content) in
  let guess := λ _ : string, @None string in
  (add_tweet md5_ stored_md5 guess tweet_with_media stored_tweet_world).1
  = Ok (tweet_duplicate (default "" (filed_id tweet_with_media))).
Proof.
  intros md5_ stored_md5 guess.
  refine (proj1 (add_tweet_again md5_ stored_md5 guess tweet_with_media
                   stored_tweet_world _ _ _)); [reflexivity | reflexivity |].
  apply list_elem_of_here.
Defined.

Lemma tweet_ids_stay_unique_witness :
  let md5_ := string_of_list_byte in
  let stored_md5 := λ content, Some (string_of_list_byte content) in
  let guess := λ _ : string, @None string in
  tweets_ok (add_tweets_batch md5_ stored_md5 guess
               [tweet_with_media; tweet_with_media] twitter_start).2.
Proof.
  intros md5_ stored_md5 guess.
  apply (tweet_ids_stay_unique md5_ stored_md5 guess
           [tweet_with_media; tweet_with_media] twitter_start).
  split; constructor.
Defined.

Lemma user_names_stay_unique_witness :
  NoDup (user_names (add_user "alice" None twitter_start).2).
Proof.
  refine (proj1 (proj2 (user_names_stay_unique "alice" None twitter_start _))).
  constructor.
Defined.

Lemma add_user_then_remove_user_witness :
  let added := add_user "alice" (Some "Alice") twitter_start in
  let removed := remove_user "alice" added.2 in
  added.1 = Ok user_success
  ∧ removed.1 = Ok user_success
  ∧ twitter_users_collection removed.2 = twitter_users_collection twitter_start.
Proof.
  intros added removed.
  destruct (add_user_then_remove_user "alice" (Some "Alice") twitter_start)
    as (A & _ & _ & _ & R & U & _); [reflexivity | by intros H%elem_of_nil |].
  split; [exact A|]. split; [exact R | exact U].
Defined.

Lemma get_stats_counts_collections_witness :
  ∃ s, (get_stats stored_tweet_world).1 = Ok s
       ∧ total_tweets s
         = Some (Z.of_nat (length (tweets_collection stored_tweet_world))).
Proof.
  destruct (get_stats_counts_collections stored_tweet_world) as (s & R & Tt & _);
    [reflexivity|].
  exists s. split; assumption.
Defined.
